(** * Quantum-resistant blockchain node: chain rules, consensus manager, shard manager

    A shallow embedding of the node's core (Block, Transaction, BlockValidation,
    Blockchain, Mempool, ConsensusManager, ShardManager) and the properties
    of its specification and of the code around it.

    Conventions of the embedding.
    - Integer-valued JS numbers (timestamps, nonces, difficulties, stakes,
      reputations) are [Z]; the arithmetic the code performs on them (+, -,
      comparison, Math.abs/min/max) is exact on doubles below 2^53, so it is
      written with the [Z] operations.  A height passed to
      [getBlockByHeight] is any JS number ([JsNum.number]): the caller hands
      over what [parseInt] made of a request parameter.
    - JS numbers that the code divides (transaction amounts, block rewards,
      validator rewards) are IEEE-754 binary64 values: Rocq's primitive
      [float], with [Math.floor] and [Math.pow(2, .)] written out in [JsNum].
    - Everything the code obtains from the outside world is an explicit
      argument: the bytes drawn by [randomBytes], the reading of [Date.now()]
      (one reading per method call), the answers of the post-quantum
      primitives and of the digest function (class [Capabilities]), the
      outcome of the storage engine.
    - A [require] resolves to the class it names.  An [async] call that is
      awaited is modelled by the value it resolves to; a promise that is
      handed on without [await] is an object, truthy whatever it resolves
      to.  [throw] is a result type: an [Error] thrown by the code, the
      [ReferenceError] of reading a name the module does not bind, the
      [TypeError] of calling a method the object does not define. *)

From Stdlib Require Import ZArith Floats Strings.String Strings.Ascii List Bool Lia.
From stdpp Require Import base option list strings pretty gmap.

Local Open Scope string_scope.
Local Open Scope Z_scope.

(* ===================================================================== *)
(** ** JS numbers that are not integers *)
(* ===================================================================== *)

Module JsNum.

(** The double nearest to an integer (ties to even), as a JS integer
    literal or an integer-valued field denotes it. *)
Definition ofZ (z : Z) : float :=
  SF2Prim (binary_normalize prec emax z 0 false).

(** The possible results of [Math.floor]: an integer, or one of the values
    [Math.floor] returns unchanged. *)
Inductive integral :=
| INaN
| IInf (negative : bool)
| INegZero
| IInt (z : Z).

(** [Math.floor x] for x = (-1)^s * m * 2^e. *)
Definition floorI (x : float) : integral :=
  match Prim2SF x with
  | S754_nan => INaN
  | S754_infinity s => IInf s
  | S754_zero s => if s then INegZero else IInt 0
  | S754_finite s m e =>
      if 0 <=? e then IInt ((if s then -1 else 1) * (Z.pos m * 2 ^ e))
      else
        let d := 2 ^ (- e) in
        if s then IInt (- ((Z.pos m + d - 1) / d)) else IInt (Z.pos m / d)
  end.

Definition ofIntegral (i : integral) : float :=
  match i with
  | INaN => nan
  | IInf s => if s then neg_infinity else infinity
  | INegZero => neg_zero
  | IInt z => ofZ z
  end.

(** [Math.floor] *)
Definition floor (x : float) : float := ofIntegral (floorI x).

(** [Math.pow(2, k)] for an integral k: exact, overflowing to Infinity from
    2^1024 and underflowing to 0 below 2^-1074. *)
Definition pow2 (k : integral) : float :=
  match k with
  | INaN => nan
  | IInf s => if s then PrimFloat.zero else infinity
  | INegZero => PrimFloat.one
  | IInt z => Z.ldexp PrimFloat.one z
  end.

(** [Number.isFinite] *)
Definition isFinite (x : float) : bool :=
  match Prim2SF x with
  | S754_nan | S754_infinity _ => false
  | _ => true
  end.

(** Equality of the JSON texts of two numbers: NaN and the infinities print
    as null, both zeros print as 0, any other double prints as itself. *)
Definition json_eqb (x y : float) : bool :=
  if isFinite x then isFinite y && PrimFloat.eqb x y else negb (isFinite y).

(** A number as a comparison with an integer and an array read see it:
    every double is an integer (both zeros are [Int 0]), lies strictly
    between two consecutive integers, is an infinity, or is NaN. *)
Inductive number :=
| Int (z : Z)
| NonInt (below : Z)        (* strictly between [below] and [below + 1] *)
| Infinite (negative : bool)
| NaN.

(** [x < n] for an integer n *)
Definition ltZ (x : number) (n : Z) : bool :=
  match x with
  | Int z => z <? n
  | NonInt below => below <? n
  | Infinite negative => negative
  | NaN => false
  end.

(** [x >= n] for an integer n *)
Definition geZ (x : number) (n : Z) : bool :=
  match x with
  | Int z => n <=? z
  | NonInt below => n <=? below
  | Infinite negative => negb negative
  | NaN => false
  end.

(** The index that [a[x]] reads: the property key of a number is an array
    index only for a non-negative integer. *)
Definition index (x : number) : option nat :=
  match x with
  | Int z => if 0 <=? z then Some (Z.to_nat z) else None
  | _ => None
  end.

End JsNum.

(* ===================================================================== *)
(** ** Strings: hexadecimal encoding of a buffer *)
(* ===================================================================== *)

Module Hex.

Definition digit (n : N) : ascii :=
  match n with
  | 0%N => "0" | 1%N => "1" | 2%N => "2" | 3%N => "3"
  | 4%N => "4" | 5%N => "5" | 6%N => "6" | 7%N => "7"
  | 8%N => "8" | 9%N => "9" | 10%N => "a" | 11%N => "b"
  | 12%N => "c" | 13%N => "d" | 14%N => "e" | _ => "f"
  end%char.

(** [Buffer.from(s).toString("hex")] for a buffer given by its bytes. *)
Fixpoint encode (s : string) : string :=
  match s with
  | EmptyString => EmptyString
  | String c rest =>
      let n := N_of_ascii c in
      String (digit (n / 16)) (String (digit (n mod 16)) (encode rest))
  end.

(** The value of a lower-case hexadecimal digit. *)
Definition value (c : ascii) : N :=
  let n := N_of_ascii c in
  if (n <? 58)%N then (n - 48)%N else (n - 87)%N.

(** [Buffer.from(s, "hex")] for a string of digit pairs. *)
Fixpoint decode (s : string) : string :=
  match s with
  | String hi (String lo rest) =>
      String (ascii_of_N (value hi * 16 + value lo)) (decode rest)
  | _ => EmptyString
  end.

End Hex.

(* ===================================================================== *)
(** ** Proof objects of the post-quantum primitives (KyberUtils) *)
(* ===================================================================== *)

(** The object [{ signature, randomness }] every proof-producing function of
    KyberUtils returns. *)
Record Proof := mkProof {
  signature : string;
  randomness : string
}.

#[global] Instance Proof_eq_dec : EqDecision Proof.
Proof. solve_decision. Defined.

(* ===================================================================== *)
(** ** Transaction and Block records *)
(* ===================================================================== *)

Module TransactionData.

Record t := mk {
  sender : string;
  recipient : string;
  amount : float;
  timestamp : Z;
  data : string;
  senderPublicKey : option string;   (* undefined when absent *)
  signature : option Proof;          (* null until signed *)
  nonce : Z;
  hash : string;
  blockHeight : option float         (* never set by the class itself *)
}.

(** Equality of [JSON.stringify] of two transactions: the nine fields of
    [toJSON], [blockHeight] not being serialised. *)
Definition json_eqb (a b : t) : bool :=
  bool_decide (sender a = sender b)
  && bool_decide (recipient a = recipient b)
  && JsNum.json_eqb (amount a) (amount b)
  && bool_decide (timestamp a = timestamp b)
  && bool_decide (data a = data b)
  && bool_decide (senderPublicKey a = senderPublicKey b)
  && bool_decide (signature a = signature b)
  && bool_decide (nonce a = nonce b)
  && bool_decide (hash a = hash b).

End TransactionData.

(** Two JSON arrays print alike when they have the same length and their
    elements print alike, position by position. *)
Fixpoint json_list_eqb {A} (item_eqb : A -> A -> bool) (xs ys : list A) : bool :=
  match xs with
  | [] => match ys with [] => true | _ :: _ => false end
  | x :: xs' =>
      match ys with
      | [] => false
      | y :: ys' => item_eqb x y && json_list_eqb item_eqb xs' ys'
      end
  end.

(* ===================================================================== *)
(** ** Block *)
(* ===================================================================== *)

Module BlockData.

Record t := mk {
  timestamp : Z;
  lastHash : string;
  hash : string;
  transactions : list TransactionData.t;
  nonce : Z;
  difficulty : Z;
  quantumProof : option Proof;       (* null by default *)
  merkleRoot : option string;        (* null iff built without transactions *)
  minerPublicKey : option string     (* read by the validator, never set by the class *)
}.

End BlockData.

(* ===================================================================== *)
(** ** Results of calls *)
(* ===================================================================== *)

(** A call either returns or throws an [Error] with a message. *)
Inductive outcome (A : Type) :=
| Return (a : A)
| Throw (message : string).
Arguments Return {A} a.
Arguments Throw {A} message.

(** A promise that the caller does not await: an object. *)
Record promise (A : Type) := Promise { resolved : A }.
Arguments Promise {A} resolved.
Arguments resolved {A} p.

(** The truth value of a promise as an operand of [&&] or [!]. *)
Definition truthy {A} (p : promise A) : bool := true.

(* ===================================================================== *)
(** ** The capabilities the core consumes *)
(* ===================================================================== *)

(** A message handed to the signature primitive: [Buffer.from(s, "hex")] or
    [Buffer.from(s)]. *)
Inductive buffer :=
| HexBuffer (s : string)
| Utf8Buffer (s : string).

(** Digests, signature checks and sizes are computed by external libraries
    (blake3, pqc-kyber, merkletreejs, Buffer); the core only calls them. *)
Class Capabilities := {
  (** [Block.hash({timestamp, lastHash, transactions, nonce, difficulty})] *)
  blockDigest : Z -> string -> list TransactionData.t -> Z -> Z -> string;
  (** [Transaction.calculateHash]: blake3 of sender, recipient, amount,
      timestamp, data, nonce *)
  txDigest : string -> string -> float -> Z -> string -> Z -> string;
  (** root of the Merkle tree over the transactions *)
  merkleDigest : list TransactionData.t -> string;
  (** the resolved answer of Kyber's check of a well-formed proof *)
  kyberVerify : buffer -> Proof -> string -> bool;
  (** [Buffer.from(JSON.stringify(block)).length] *)
  jsonSize : BlockData.t -> Z;
  (** [BigInt("0x" + blake3(address))] *)
  addressDigest : string -> N;
  (** [blake3.hash(data).toString("hex")] of a string *)
  blake3 : string -> string
}.

Module KyberUtils.
Section WithCapabilities.
Context {caps : Capabilities}.

(** [verifySignature(message, proof, publicKey)]: a null proof or an
    undefined key makes the body throw, which its [catch] turns into
    [false]. *)
Definition verifySignature (message : buffer) (proof : option Proof)
    (publicKey : option string) : bool :=
  match proof, publicKey with
  | Some p, Some k => kyberVerify message p k
  | _, _ => false
  end.

Definition verifyBlockProof (blockHash : string) (proof : option Proof)
    (publicKey : option string) : bool :=
  verifySignature (HexBuffer blockHash) proof publicKey.

End WithCapabilities.

(** [generateDeterministicProof(seed)]; [random32] is what
    [randomBytes(32)] returns in this call. *)
Definition generateDeterministicProof (seed : string) (random32 : string) : Proof :=
  {| signature := Hex.encode seed;
     randomness := Hex.encode random32 |}.

Definition generateInitialQuantumProof (random32 : string) : Proof :=
  generateDeterministicProof "quantum-genesis-seed" random32.

(** The methods that the consensus manager and the shard manager call and
    that the class does not define ([generateKeyPair], [encapsulate],
    [decapsulate], [generateBlockProof], [verifyBlockProof],
    [generateInitialQuantumProof], [generateSignature], [verifySignature],
    [generateDeterministicProof] and [generateSessionKeys] are all it has):
    calling one throws a [TypeError]. *)
Definition generateValidatorProof (publicKey : string) : outcome Proof :=
  Throw "TypeError: KyberUtils.generateValidatorProof is not a function".

Definition generateRandomBytes (length : Z) : outcome string :=
  Throw "TypeError: KyberUtils.generateRandomBytes is not a function".

Definition generateShardIdProof (hash : string) : outcome string :=
  Throw "TypeError: KyberUtils.generateShardIdProof is not a function".

Definition generateCrossShardProof (hash : string) : outcome Proof :=
  Throw "TypeError: KyberUtils.generateCrossShardProof is not a function".

Definition generateFinalizationProof (hash : string) : outcome Proof :=
  Throw "TypeError: KyberUtils.generateFinalizationProof is not a function".

End KyberUtils.

Module Block.
Section WithCapabilities.
Context {caps : Capabilities}.

(** [static hash({ timestamp, lastHash, transactions, nonce, difficulty })] *)
Definition hash (timestamp : Z) (lastHash : string)
    (transactions : list TransactionData.t) (nonce difficulty : Z) : string :=
  blockDigest timestamp lastHash transactions nonce difficulty.

(** [calculateMerkleRoot()] *)
Definition calculateMerkleRoot (transactions : list TransactionData.t) : option string :=
  match transactions with
  | [] => None
  | _ => Some (merkleDigest transactions)
  end.

(** The constructor, all arguments given. *)
Definition new (timestamp : Z) (lastHash hash : string)
    (transactions : list TransactionData.t) (nonce difficulty : Z)
    (quantumProof : option Proof) : BlockData.t :=
  {| BlockData.timestamp := timestamp;
     BlockData.lastHash := lastHash;
     BlockData.hash := hash;
     BlockData.transactions := transactions;
     BlockData.nonce := nonce;
     BlockData.difficulty := difficulty;
     BlockData.quantumProof := quantumProof;
     BlockData.merkleRoot := calculateMerkleRoot transactions;
     BlockData.minerPublicKey := None |}.

(** [static genesis()]; [random32] is what [randomBytes(32)] returns inside
    [generateDeterministicProof] during this call. The nonce is the
    constructor's default. *)
Definition genesis (random32 : string) : BlockData.t :=
  new 1683900000000 "-----" "genesis-hash" [] 0 4
      (Some (KyberUtils.generateInitialQuantumProof random32)).

(** [getBlockSize()] *)
Definition getBlockSize (b : BlockData.t) : Z := jsonSize b.

End WithCapabilities.

(** Equality of [JSON.stringify] of two blocks: the eight fields of
    [toJSON], compared field by field (the serialisation is injective on
    each of them). *)
Definition json_eqb (a b : BlockData.t) : bool :=
  bool_decide (BlockData.timestamp a = BlockData.timestamp b)
  && bool_decide (BlockData.lastHash a = BlockData.lastHash b)
  && bool_decide (BlockData.hash a = BlockData.hash b)
  && json_list_eqb TransactionData.json_eqb (BlockData.transactions a) (BlockData.transactions b)
  && bool_decide (BlockData.nonce a = BlockData.nonce b)
  && bool_decide (BlockData.difficulty a = BlockData.difficulty b)
  && bool_decide (BlockData.quantumProof a = BlockData.quantumProof b)
  && bool_decide (BlockData.merkleRoot a = BlockData.merkleRoot b).

End Block.

(* ===================================================================== *)
(** ** BlockValidation *)
(* ===================================================================== *)

Module BlockValidation.

Definition BLOCK_GENERATION_INTERVAL : Z := 10000.
Definition DIFFICULTY_ADJUSTMENT_INTERVAL : Z := 10.
Definition MAX_BLOCK_SIZE : Z := 1000000.
Definition MIN_DIFFICULTY : Z := 4.
Definition MAX_DIFFICULTY : Z := 24.

Section WithCapabilities.
Context {caps : Capabilities}.

(** The [typeof] tests hold by typing; what is left is
    [block.quantumProof !== null]. *)
Definition validateBlockStructure (block : BlockData.t) : bool :=
  match BlockData.quantumProof block with
  | Some _ => true
  | None => false
  end.

(** What [Block.hash({ ... })] evaluates to inside BlockValidation.js: the
    module's only [require] is KyberUtils, so the name [Block] is not bound
    there and reading it throws. *)
Definition Block_hash (timestamp : Z) (lastHash : string)
    (transactions : list TransactionData.t) (nonce difficulty : Z) : outcome string :=
  Throw "ReferenceError: Block is not defined".

Definition validateBlockHash (block : BlockData.t) : outcome bool :=
  match Block_hash (BlockData.timestamp block) (BlockData.lastHash block)
                   (BlockData.transactions block) (BlockData.nonce block)
                   (BlockData.difficulty block) with
  | Throw e => Throw e
  | Return hash => Return (bool_decide (BlockData.hash block = hash))
  end.

Definition validateBlockChain (block : BlockData.t)
    (lastBlock : option BlockData.t) : bool :=
  match lastBlock with
  | None => bool_decide (BlockData.lastHash block = "-----")
  | Some lastBlock =>
      bool_decide (BlockData.lastHash block = BlockData.hash lastBlock)
      && (BlockData.timestamp lastBlock <? BlockData.timestamp block)
      && (Z.abs (BlockData.difficulty block - BlockData.difficulty lastBlock) <=? 1)
  end.

(** [validateQuantumProof(block)]: [verifyBlockProof] hands on the promise
    of the asynchronous [verifySignature], and so does this function; the
    [catch] sees no exception. *)
Definition validateQuantumProof (block : BlockData.t) : promise bool :=
  Promise (KyberUtils.verifyBlockProof (BlockData.hash block)
             (BlockData.quantumProof block) (BlockData.minerPublicKey block)).

Definition validateBlockSize (block : BlockData.t) : bool :=
  Block.getBlockSize block <=? MAX_BLOCK_SIZE.

(** [isValidBlock(block, lastBlock)]: the operands of [&&] are evaluated
    from the left until one is falsy; the promise of [validateQuantumProof]
    is an operand like the others. *)
Definition isValidBlock (block : BlockData.t)
    (lastBlock : option BlockData.t) : outcome bool :=
  if negb (validateBlockStructure block) then Return false
  else
    match validateBlockHash block with
    | Throw e => Throw e
    | Return sameHash =>
        Return (sameHash
                && validateBlockChain block lastBlock
                && truthy (validateQuantumProof block)
                && validateBlockSize block)
    end.

End WithCapabilities.

(** [adjustDifficulty({ originalBlock, timestamp })] *)
Definition adjustDifficulty (originalBlock : BlockData.t) (timestamp : Z) : Z :=
  let difficulty := BlockData.difficulty originalBlock in
  if difficulty <? MIN_DIFFICULTY then MIN_DIFFICULTY
  else if MAX_DIFFICULTY <? difficulty then MAX_DIFFICULTY
  else
    let timeDifference := timestamp - BlockData.timestamp originalBlock in
    if BLOCK_GENERATION_INTERVAL * 2 <? timeDifference
    then Z.max (difficulty - 1) MIN_DIFFICULTY
    else if timeDifference <? BLOCK_GENERATION_INTERVAL / 2
    then Z.min (difficulty + 1) MAX_DIFFICULTY
    else difficulty.

(** The deviation test on two blocks 9 positions apart. *)
Definition withinDeviation (lastBlock lastAdjustmentBlock : BlockData.t) : bool :=
  let expectedTime := BLOCK_GENERATION_INTERVAL * DIFFICULTY_ADJUSTMENT_INTERVAL in
  let actualTime := BlockData.timestamp lastBlock - BlockData.timestamp lastAdjustmentBlock in
  let deviation := Z.abs (actualTime - expectedTime) in
  deviation <=? expectedTime / 4.

(** [validateDifficultyAdjustment(blocks)]; the two reads are in range as
    soon as the length test passes. *)
Definition validateDifficultyAdjustment (blocks : list BlockData.t) : bool :=
  let len := Z.of_nat (length blocks) in
  if len <? DIFFICULTY_ADJUSTMENT_INTERVAL then true
  else
    match blocks !! Z.to_nat (len - 1),
          blocks !! Z.to_nat (len - DIFFICULTY_ADJUSTMENT_INTERVAL) with
    | Some lastBlock, Some lastAdjustmentBlock =>
        withinDeviation lastBlock lastAdjustmentBlock
    | _, _ => false
    end.

End BlockValidation.

(* ===================================================================== *)
(** ** Blockchain *)
(* ===================================================================== *)

(** The storage engine: [saveChain] either resolves or rejects, and may have
    touched the database in both cases. *)
Class Storage := {
  DB : Type;
  saveChain : DB -> list BlockData.t -> DB * bool
}.

Module Blockchain.

(** What [this.chain[height]] or an explicit [return null] yields. *)
Inductive lookup :=
| Null
| Undefined
| Found (block : BlockData.t).

Section WithCapabilities.
Context {caps : Capabilities} {store : Storage}.

Record t := mk {
  chain : list BlockData.t;
  db : DB
}.

(** The loop of [isValidChain]: [lastBlock] is [chain[i - 1]], the list
    holds [chain[i]] onwards. *)
Fixpoint validLinks (lastBlock : BlockData.t) (rest : list BlockData.t)
    : outcome bool :=
  match rest with
  | [] => Return true
  | block :: rest' =>
      match BlockValidation.isValidBlock block (Some lastBlock) with
      | Throw e => Throw e
      | Return valid => if negb valid then Return false else validLinks block rest'
      end
  end.

(** [isValidChain(chain)]; [random32] feeds the call of [Block.genesis()].
    On an empty array [JSON.stringify(undefined)] is [undefined], which is
    not the genesis text. *)
Definition isValidChain (random32 : string) (chain : list BlockData.t)
    : outcome bool :=
  match chain with
  | [] => Return false
  | first :: rest =>
      if negb (Block.json_eqb first (Block.genesis random32)) then Return false
      else
        match validLinks first rest with
        | Throw e => Throw e
        | Return linked =>
            if negb linked then Return false
            else Return (BlockValidation.validateDifficultyAdjustment chain)
        end
  end.

(** [replaceChain(newChain)]; the call of [isValidChain] is outside the
    [try], so what it throws is what the method throws. *)
Definition replaceChain (random32 : string) (newChain : list BlockData.t)
    (this : t) : outcome bool * t :=
  if Z.of_nat (length newChain) <=? Z.of_nat (length (chain this))
  then (Throw "Received chain is not longer than current chain", this)
  else
    match isValidChain random32 newChain with
    | Throw e => (Throw e, this)
    | Return valid =>
        if negb valid then (Throw "Received chain is invalid", this)
        else
          let '(db', saved) := saveChain (db this) newChain in
          if saved then (Return true, {| chain := newChain; db := db' |})
          else (Return false, {| chain := chain this; db := db' |})
    end.

(** [getBlockByHeight(height)]; the height is whatever number the caller
    passes (the API passes the result of [parseInt], an integer or NaN). *)
Definition getBlockByHeight (height : JsNum.number) (this : t) : lookup :=
  if JsNum.ltZ height 0 || JsNum.geZ height (Z.of_nat (length (chain this)))
  then Null
  else
    match JsNum.index height with
    | Some i =>
        match chain this !! i with
        | Some block => Found block
        | None => Undefined
        end
    | None => Undefined
    end.

End WithCapabilities.
End Blockchain.

(* ===================================================================== *)
(** ** Transaction *)
(* ===================================================================== *)

Module Transaction.
Import TransactionData.

(** A call of the signature primitive, as observed from outside. *)
Inductive event :=
| VerifySignature (message : buffer) (proof : Proof) (publicKey : string).

Definition COINBASE_SENDER : string := "0000000000000000000000000000000000000000".

(** [static calculateBlockReward(blockHeight)]; an [undefined] height makes
    every intermediate value NaN. *)
Definition calculateBlockReward (blockHeight : option float) : float :=
  let initialReward := 50%float in
  let halvingInterval := 210000%float in
  let height := match blockHeight with Some h => h | None => nan end in
  let halvings := JsNum.floorI (height / halvingInterval)%float in
  (initialReward / JsNum.pow2 halvings)%float.

Section WithCapabilities.
Context {caps : Capabilities}.

(** [calculateHash()] *)
Definition calculateHash (tx : t) : string :=
  txDigest (sender tx) (recipient tx) (amount tx) (timestamp tx) (data tx) (nonce tx).

(** The constructor: the hash is computed from the other fields. *)
Definition new (sender recipient : string) (amount : float) (timestamp : Z)
    (data : string) (senderPublicKey : option string)
    (signature : option Proof) (nonce : Z) : t :=
  {| TransactionData.sender := sender;
     TransactionData.recipient := recipient;
     TransactionData.amount := amount;
     TransactionData.timestamp := timestamp;
     TransactionData.data := data;
     TransactionData.senderPublicKey := senderPublicKey;
     TransactionData.signature := signature;
     TransactionData.nonce := nonce;
     TransactionData.hash := txDigest sender recipient amount timestamp data nonce;
     TransactionData.blockHeight := None |}.

(** [verify()], with the calls it makes to the signature primitive. A
    public key that is [undefined] or the empty string is falsy. *)
Definition verify (tx : t) : bool * list event :=
  match signature tx, senderPublicKey tx with
  | Some sig, Some pk =>
      if bool_decide (pk = "") then (false, [])
      else (KyberUtils.verifySignature (HexBuffer (hash tx)) (Some sig) (Some pk),
            [VerifySignature (HexBuffer (hash tx)) sig pk])
  | _, _ => (false, [])
  end.

(** [static createCoinbase(recipientAddress, blockHeight)]; [now] is the
    constructor's default timestamp. *)
Definition createCoinbase (recipientAddress : string) (blockHeight : Z) (now : Z) : t :=
  let reward := calculateBlockReward (Some (JsNum.ofZ blockHeight)) in
  new COINBASE_SENDER recipientAddress reward now
      ("Coinbase reward for block " +:+ pretty blockHeight)
      (Some COINBASE_SENDER) None 0.

(** [isValid()], with the calls made to the signature primitive. *)
Definition isValid (tx : t) : bool * list event :=
  if negb (bool_decide (hash tx = calculateHash tx)) then (false, [])
  else if (amount tx <=? 0)%float then (false, [])
  else if bool_decide (sender tx = recipient tx) then (false, [])
  else if bool_decide (sender tx = COINBASE_SENDER)
  then ((amount tx =? calculateBlockReward (blockHeight tx))%float, [])
  else verify tx.

End WithCapabilities.
End Transaction.

(* ===================================================================== *)
(** ** JS [Map]: keyed access, iteration in insertion order *)
(* ===================================================================== *)

Module JsMap.
Section Defs.
Context {K V : Type} `{EqDecision K}.

Definition t := list (K * V).

Fixpoint get (k : K) (m : t) : option V :=
  match m with
  | [] => None
  | (k', v) :: m' => if decide (k = k') then Some v else get k m'
  end.

Definition has (k : K) (m : t) : bool :=
  match get k m with Some _ => true | None => false end.

(** [set] keeps the position of a key already present and appends a new
    one. *)
Fixpoint set (k : K) (v : V) (m : t) : t :=
  match m with
  | [] => [(k, v)]
  | (k', v') :: m' => if decide (k = k') then (k, v) :: m' else (k', v') :: set k v m'
  end.

Fixpoint delete (k : K) (m : t) : t :=
  match m with
  | [] => []
  | (k', v') :: m' => if decide (k = k') then m' else (k', v') :: delete k m'
  end.

Definition keys (m : t) : list K := map fst m.
Definition values (m : t) : list V := map snd m.

(** No key occurs twice: what every JS [Map] satisfies. *)
Definition wf (m : t) : Prop := NoDup (keys m).

End Defs.
Arguments t : clear implicits.
End JsMap.

(* ===================================================================== *)
(** ** ConsensusManager *)
(* ===================================================================== *)

(** The values of config.js the core reads. *)
Module config.
Module consensus.
Definition minValidators : Z := 4.
Definition validatorStake : Z := 1000000.
Definition blockReward : float := 50.
End consensus.
Module blockchain.
Definition maxBlockSize : Z := 1000000.
Definition maxTransactionsPerBlock : Z := 2000.
End blockchain.
Module sharding.
Definition totalShards : Z := 16.
Definition minValidatorsPerShard : Z := 4.
End sharding.
End config.

(** The chain-state object handed to the manager's constructor and kept as
    [this.blockchain]: [Ledger] is its state, [distributeValidatorReward]
    what a call of that method does to it, a method that is missing, throws
    or rejects being a [Throw]. *)
Class Collaborator := {
  Ledger : Type;
  distributeValidatorReward : string -> float -> Ledger -> outcome unit * Ledger
}.

Module ConsensusManager.

Record Validator := mkValidator {
  address : string;
  stake : Z;
  publicKey : string;
  blocksMined : Z;
  lastActive : Z;
  reputation : Z;
  quantumProof : Proof
}.

Record t := mk {
  validators : JsMap.t string Validator;
  currentEpoch : Z;
  (** epoch -> (validator address -> blocks produced in the epoch) *)
  epochBlocks : JsMap.t Z (JsMap.t string (list BlockData.t));
  minStake : Z
}.

(** The constructor. *)
Definition new : t :=
  {| validators := [];
     currentEpoch := 0;
     epochBlocks := [];
     minStake := config.consensus.validatorStake |}.

(** [isValidatorActive(validator)]; [now] is the reading of [Date.now()]. *)
Definition isValidatorActive (now : Z) (validator : Validator) : bool :=
  let inactiveThreshold := now - 24 * 60 * 60 * 1000 in
  (inactiveThreshold <? lastActive validator) && (50 <=? reputation validator).

(** The number that [BigInt("0x" + buffer.toString("hex"))] reads from the
    bytes of a buffer. *)
Definition bigIntOfBytes (bytes : string) : Z :=
  fold_left (fun n c => n * 256 + Z.of_N (N_of_ascii c)) (list_ascii_of_string bytes) 0.

(** [generateQuantumRandomNumber(max)]: its first statement calls
    [KyberUtils.generateRandomBytes], which KyberUtils does not define.
    BigInt's [%] truncates and throws on a zero divisor.  The continuation
    is never reached; it is written for a total stake below 2^53, where
    [Number] converts the remainder exactly. *)
Definition generateQuantumRandomNumber (max : Z) : outcome Z :=
  match KyberUtils.generateRandomBytes 32 with
  | Throw e => Throw e
  | Return randomBuffer =>
      if max =? 0 then Throw "RangeError: Division by zero"
      else Return (Z.rem (bigIntOfBytes randomBuffer) max)
  end.

(** The loop of [selectNextValidator]. *)
Fixpoint walk (randomValue cumulativeStake : Z) (activeValidators : list Validator)
    : option Validator :=
  match activeValidators with
  | [] => None
  | validator :: rest =>
      let cumulativeStake := cumulativeStake + stake validator in
      if randomValue <=? cumulativeStake then Some validator
      else walk randomValue cumulativeStake rest
  end.

(** [selectNextValidator()]; the result [None] is [undefined], what
    [activeValidators[0]] is on an empty array. *)
Definition selectNextValidator (now : Z) (this : t) : outcome (option Validator) :=
  let activeValidators :=
    List.filter (isValidatorActive now) (JsMap.values (validators this)) in
  if Z.of_nat (length activeValidators) <? config.consensus.minValidators
  then Throw "Not enough active validators"
  else
    let totalStake := fold_left (fun sum v => sum + stake v) activeValidators 0 in
    match generateQuantumRandomNumber totalStake with
    | Throw e => Throw e
    | Return randomValue =>
        match walk randomValue 0 activeValidators with
        | Some validator => Return (Some validator)
        | None => Return (head activeValidators)
        end
    end.

(** The object literal [validatorInfo] of [registerValidator], once the
    proof awaited for its last field is there. *)
Definition validatorInfo (address : string) (stake : Z) (publicKey : string)
    (now : Z) (proof : Proof) : Validator :=
  {| address := address;
     stake := stake;
     publicKey := publicKey;
     blocksMined := 0;
     lastActive := now;
     reputation := 100;
     quantumProof := proof |}.

(** [registerValidator(address, stake, publicKey)]: the last field of
    [validatorInfo] is the result of [KyberUtils.generateValidatorProof],
    which KyberUtils does not define, so the object is never built. *)
Definition registerValidator (address : string) (stake : Z) (publicKey : string)
    (now : Z) (this : t) : outcome Validator * t :=
  if stake <? minStake this
  then (Throw ("Minimum stake requirement not met. Required: " +:+ pretty (minStake this)), this)
  else if JsMap.has address (validators this)
  then (Throw "Validator already registered", this)
  else
    match KyberUtils.generateValidatorProof publicKey with
    | Throw e => (Throw e, this)
    | Return proof =>
        let validatorInfo := validatorInfo address stake publicKey now proof in
        (Return validatorInfo,
         {| validators := JsMap.set address validatorInfo (validators this);
            currentEpoch := currentEpoch this;
            epochBlocks := epochBlocks this;
            minStake := minStake this |})
    end.

Section WithCapabilities.
Context {caps : Capabilities}.

(** [assessBlockQuality(block)] *)
Definition assessBlockQuality (now : Z) (block : BlockData.t) : Z :=
  let quality := 0 in
  let quality :=
    if Block.getBlockSize block <=? config.blockchain.maxBlockSize
    then quality + 5 else quality in
  let quality :=
    if Z.of_nat (length (BlockData.transactions block))
         <=? config.blockchain.maxTransactionsPerBlock
    then quality + 5 else quality in
  let propagationTime := now - BlockData.timestamp block in
  if propagationTime <=? 1000 then quality + 5 else quality.

(** [updateValidatorStats(address, block)] *)
Definition updateValidatorStats (address : string) (block : BlockData.t)
    (now : Z) (this : t) : t :=
  match JsMap.get address (validators this) with
  | None => this
  | Some validator =>
      let blockQuality := assessBlockQuality now block in
      let validator' :=
        {| ConsensusManager.address := ConsensusManager.address validator;
           stake := stake validator;
           publicKey := publicKey validator;
           blocksMined := blocksMined validator + 1;
           lastActive := now;
           reputation := Z.max 0 (Z.min 100 (reputation validator + blockQuality));
           quantumProof := quantumProof validator |} in
      {| validators := JsMap.set address validator' (validators this);
         currentEpoch := currentEpoch this;
         epochBlocks := epochBlocks this;
         minStake := minStake this |}
  end.

(** [validateBlock(block, validator)]; [validator] is the object the caller
    passes, the statistics are those of the registry entry under its
    address. *)
Definition validateBlock (block : BlockData.t) (validator : Validator)
    (now : Z) (this : t) : bool * t :=
  let isValidSignature :=
    KyberUtils.verifyBlockProof (BlockData.hash block)
      (BlockData.quantumProof block) (Some (publicKey validator)) in
  if negb isValidSignature then (false, this)
  else if negb (isValidatorActive now validator) then (false, this)
  else (true, updateValidatorStats (address validator) block now this).

End WithCapabilities.

(** The reward of one validator for [blocks] blocks, as the body of the loop
    of [calculateValidatorRewards] computes it in double precision. *)
Definition totalReward (minStake : Z) (validator : Validator) (blocks : Z) : float :=
  let baseReward := (JsNum.ofZ blocks * config.consensus.blockReward)%float in
  let stakeWeight := (JsNum.ofZ (stake validator) / JsNum.ofZ minStake)%float in
  let reputationWeight := (JsNum.ofZ (reputation validator) / 100)%float in
  JsNum.floor (baseReward * stakeWeight * reputationWeight)%float.

(** [calculateValidatorRewards(epoch)] *)
Definition calculateValidatorRewards (epoch : Z) (this : t) : JsMap.t string float :=
  let epochValidators := default [] (JsMap.get epoch (epochBlocks this)) in
  fold_left
    (fun rewards '(address, blocks) =>
       match JsMap.get address (validators this) with
       | None => rewards
       | Some validator =>
           JsMap.set address
             (totalReward (minStake this) validator (Z.of_nat (length blocks)))
             rewards
       end)
    epochValidators [].

Section WithCollaborator.
Context {collaborator : Collaborator}.

(** The loop of [distributeRewards]: each call of the collaborator's
    [distributeValidatorReward] is awaited, and the first one that throws or
    rejects ends the loop.  The result lists the credits that resolved. *)
Fixpoint creditAll (rewards : list (string * float)) (ledger : Ledger)
    : outcome unit * list (string * float) * Ledger :=
  match rewards with
  | [] => (Return tt, [], ledger)
  | (address, amount) :: rest =>
      match distributeValidatorReward address amount ledger with
      | (Throw e, ledger') => (Throw e, [], ledger')
      | (Return _, ledger') =>
          let '(result, credited, ledger'') := creditAll rest ledger' in
          (result, (address, amount) :: credited, ledger'')
      end
  end.

(** The result of a call of [distributeRewards]: how it ended, the credits
    that resolved, in order, the collaborator and the manager afterwards. *)
Record Distribution := mkDistribution {
  ended : outcome unit;
  credits : list (string * float);
  ledger : Ledger;
  manager : t
}.

(** [distributeRewards(epoch)]; [ledger] is the state of [this.blockchain]
    when the call starts. *)
Definition distributeRewards (epoch : Z) (ledger : Ledger) (this : t) : Distribution :=
  let rewards := calculateValidatorRewards epoch this in
  match creditAll rewards ledger with
  | (Throw e, credited, ledger') =>
      {| ended := Throw e; credits := credited; ledger := ledger'; manager := this |}
  | (Return _, credited, ledger') =>
      {| ended := Return tt;
         credits := credited;
         ledger := ledger';
         manager :=
           {| validators := validators this;
              currentEpoch := currentEpoch this + 1;
              epochBlocks := JsMap.delete epoch (epochBlocks this);
              minStake := minStake this |} |}
  end.

End WithCollaborator.

(** The reward as the specification words it: the floor of the exact
    product blocksProduced x baseBlockReward x (stake / minStake) x
    (reputation / 100). *)
Definition exactReward (minStake : Z) (validator : Validator) (blocks : Z) : Z :=
  (blocks * 50 * stake validator * reputation validator) / (minStake * 100).

(** *** The manager as a transition system *)

Section Transitions.
Context {caps : Capabilities} {collaborator : Collaborator}.

(** A call of one of the manager's methods, with what it reads from the
    clock and the state in which it finds the collaborator. *)
Inductive operation :=
| RegisterValidator (address : string) (stake : Z) (publicKey : string) (now : Z)
| SelectNextValidator (now : Z)
| ValidateBlock (block : BlockData.t) (validator : Validator) (now : Z)
| UpdateValidatorStats (address : string) (block : BlockData.t) (now : Z)
| CalculateValidatorRewards (epoch : Z)
| DistributeRewards (epoch : Z) (ledger : Ledger).

Definition step (this : t) (o : operation) : t :=
  match o with
  | RegisterValidator address stake publicKey now =>
      snd (registerValidator address stake publicKey now this)
  | SelectNextValidator _ => this
  | ValidateBlock block validator now => snd (validateBlock block validator now this)
  | UpdateValidatorStats address block now => updateValidatorStats address block now this
  | CalculateValidatorRewards _ => this
  | DistributeRewards epoch ledger => manager (distributeRewards epoch ledger this)
  end.

Definition run (ops : list operation) (this : t) : t := fold_left step ops this.

End Transitions.

(** Every registered validator has a reputation between 0 and 100. *)
Definition reputationBounded (this : t) : Prop :=
  Forall (fun v => 0 <= reputation v <= 100) (JsMap.values (validators this)).

(** What every method keeps true of the registry: the stake threshold is
    the configured one, every validator staked at least that much and has a
    reputation between 0 and 100. *)
Definition registryInvariant (this : t) : Prop :=
  minStake this = config.consensus.validatorStake
  /\ Forall (fun v => config.consensus.validatorStake <= stake v
                      /\ 0 <= reputation v <= 100)
            (JsMap.values (validators this)).

(** The rewards of an epoch, entry by entry: a validator of the epoch's
    bookkeeping that is in the registry gets the reward of its blocks, one
    that is not gets nothing. *)
Definition rewardEntry (this : t) (entry : string * list BlockData.t)
    : option (string * float) :=
  match JsMap.get (fst entry) (validators this) with
  | Some validator =>
      Some (fst entry,
            totalReward (minStake this) validator (Z.of_nat (length (snd entry))))
  | None => None
  end.

End ConsensusManager.

(* ===================================================================== *)
(** ** ShardManager *)
(* ===================================================================== *)

Module ShardManager.

Inductive Status :=
| pending
| processing
| completed.

#[global] Instance Status_eq_dec : EqDecision Status.
Proof. solve_decision. Defined.

Record Shard := mkShard {
  id : string;
  chain : list BlockData.t;
  state : gmap string string;
  pendingTransactions : gmap string TransactionData.t;
  lastProcessedBlock : option BlockData.t;
  validatorSet : gset string
}.

(** An entry of the tracking table; a shard id is [None] when the routing
    read past the end of the key array ([undefined]). *)
Record CrossShardTx := mkCrossShardTx {
  transaction : TransactionData.t;
  sourceShard : option string;
  targetShard : option string;
  proof : Proof;
  status : Status;
  timestamp : Z;
  finalizationProof : option Proof;
  completedAt : option Z
}.

Record t := mk {
  shards : JsMap.t string Shard;
  shardValidators : gmap string string;
  crossShardTransactions : gmap string CrossShardTx
}.

Definition totalShards : Z := config.sharding.totalShards.
Definition minValidatorsPerShard : Z := config.sharding.minValidatorsPerShard.

(** The constructor. *)
Definition new : t :=
  {| shards := []; shardValidators := ∅; crossShardTransactions := ∅ |}.

(** *** State and exceptions *)

(** A method body: it reads and writes the manager and returns or throws;
    what it wrote before throwing stays written. *)
Definition M (A : Type) : Type := t -> outcome A * t.

Definition ret {A} (a : A) : M A := fun this => (Return a, this).
Definition throw {A} (message : string) : M A := fun this => (Throw message, this).
Definition bind {A B} (m : M A) (k : A -> M B) : M B :=
  fun this =>
    match m this with
    | (Return a, this') => k a this'
    | (Throw e, this') => (Throw e, this')
    end.
Definition read : M t := fun this => (Return this, this).
Definition write (this' : t) : M unit := fun _ => (Return tt, this').

Notation "x <- m ;; k" := (bind m (fun x => k))
  (at level 100, m at next level, right associativity).
Notation "m ;;; k" := (bind m (fun _ => k))
  (at level 100, right associativity).

(** [for (const x of l) body(x)] *)
Fixpoint forEach {A} (l : list A) (body : A -> M unit) : M unit :=
  match l with
  | [] => ret tt
  | x :: l' => body x ;;; forEach l' body
  end.

(** *** Field updates *)

Definition setShards (f : JsMap.t string Shard -> JsMap.t string Shard) (this : t) : t :=
  {| shards := f (shards this);
     shardValidators := shardValidators this;
     crossShardTransactions := crossShardTransactions this |}.

Definition setCrossShardTransactions
    (f : gmap string CrossShardTx -> gmap string CrossShardTx) (this : t) : t :=
  {| shards := shards this;
     shardValidators := shardValidators this;
     crossShardTransactions := f (crossShardTransactions this) |}.

Definition setPending
    (f : gmap string TransactionData.t -> gmap string TransactionData.t)
    (shard : Shard) : Shard :=
  {| id := id shard;
     chain := chain shard;
     state := state shard;
     pendingTransactions := f (pendingTransactions shard);
     lastProcessedBlock := lastProcessedBlock shard;
     validatorSet := validatorSet shard |}.

(** [crossShardTx.status = status] *)
Definition setStatus (newStatus : Status) (crossShardTx : CrossShardTx) : CrossShardTx :=
  {| transaction := transaction crossShardTx;
     sourceShard := sourceShard crossShardTx;
     targetShard := targetShard crossShardTx;
     proof := proof crossShardTx;
     status := newStatus;
     timestamp := timestamp crossShardTx;
     finalizationProof := finalizationProof crossShardTx;
     completedAt := completedAt crossShardTx |}.

(** The three assignments that mark an entry completed. *)
Definition markCompleted (proof' : Proof) (now : Z) (crossShardTx : CrossShardTx)
    : CrossShardTx :=
  {| transaction := transaction crossShardTx;
     sourceShard := sourceShard crossShardTx;
     targetShard := targetShard crossShardTx;
     proof := proof crossShardTx;
     status := completed;
     timestamp := timestamp crossShardTx;
     finalizationProof := Some proof';
     completedAt := Some now |}.

(** [this.shards.get(shardId).<field> = ...]: a mutation of the shard
    object held by the map; dereferencing a missing shard is a TypeError. *)
Definition updateShard (shardId : option string) (f : Shard -> Shard) : M unit :=
  fun this =>
    match shardId with
    | None => (Throw "TypeError", this)
    | Some shardId =>
        match JsMap.get shardId (shards this) with
        | None => (Throw "TypeError", this)
        | Some shard => (Return tt, setShards (JsMap.set shardId (f shard)) this)
        end
    end.

Section WithCapabilities.
Context {caps : Capabilities}.

(** [generateShardId(index)]: the digest of the index and the clock is
    handed to [KyberUtils.generateShardIdProof], which KyberUtils does not
    define. *)
Definition generateShardId (index : Z) (now : Z) : outcome string :=
  let data := "shard-" +:+ pretty index +:+ "-" +:+ pretty now in
  let hash := blake3 data in
  match KyberUtils.generateShardIdProof hash with
  | Throw e => Throw e
  | Return quantumProof => Return (blake3 quantumProof)
  end.

(** [initializeShards()]: the loop from index [i], [count] iterations
    left. *)
Fixpoint initializeShardsFrom (i : Z) (count : nat) (now : Z) : M unit :=
  match count with
  | O => ret tt
  | S count' =>
      fun this =>
        match generateShardId i now with
        | Throw e => (Throw e, this)
        | Return shardId =>
            let shard :=
              {| id := shardId; chain := []; state := ∅; pendingTransactions := ∅;
                 lastProcessedBlock := None; validatorSet := ∅ |} in
            initializeShardsFrom (i + 1) count' now
              (setShards (JsMap.set shardId shard) this)
        end
  end.

Definition initializeShards (now : Z) : M unit :=
  initializeShardsFrom 0 (Z.to_nat totalShards) now.

(** [getAddressShard(address)]: the key at position
    [digest % totalShards] of [Array.from(this.shards.keys())]. *)
Definition getAddressShard (address : string) (this : t) : option string :=
  let shardIndex := (addressDigest address mod Z.to_N totalShards)%N in
  JsMap.keys (shards this) !! N.to_nat shardIndex.

(** [getTransactionShard(transaction)] *)
Definition getTransactionShard (transaction : TransactionData.t) (this : t)
    : option string :=
  getAddressShard (TransactionData.sender transaction) this.

(** [isCrossShardTransaction(transaction)] *)
Definition isCrossShardTransaction (transaction : TransactionData.t) (this : t) : bool :=
  let senderShard := getTransactionShard transaction this in
  let recipientShard := getAddressShard (TransactionData.recipient transaction) this in
  negb (bool_decide (senderShard = recipientShard)).

(** How a shard id prints inside a template string. *)
Definition shardText (shardId : option string) : string :=
  default "undefined" shardId.

(** [generateCrossShardProof(transaction, sourceShard, targetShard)]: it
    ends in a call of [KyberUtils.generateCrossShardProof], which KyberUtils
    does not define. *)
Definition generateCrossShardProof (transaction : TransactionData.t)
    (sourceShard targetShard : option string) : outcome Proof :=
  let data :=
    TransactionData.hash transaction +:+ shardText sourceShard
    +:+ shardText targetShard in
  KyberUtils.generateCrossShardProof (blake3 data).

(** [generateFinalizationProof(crossShardTx)], likewise. *)
Definition generateFinalizationProof (crossShardTx : CrossShardTx) (now : Z)
    : outcome Proof :=
  let data :=
    TransactionData.hash (transaction crossShardTx)
    +:+ shardText (sourceShard crossShardTx)
    +:+ shardText (targetShard crossShardTx) +:+ pretty now in
  KyberUtils.generateFinalizationProof (blake3 data).

(** An awaited call that reads nothing of the manager. *)
Definition lift {A} (result : outcome A) : M A := fun this => (result, this).

(** [processCrossShardTransaction(transaction)]: the proof is asked for
    before anything is recorded. *)
Definition processCrossShardTransaction (transaction : TransactionData.t) (now : Z)
    : M (string * string) :=
  this <- read ;;
  let sourceShard := getTransactionShard transaction this in
  let targetShard := getAddressShard (TransactionData.recipient transaction) this in
  proof <- lift (generateCrossShardProof transaction sourceShard targetShard) ;;
  let crossShardTx :=
    {| transaction := transaction;
       sourceShard := sourceShard;
       targetShard := targetShard;
       proof := proof;
       status := pending;
       timestamp := now;
       finalizationProof := None;
       completedAt := None |} in
  write (setCrossShardTransactions
           (insert (TransactionData.hash transaction) crossShardTx) this) ;;;
  updateShard sourceShard
    (setPending (insert (TransactionData.hash transaction) transaction)) ;;;
  updateShard targetShard
    (setPending (insert (TransactionData.hash transaction) transaction)) ;;;
  match sourceShard, targetShard with
  | Some s, Some g => ret (s, g)
  | _, _ => throw "TypeError"
  end.

(** [processTransaction(transaction)] *)
Definition processTransaction (transaction : TransactionData.t) (now : Z)
    : M (string + string * string) :=
  this <- read ;;
  match getTransactionShard transaction this with
  | None => throw "Invalid shard"
  | Some shardId =>
      match JsMap.get shardId (shards this) with
      | None => throw "Invalid shard"
      | Some _ =>
          if isCrossShardTransaction transaction this
          then r <- processCrossShardTransaction transaction now ;; ret (inr r)
          else
            updateShard (Some shardId)
              (setPending (insert (TransactionData.hash transaction) transaction)) ;;;
            ret (inl shardId)
      end
  end.

(** [updateCrossShardTransaction(txHash, status)] *)
Definition updateCrossShardTransaction (txHash : string) (newStatus : Status) : M unit :=
  this <- read ;;
  match crossShardTransactions this !! txHash with
  | None => ret tt
  | Some crossShardTx =>
      write (setCrossShardTransactions
               (insert txHash (setStatus newStatus crossShardTx)) this)
  end.

(** [finalizeCrossShardTransaction(txHash)]: the proof is asked for before
    the two deletions. *)
Definition finalizeCrossShardTransaction (txHash : string) (now : Z) : M unit :=
  this <- read ;;
  match crossShardTransactions this !! txHash with
  | None => ret tt
  | Some crossShardTx =>
      proof' <- lift (generateFinalizationProof crossShardTx now) ;;
      updateShard (sourceShard crossShardTx) (setPending (delete txHash)) ;;;
      updateShard (targetShard crossShardTx) (setPending (delete txHash)) ;;;
      this' <- read ;;
      write (setCrossShardTransactions
               (insert txHash (markCompleted proof' now crossShardTx)) this')
  end.

(** The body of the loop of [processCrossShardTransactions]. *)
Definition processCrossShardStep (now : Z) (tx : TransactionData.t) : M unit :=
  this <- read ;;
  match crossShardTransactions this !! TransactionData.hash tx with
  | None => ret tt
  | Some crossShardTx =>
      match status crossShardTx with
      | pending => updateCrossShardTransaction (TransactionData.hash tx) processing
      | processing => finalizeCrossShardTransaction (TransactionData.hash tx) now
      | completed => ret tt
      end
  end.

(** [processCrossShardTransactions(block)] *)
Definition processCrossShardTransactions (block : BlockData.t) (now : Z) : M unit :=
  forEach (BlockData.transactions block) (processCrossShardStep now).

(** [verifyValidatorSignatures(block, signatures)]: the set of the keys
    whose signature over the block hash verifies. *)
Definition verifyValidatorSignatures (block : BlockData.t)
    (signatures : list (string * Proof)) : gset string :=
  list_to_set
    (map fst
       (List.filter
          (fun '(validatorKey, signature) =>
             KyberUtils.verifySignature (Utf8Buffer (BlockData.hash block))
               (Some signature) (Some validatorKey))
          signatures)).

(** The three writes that close [finalizeBlock], on the shard object
    fetched at its start. *)
Definition acceptBlock (block : BlockData.t) (shard : Shard) : Shard :=
  {| id := id shard;
     chain := chain shard ++ [block];
     state := state shard;
     pendingTransactions :=
       fold_left (fun p tx => delete (TransactionData.hash tx) p)
                 (BlockData.transactions block) (pendingTransactions shard);
     lastProcessedBlock := Some block;
     validatorSet := validatorSet shard |}.

(** [finalizeBlock(shardId, block, validatorSignatures)] *)
Definition finalizeBlock (shardId : string) (block : BlockData.t)
    (validatorSignatures : list (string * Proof)) (now : Z) : M BlockData.t :=
  this <- read ;;
  match JsMap.get shardId (shards this) with
  | None => throw "Invalid shard"
  | Some _ =>
      let validSignatures := verifyValidatorSignatures block validatorSignatures in
      if Z.of_nat (size validSignatures) <? minValidatorsPerShard
      then throw "Insufficient validator signatures"
      else
        processCrossShardTransactions block now ;;;
        updateShard (Some shardId) (acceptBlock block) ;;;
        ret block
  end.

(** [getCrossShardTransactionStatus(txHash)], its [status] field. *)
Definition getCrossShardTransactionStatus (txHash : string) (this : t) : option Status :=
  status <$> crossShardTransactions this !! txHash.

End WithCapabilities.

(** *** Vocabulary of the properties *)

(** The pending table of a shard, empty for an unknown id. *)
Definition pendingOf (shardId : string) (this : t) : gmap string TransactionData.t :=
  match JsMap.get shardId (shards this) with
  | Some shard => pendingTransactions shard
  | None => ∅
  end.

(** The chain of a shard, empty for an unknown id. *)
Definition chainOf (shardId : string) (this : t) : list BlockData.t :=
  match JsMap.get shardId (shards this) with
  | Some shard => chain shard
  | None => []
  end.

(** What a listing in a finalized block can do to a tracking entry: leave
    it as it is, or turn a pending one into a processing one. *)
Definition moved (entry entry' : CrossShardTx) : Prop :=
  entry' = entry \/ (status entry = pending /\ entry' = setStatus processing entry).

(** What [processCrossShardTransactions] can have done to the manager, whether
    it returned or threw: the shards are untouched, and every tracking entry
    is still there, moved or not. *)
Definition advanced (this this' : t) : Prop :=
  shards this' = shards this
  /\ shardValidators this' = shardValidators this
  /\ forall txHash : string,
       match crossShardTransactions this !! txHash with
       | Some entry =>
           exists entry',
             crossShardTransactions this' !! txHash = Some entry' /\ moved entry entry'
       | None => crossShardTransactions this' !! txHash = None
       end.

End ShardManager.

(* ===================================================================== *)
(** ** BlockValidation: the tests on a block's content *)
(* ===================================================================== *)

Module BlockContent.
Section WithCapabilities.
Context {caps : Capabilities}.

(** [validateMerkleRoot(block)] *)
Definition validateMerkleRoot (block : BlockData.t) : bool :=
  bool_decide
    (BlockData.merkleRoot block
     = Block.calculateMerkleRoot (BlockData.transactions block)).

End WithCapabilities.

(** The callback of [validateTransactionSequence] at [index]. *)
Definition sequenceTest (block : BlockData.t) (index : nat) (tx : TransactionData.t)
    : bool :=
  match index with
  | O => true
  | S previous =>
      (TransactionData.timestamp tx <=? BlockData.timestamp block)
      && match BlockData.transactions block !! previous with
         | Some before =>
             TransactionData.timestamp before <=? TransactionData.timestamp tx
         | None => false
         end
  end.

(** [every] with the index of each element, counted from [index]. *)
Fixpoint everyFrom {A} (test : nat -> A -> bool) (index : nat) (l : list A) : bool :=
  match l with
  | [] => true
  | x :: l' => test index x && everyFrom test (S index) l'
  end.

(** [validateTransactionSequence(block)] *)
Definition validateTransactionSequence (block : BlockData.t) : bool :=
  everyFrom (sequenceTest block) 0 (BlockData.transactions block).

End BlockContent.

(* ===================================================================== *)
(** ** Block.mineBlock *)
(* ===================================================================== *)

(** The key pair of the node and the signing primitive of KyberUtils; the
    random bytes a signature draws are an argument. *)
Record KeyPair := mkKeyPair {
  publicKey : string;
  privateKey : string
}.

Class Signer := {
  generateSignature : buffer -> string -> string -> Proof
}.

Module Mining.

(** ["0".repeat(n)] *)
Fixpoint zeros (n : nat) : string :=
  match n with
  | O => EmptyString
  | S n' => String "0"%char (zeros n')
  end.

(** The exit test of the mining loop, negated:
    [hash.substring(0, difficulty) === "0".repeat(difficulty)], for the
    difficulties [adjustDifficulty] returns (none is negative). *)
Definition meetsDifficulty (hash : string) (difficulty : Z) : bool :=
  bool_decide (substring 0 (Z.to_nat difficulty) hash = zeros (Z.to_nat difficulty)).

Section WithCapabilities.
Context {caps : Capabilities} {signer : Signer}.

(** [KyberUtils.generateBlockProof(blockHash, quantumKeyPair)] *)
Definition generateBlockProof (blockHash : string) (quantumKeyPair : KeyPair)
    (random32 : string) : Proof :=
  generateSignature (HexBuffer blockHash) (privateKey quantumKeyPair) random32.

(** The [do ... while] loop of [mineBlock], [fuel] iterations at most: each
    one increments the nonce, reads the clock and hashes; [clock k] is the
    reading of [Date.now()] in the iteration that tries nonce [k]. The result
    is the nonce, timestamp and hash the loop exits with. *)
Fixpoint mineLoop (fuel : nat) (clock : nat -> Z) (lastHash : string)
    (transactions : list TransactionData.t) (difficulty : Z) (nonce : nat)
    : option (nat * Z * string) :=
  match fuel with
  | O => None
  | S fuel' =>
      let nonce := S nonce in
      let timestamp := clock nonce in
      let hash := Block.hash timestamp lastHash transactions (Z.of_nat nonce) difficulty in
      if meetsDifficulty hash difficulty then Some (nonce, timestamp, hash)
      else mineLoop fuel' clock lastHash transactions difficulty nonce
  end.

(** [static mineBlock({ lastBlock, transactions, quantumKeyPair })];
    [clock 0] is the reading taken before the loop, [None] a loop that is
    still running after [fuel] iterations.  The proof attached is what the
    call of [generateBlockProof] resolves to; the properties proved of the
    mined block do not depend on it. *)
Definition mineBlock (fuel : nat) (clock : nat -> Z) (random32 : string)
    (lastBlock : BlockData.t) (transactions : list TransactionData.t)
    (quantumKeyPair : KeyPair) : option BlockData.t :=
  let timestamp := clock O in
  let lastHash := BlockData.hash lastBlock in
  let difficulty := BlockValidation.adjustDifficulty lastBlock timestamp in
  match mineLoop fuel clock lastHash transactions difficulty O with
  | None => None
  | Some (nonce, timestamp, hash) =>
      let quantumProof := generateBlockProof hash quantumKeyPair random32 in
      Some (Block.new timestamp lastHash hash transactions (Z.of_nat nonce) difficulty
                      (Some quantumProof))
  end.

End WithCapabilities.
End Mining.

(* ===================================================================== *)
(** ** Mempool *)
(* ===================================================================== *)

Module Mempool.

(** What the pool stores under a transaction hash. *)
Record Entry := mkEntry {
  transaction : TransactionData.t;
  timestamp : Z
}.

Record t := mk {
  transactions : JsMap.t string Entry;
  maxSize : Z;
  maxTransactionAge : Z
}.

(** The constructor. *)
Definition new : t :=
  {| transactions := []; maxSize := 5000; maxTransactionAge := 3600000 |}.

Definition setTransactions (f : JsMap.t string Entry -> JsMap.t string Entry)
    (this : t) : t :=
  {| transactions := f (transactions this);
     maxSize := maxSize this;
     maxTransactionAge := maxTransactionAge this |}.

(** The test of [removeOldTransactions] on one entry. *)
Definition isOld (this : t) (now : Z) (entry : Entry) : bool :=
  maxTransactionAge this <? now - timestamp entry.

(** [removeOldTransactions()]: the entries are visited in insertion order and
    the old ones deleted on the way. *)
Definition removeOldTransactions (now : Z) (this : t) : t :=
  setTransactions
    (fun all =>
       fold_left
         (fun remaining '(hash, entry) =>
            if isOld this now entry then JsMap.delete hash remaining else remaining)
         all all)
    this.

(** [getSize()] *)
Definition getSize (this : t) : Z := Z.of_nat (length (transactions this)).

(** [hasTransaction(transactionHash)] *)
Definition hasTransaction (transactionHash : string) (this : t) : bool :=
  JsMap.has transactionHash (transactions this).

(** [addTransaction(transaction)] *)
Definition addTransaction (transaction : TransactionData.t) (now : Z) (this : t)
    : bool * t :=
  let this :=
    if maxSize this <=? getSize this then removeOldTransactions now this else this in
  if negb (JsMap.has (TransactionData.hash transaction) (transactions this))
  then (true,
        setTransactions
          (JsMap.set (TransactionData.hash transaction)
                     {| transaction := transaction; timestamp := now |})
          this)
  else (false, this).

(** [removeTransaction(transactionHash)]: [Map.delete] tells whether the key
    was there. *)
Definition removeTransaction (transactionHash : string) (this : t) : bool * t :=
  (JsMap.has transactionHash (transactions this),
   setTransactions (JsMap.delete transactionHash) this).

(** [getTransaction(transactionHash)]; [None] is [null]. *)
Definition getTransaction (transactionHash : string) (this : t)
    : option TransactionData.t :=
  match JsMap.get transactionHash (transactions this) with
  | Some entry => Some (transaction entry)
  | None => None
  end.

(** [getMempoolTransactions()] *)
Definition getMempoolTransactions (this : t) : list TransactionData.t :=
  map transaction (JsMap.values (transactions this)).

(** [clear()] *)
Definition clear (this : t) : t := setTransactions (fun _ => []) this.

(** [removeConfirmedTransactions(confirmedTransactions)] *)
Definition removeConfirmedTransactions (confirmedTransactions : list TransactionData.t)
    (this : t) : t :=
  setTransactions
    (fun all =>
       fold_left (fun remaining tx => JsMap.delete (TransactionData.hash tx) remaining)
                 confirmedTransactions all)
    this.

(** [getTransactionsByTimeRange(startTime, endTime)] *)
Definition getTransactionsByTimeRange (startTime endTime : Z) (this : t)
    : list TransactionData.t :=
  map transaction
    (List.filter
       (fun entry => (startTime <=? timestamp entry) && (timestamp entry <=? endTime))
       (JsMap.values (transactions this))).

(** A call of one of the methods that write the pool. *)
Inductive operation :=
| AddTransaction (transaction : TransactionData.t) (now : Z)
| RemoveTransaction (transactionHash : string)
| Clear
| RemoveOldTransactions (now : Z)
| RemoveConfirmedTransactions (confirmedTransactions : list TransactionData.t).

Definition step (this : t) (o : operation) : t :=
  match o with
  | AddTransaction transaction now => snd (addTransaction transaction now this)
  | RemoveTransaction transactionHash => snd (removeTransaction transactionHash this)
  | Clear => clear this
  | RemoveOldTransactions now => removeOldTransactions now this
  | RemoveConfirmedTransactions confirmed => removeConfirmedTransactions confirmed this
  end.

Definition run (ops : list operation) (this : t) : t := fold_left step ops this.

(** Every entry is filed under the hash of its transaction, once. *)
Definition keyed (this : t) : Prop :=
  forall (hash : string) (entry : Entry),
    In (hash, entry) (transactions this) ->
    TransactionData.hash (transaction entry) = hash.

Definition invariant (this : t) : Prop :=
  JsMap.wf (transactions this) /\ keyed this.

End Mempool.

(* ===================================================================== *)
(** ** Blockchain: height, balance and the node's own pool *)
(* ===================================================================== *)

(** What [Blockchain.isValidTransaction] hands back from its call of
    [KyberUtils.verifySignature] on the transaction hash, passed as the string
    it is, as the condition of [addToMempool] reads it.  The call is not
    awaited there, so the properties of this module are proved for every
    reading: the value the promise resolves to as well as the constant
    [true] of a promise object tested for truth. *)
Class StringVerifier := {
  verifyString : string -> Proof -> option string -> bool
}.

Module Node.

(** The part of a [Blockchain] object these methods read and write: the
    chain and the [Map] of waiting transactions. *)
Record t := mk {
  chain : list BlockData.t;
  mempool : JsMap.t string TransactionData.t
}.

(** [getBlockHeight()] *)
Definition getBlockHeight (this : t) : Z := Z.of_nat (length (chain this)) - 1.

(** [this.chain.some(block => block.transactions.some(tx => tx.hash === hash))] *)
Definition isInChain (hash : string) (chain : list BlockData.t) : bool :=
  existsb
    (fun block =>
       existsb (fun tx => bool_decide (TransactionData.hash tx = hash))
               (BlockData.transactions block))
    chain.

Section WithVerifier.
Context {verifier : StringVerifier}.

(** [isValidTransaction(transaction)]; an empty hash and a null signature
    are falsy. *)
Definition isValidTransaction (transaction : TransactionData.t) (this : t) : bool :=
  if bool_decide (TransactionData.hash transaction = "") then false
  else
    match TransactionData.signature transaction with
    | None => false
    | Some signature =>
        if isInChain (TransactionData.hash transaction) (chain this) then false
        else verifyString (TransactionData.hash transaction) signature
                          (TransactionData.senderPublicKey transaction)
    end.

(** [addToMempool(transaction)] *)
Definition addToMempool (transaction : TransactionData.t) (this : t) : bool * t :=
  let txHash := TransactionData.hash transaction in
  if negb (JsMap.has txHash (mempool this)) && isValidTransaction transaction this
  then (true, {| chain := chain this;
                 mempool := JsMap.set txHash transaction (mempool this) |})
  else (false, this).

End WithVerifier.

(** [getMempoolTransactions()] *)
Definition getMempoolTransactions (this : t) : list TransactionData.t :=
  JsMap.values (mempool this).

(** [clearMempool(confirmedTransactions)] *)
Definition clearMempool (confirmedTransactions : list TransactionData.t) (this : t) : t :=
  {| chain := chain this;
     mempool :=
       fold_left (fun pool tx => JsMap.delete (TransactionData.hash tx) pool)
                 confirmedTransactions (mempool this) |}.

(** A call of one of the two methods that write the node's pool. *)
Inductive operation :=
| AddToMempool (transaction : TransactionData.t)
| ClearMempool (confirmedTransactions : list TransactionData.t).

Section Runs.
Context {verifier : StringVerifier}.

Definition step (this : t) (o : operation) : t :=
  match o with
  | AddToMempool transaction => snd (addToMempool transaction this)
  | ClearMempool confirmed => clearMempool confirmed this
  end.

Definition run (ops : list operation) (this : t) : t := fold_left step ops this.

End Runs.

(** Every waiting transaction is filed once, under its hash, and passed
    [isValidTransaction] against the chain. *)
Definition pooled {verifier : StringVerifier} (this : t) : Prop :=
  JsMap.wf (mempool this)
  /\ forall (hash : string) (transaction : TransactionData.t),
       In (hash, transaction) (mempool this) ->
       TransactionData.hash transaction = hash
       /\ isValidTransaction transaction this = true.

(** [getBalance(address)], in double precision. *)
Definition getBalance (address : string) (this : t) : float :=
  fold_left
    (fun balance block =>
       fold_left
         (fun balance tx =>
            let balance :=
              if bool_decide (TransactionData.recipient tx = address)
              then (balance + TransactionData.amount tx)%float else balance in
            if bool_decide (TransactionData.sender tx = address)
            then (balance - TransactionData.amount tx)%float else balance)
         (BlockData.transactions block) balance)
    (chain this) 0%float.

End Node.

(* ===================================================================== *)
(** ** ShardManager: the assignment of validators *)
(* ===================================================================== *)

Module ShardAssignment.
Import ShardManager.

(** [shard.validatorSet.add(validatorPublicKey)] *)
Definition addValidator (validatorPublicKey : string) (shard : Shard) : Shard :=
  {| id := id shard;
     chain := chain shard;
     state := state shard;
     pendingTransactions := pendingTransactions shard;
     lastProcessedBlock := lastProcessedBlock shard;
     validatorSet := {[validatorPublicKey]} ∪ validatorSet shard |}.

Definition setShardValidators (f : gmap string string -> gmap string string)
    (this : t) : t :=
  {| shards := shards this;
     shardValidators := f (shardValidators this);
     crossShardTransactions := crossShardTransactions this |}.

(** One step of the search for the shard with the fewest validators;
    [minValidators] is [None] while it is still [Infinity]. *)
Definition fewer (best : option string * option nat) (entry : string * Shard)
    : option string * option nat :=
  let '(targetShard, minValidators) := best in
  let '(shardId, shard) := entry in
  let smaller :=
    match minValidators with
    | None => true
    | Some least => bool_decide (size (validatorSet shard) < least)%nat
    end in
  if smaller then (Some shardId, Some (size (validatorSet shard)))
  else (targetShard, minValidators).

(** The loop over [this.shards.entries()]. *)
Definition fewest (entries : JsMap.t string Shard) : option string * option nat :=
  fold_left fewer entries (None, None).

Section WithCapabilities.
Context {caps : Capabilities}.

(** [assignValidatorToShard(validatorPublicKey, signature)]; a target that
    is [null] or the empty string is falsy. *)
Definition assignValidatorToShard (validatorPublicKey : string) (signature : Proof)
    : M string :=
  fun this =>
    let isValid :=
      KyberUtils.verifySignature (Utf8Buffer validatorPublicKey)
        (Some signature) (Some validatorPublicKey) in
    if negb isValid then (Throw "Invalid validator signature", this)
    else
      match fst (fewest (shards this)) with
      | None => (Throw "No available shards", this)
      | Some targetShard =>
          if bool_decide (targetShard = "") then (Throw "No available shards", this)
          else
            bind (updateShard (Some targetShard) (addValidator validatorPublicKey))
                 (fun _ =>
                    bind (fun this' =>
                            (Return tt,
                             setShardValidators (insert validatorPublicKey targetShard)
                                                this'))
                         (fun _ => ret targetShard))
                 this
      end.

End WithCapabilities.

(** [getValidatorShard(validatorPublicKey)] *)
Definition getValidatorShard (validatorPublicKey : string) (this : t) : option string :=
  shardValidators this !! validatorPublicKey.

(** The validator set of a shard, empty for an unknown id. *)
Definition validatorsOf (shardId : string) (this : t) : gset string :=
  match JsMap.get shardId (shards this) with
  | Some shard => validatorSet shard
  | None => ∅
  end.

(** Every validator is a member of the shard recorded for it. *)
Definition recorded (this : t) : Prop :=
  forall validatorPublicKey shardId,
    getValidatorShard validatorPublicKey this = Some shardId ->
    validatorPublicKey ∈ validatorsOf shardId this.

(** The validator sets of any two shards differ in size by one at most. *)
Definition balanced (this : t) : Prop :=
  forall id1 id2 shard1 shard2,
    JsMap.get id1 (shards this) = Some shard1 ->
    JsMap.get id2 (shards this) = Some shard2 ->
    (size (validatorSet shard1) <= size (validatorSet shard2) + 1)%nat.

(** A call of one of the manager's writing methods, with what it reads
    from the clock. *)
Inductive operation :=
| InitializeShards (now : Z)
| AssignValidatorToShard (validatorPublicKey : string) (signature : Proof)
| ProcessTransaction (transaction : TransactionData.t) (now : Z)
| FinalizeBlock (shardId : string) (block : BlockData.t)
                (validatorSignatures : list (string * Proof)) (now : Z).

Section Runs.
Context {caps : Capabilities}.

(** The state a call leaves, whether it returned or threw. *)
Definition step (this : t) (o : operation) : t :=
  match o with
  | InitializeShards now => snd (initializeShards now this)
  | AssignValidatorToShard validatorPublicKey signature =>
      snd (assignValidatorToShard validatorPublicKey signature this)
  | ProcessTransaction transaction now => snd (processTransaction transaction now this)
  | FinalizeBlock shardId block validatorSignatures now =>
      snd (finalizeBlock shardId block validatorSignatures now this)
  end.

Definition run (ops : list operation) (this : t) : t := fold_left step ops this.

End Runs.

End ShardAssignment.

(* ===================================================================== *)
(** ** Sample data: one instance of the capabilities and a few runs *)
(* ===================================================================== *)

Module Sample.

(** A stand-in for the external libraries: the digest of a block is its
    predecessor's hash preceded by a mark, a proof verifies under the key
    that equals its signature field, an address is routed by its length. *)
Definition caps : Capabilities :=
  {| blockDigest := fun _ lastHash _ _ _ => "#" +:+ lastHash;
     txDigest := fun sender recipient _ _ _ _ => sender +:+ ">" +:+ recipient;
     merkleDigest := fun _ => "root";
     kyberVerify := fun _ proof publicKey => bool_decide (signature proof = publicKey);
     jsonSize := fun _ => 512;
     addressDigest := fun address => N.of_nat (String.length address);
     blake3 := fun data => "#" +:+ data |}.

(** A storage engine that keeps the last chain saved and never fails. *)
Definition store : Storage :=
  {| DB := list BlockData.t; saveChain := fun _ chain => (chain, true) |}.

(** The collaborator of the test suite, an object whose
    [distributeValidatorReward] is a mock that records its calls. *)
Definition mock : Collaborator :=
  {| Ledger := list (string * float);
     distributeValidatorReward := fun address amount calls =>
       (Return tt, (calls ++ [(address, amount)])%list) |}.

(** An instance of the repository's Blockchain class as collaborator: the
    class defines no [distributeValidatorReward]. *)
Definition chainState : Collaborator :=
  {| Ledger := unit;
     distributeValidatorReward := fun _ _ state =>
       (Throw "TypeError: this.blockchain.distributeValidatorReward is not a function",
        state) |}.

Definition random1 : string := "aaaaaaaaaaaaaaaaaaaaaaaaaaaaaaaa".
Definition random2 : string := "bbbbbbbbbbbbbbbbbbbbbbbbbbbbbbbb".

Definition minerProof : Proof := mkProof "miner" "".

(** A block on top of [lastBlock], stamped [timestamp], signed by "miner". *)
Definition nextBlock (lastBlock : BlockData.t) (timestamp : Z) : BlockData.t :=
  {| BlockData.timestamp := timestamp;
     BlockData.lastHash := BlockData.hash lastBlock;
     BlockData.hash :=
       Block.hash (caps := caps) timestamp (BlockData.hash lastBlock) [] 1
                  (BlockData.difficulty lastBlock);
     BlockData.transactions := [];
     BlockData.nonce := 1;
     BlockData.difficulty := BlockData.difficulty lastBlock;
     BlockData.quantumProof := Some minerProof;
     BlockData.merkleRoot := None;
     BlockData.minerPublicKey := Some "miner" |}.

Fixpoint chainFrom (lastBlock : BlockData.t) (timestamps : list Z) : list BlockData.t :=
  match timestamps with
  | [] => []
  | timestamp :: rest =>
      let block := nextBlock lastBlock timestamp in
      block :: chainFrom block rest
  end.

Definition genesis1 : BlockData.t := Block.genesis (caps := caps) random1.

(** Eleven blocks: the first block comes 100 s after genesis, the others 10 s
    apart. *)
Definition driftChain : list BlockData.t :=
  genesis1 ::
  chainFrom genesis1
    (map (fun k => 1683900000000 + 100000 + 10000 * k) [0; 1; 2; 3; 4; 5; 6; 7; 8; 9]).

(** A block like [nextBlock], one unit of difficulty lower. *)
Definition easierBlock (lastBlock : BlockData.t) (timestamp : Z) : BlockData.t :=
  {| BlockData.timestamp := timestamp;
     BlockData.lastHash := BlockData.hash lastBlock;
     BlockData.hash :=
       Block.hash (caps := caps) timestamp (BlockData.hash lastBlock) [] 1
                  (BlockData.difficulty lastBlock - 1);
     BlockData.transactions := [];
     BlockData.nonce := 1;
     BlockData.difficulty := BlockData.difficulty lastBlock - 1;
     BlockData.quantumProof := Some minerProof;
     BlockData.merkleRoot := None;
     BlockData.minerPublicKey := Some "miner" |}.

(** The record the test suite expects a registration to store. *)
Definition validator (address : string) (stake : Z) (publicKey : string)
    : ConsensusManager.Validator :=
  ConsensusManager.validatorInfo address stake publicKey 1700000000000
                                (mkProof publicKey "").

(** A registry holding the five validators of the test suite. *)
Definition registry : ConsensusManager.t :=
  {| ConsensusManager.validators :=
       map (fun i =>
              ("validator-" +:+ pretty i,
               validator ("validator-" +:+ pretty i) (1000000 + i * 100000)
                         ("key-" +:+ pretty i)))
           [0; 1; 2; 3; 4];
     ConsensusManager.currentEpoch := 0;
     ConsensusManager.epochBlocks := [];
     ConsensusManager.minStake := config.consensus.validatorStake |}.

(** The registry with ten, five and three blocks recorded for epoch 0 and
    two blocks for epoch 7. *)
Definition epochRegistry : ConsensusManager.t :=
  {| ConsensusManager.validators := ConsensusManager.validators registry;
     ConsensusManager.currentEpoch := 0;
     ConsensusManager.epochBlocks :=
       [(0, [("validator-0", repeat genesis1 10);
             ("validator-1", repeat genesis1 5);
             ("validator-2", repeat genesis1 3)]);
        (7, [("validator-0", repeat genesis1 2)])];
     ConsensusManager.minStake := ConsensusManager.minStake registry |}.

(** One validator staking 1150000, with two blocks recorded for epoch 0. *)
Definition stake115 : ConsensusManager.t :=
  {| ConsensusManager.validators :=
       [("validator-a", validator "validator-a" 1150000 "key-a")];
     ConsensusManager.currentEpoch := 0;
     ConsensusManager.epochBlocks := [(0, [("validator-a", [genesis1; genesis1])])];
     ConsensusManager.minStake := config.consensus.validatorStake |}.

(** A manager holding sixteen empty shards, "shard-0" to "shard-15". *)
Definition sharded : ShardManager.t :=
  {| ShardManager.shards :=
       map (fun i =>
              ("shard-" +:+ pretty i,
               {| ShardManager.id := "shard-" +:+ pretty i;
                  ShardManager.chain := [];
                  ShardManager.state := ∅;
                  ShardManager.pendingTransactions := ∅;
                  ShardManager.lastProcessedBlock := None;
                  ShardManager.validatorSet := ∅ |}))
           [0; 1; 2; 3; 4; 5; 6; 7; 8; 9; 10; 11; 12; 13; 14; 15];
     ShardManager.shardValidators := ∅;
     ShardManager.crossShardTransactions := ∅ |}.

(** A transfer from "alice" (routed to shard 5) to "bob" (shard 3). *)
Definition transfer : TransactionData.t :=
  Transaction.new (caps := caps) "alice" "bob" 5 1700000000001 ""
                  (Some "alice-key") (Some (mkProof "alice-key" "")) 0.

(** A block of a shard chain listing the given transactions. *)
Definition shardBlock (hash : string) (transactions : list TransactionData.t)
    : BlockData.t :=
  Block.new (caps := caps) 1700000000002 "" hash transactions 1 4 (Some minerProof).

(** Four validators signing a block. *)
Definition quorum : list (string * Proof) :=
  map (fun key => (key, mkProof key "")) ["v1"; "v2"; "v3"; "v4"].

(** The manager with the transfer on record as the code means a submission
    to leave it: tracked as pending, and waiting in the pending tables of
    shard 5 and shard 3. *)
Definition waiting (shardId : string) (shard : ShardManager.Shard) : ShardManager.Shard :=
  if bool_decide (shardId = "shard-5") || bool_decide (shardId = "shard-3")
  then ShardManager.setPending (insert (TransactionData.hash transfer) transfer) shard
  else shard.

Definition submitted : ShardManager.t :=
  {| ShardManager.shards :=
       map (fun entry => (fst entry, waiting (fst entry) (snd entry)))
           (ShardManager.shards sharded);
     ShardManager.shardValidators := ∅;
     ShardManager.crossShardTransactions :=
       {[ TransactionData.hash transfer :=
            {| ShardManager.transaction := transfer;
               ShardManager.sourceShard := Some "shard-5";
               ShardManager.targetShard := Some "shard-3";
               ShardManager.proof := mkProof "" "";
               ShardManager.status := ShardManager.pending;
               ShardManager.timestamp := 1700000000001;
               ShardManager.finalizationProof := None;
               ShardManager.completedAt := None |} ]} |}.

(** Shard 5 finalizes a block that lists the transfer. *)
Definition afterFirstBlock : ShardManager.t :=
  snd (ShardManager.finalizeBlock (caps := caps) "shard-5"
         (shardBlock "block-a" [transfer]) quorum 1700000000003 submitted).

(** Difficulties 4, 3, 2: each link moves by one. *)
Definition easyBlock3 : BlockData.t := easierBlock genesis1 1683900010000.
Definition easyBlock : BlockData.t := easierBlock easyBlock3 1683900020000.

End Sample.

(* ===================================================================== *)
(** ** Sample data for mining, the pools and the assignment of validators *)
(* ===================================================================== *)

Module Scenario.

(** A digest that meets any difficulty at nonce 3 and none before. *)
Definition miningCaps : Capabilities :=
  {| blockDigest := fun _ _ _ nonce _ =>
       if nonce =? 3 then "000000000000000000000000beef" else "1234";
     txDigest := txDigest (Capabilities := Sample.caps);
     merkleDigest := merkleDigest (Capabilities := Sample.caps);
     kyberVerify := kyberVerify (Capabilities := Sample.caps);
     jsonSize := jsonSize (Capabilities := Sample.caps);
     addressDigest := addressDigest (Capabilities := Sample.caps);
     blake3 := blake3 (Capabilities := Sample.caps) |}.

Definition signer : Signer :=
  {| generateSignature := fun _ privateKey random32 => mkProof privateKey random32 |}.

Definition keyPair : KeyPair := mkKeyPair "miner" "miner-secret".

(** A clock that advances one second per reading, starting 30 s after the
    genesis block. *)
Definition clock (k : nat) : Z := 1683900000000 + 30000 + 1000 * Z.of_nat k.

(** A second transfer, and a pool that received both, 40 minutes apart. *)
Definition payment : TransactionData.t :=
  Transaction.new (caps := Sample.caps) "bob" "carol" 2 1700000000500 ""
                  (Some "bob-key") (Some (mkProof "bob-key" "")) 1.

Definition pool : Mempool.t :=
  Mempool.run [Mempool.AddTransaction Sample.transfer 1700000001000;
               Mempool.AddTransaction payment 1700002401000]
              Mempool.new.

(** The same pool with room for two entries only. *)
Definition smallPool : Mempool.t :=
  {| Mempool.transactions := Mempool.transactions pool;
     Mempool.maxSize := 2;
     Mempool.maxTransactionAge := Mempool.maxTransactionAge pool |}.

Definition deposit : TransactionData.t :=
  Transaction.new (caps := Sample.caps) "carol" "dave" 1 1700002500000 ""
                  (Some "carol-key") (Some (mkProof "carol-key" "")) 0.

(** A verifier that accepts a proof signed with the sender's key. *)
Definition verifier : StringVerifier :=
  {| verifyString := fun _ proof publicKey =>
       bool_decide (publicKey = Some (signature proof)) |}.

(** A node whose chain holds the first transfer and whose pool holds the
    second. *)
Definition confirmedBlock : BlockData.t :=
  Block.new (caps := Sample.caps) 1700000002000 (BlockData.hash Sample.genesis1)
            "block-1" [Sample.transfer] 1 4 (Some Sample.minerProof).

Definition node : Node.t :=
  Node.run (verifier := verifier) [Node.AddToMempool payment]
           {| Node.chain := [Sample.genesis1; confirmedBlock]; Node.mempool := [] |}.

End Scenario.

(** Boolean tests, read back as propositions. *)
Ltac split_andb :=
  repeat match goal with
         | H : _ && _ = true |- _ => apply andb_prop in H; destruct H
         | H : bool_decide _ = true |- _ => apply bool_decide_eq_true in H
         | H : negb _ = false |- _ => apply negb_false_iff in H
         | H : negb _ = true |- _ => apply negb_true_iff in H
         end.

(* ===================================================================== *)
(** * Properties *)
(* ===================================================================== *)

Lemma json_list_eqb_nil {A} (item_eqb : A -> A -> bool) (xs : list A) :
  json_list_eqb item_eqb xs [] = true -> xs = [].
Proof. destruct xs; [reflexivity | discriminate]. Qed.

(* ===================================================================== *)
(** ** Chain and block validation *)
(* ===================================================================== *)

Module ChainProperties.
Import BlockData BlockValidation Blockchain.

Section WithCapabilities.
Context {caps : Capabilities}.

(** What the comparison with the genesis text forces on a first block. *)
Lemma json_eqb_genesis (first : BlockData.t) (random32 : string) :
  Block.json_eqb first (Block.genesis random32) = true ->
  timestamp first = 1683900000000 /\ lastHash first = "-----"
  /\ hash first = "genesis-hash" /\ transactions first = []
  /\ nonce first = 0 /\ difficulty first = 4
  /\ quantumProof first = Some (KyberUtils.generateInitialQuantumProof random32)
  /\ merkleRoot first = None.
Proof.
  unfold Block.json_eqb, Block.genesis, Block.new; cbn [timestamp lastHash hash
    transactions nonce difficulty quantumProof merkleRoot Block.calculateMerkleRoot].
  intros E. split_andb.
  match goal with
  | Hl : json_list_eqb _ _ [] = true |- _ => apply json_list_eqb_nil in Hl
  end.
  repeat split; assumption.
Qed.

(** [isValidBlock] never answers [true]: a block without a proof fails the
    structure test, and for any other block the hash test throws. *)
Lemma isValidBlock_cases (block : BlockData.t) (lastBlock : option BlockData.t) :
  (quantumProof block = None /\ isValidBlock block lastBlock = Return false)
  \/ (quantumProof block <> None
      /\ isValidBlock block lastBlock = Throw "ReferenceError: Block is not defined").
Proof.
  unfold isValidBlock, validateBlockStructure.
  destruct (quantumProof block); [right | left]; split; try reflexivity; discriminate.
Qed.

(** So the loop of [isValidChain] answers [true] only when it has no block
    to look at. *)
Lemma validLinks_true (rest : list BlockData.t) (lastBlock : BlockData.t) :
  validLinks lastBlock rest = Return true <-> rest = [].
Proof.
  split; [|now intros ->].
  destruct rest as [|block rest]; [reflexivity|]. cbn [validLinks].
  destruct (isValidBlock_cases block (Some lastBlock)) as [[_ ->]|[_ ->]]; discriminate.
Qed.

Lemma withinDeviation_spec (lastBlock lastAdjustmentBlock : BlockData.t) :
  withinDeviation lastBlock lastAdjustmentBlock = true <->
  Z.abs (timestamp lastBlock - timestamp lastAdjustmentBlock - 100000) <= 25000.
Proof.
  unfold withinDeviation, BLOCK_GENERATION_INTERVAL, DIFFICULTY_ADJUSTMENT_INTERVAL.
  change (10000 * 10) with 100000. change (100000 / 4) with 25000.
  apply Z.leb_le.
Qed.

(** From ten blocks on, the test reads the last block and the block nine
    positions before it; both reads succeed. *)
Lemma validateDifficultyAdjustment_spec (blocks : list BlockData.t) :
  validateDifficultyAdjustment blocks = true ->
  (10 <= length blocks)%nat ->
  exists lastBlock lastAdjustmentBlock,
    blocks !! (length blocks - 1)%nat = Some lastBlock
    /\ blocks !! (length blocks - 10)%nat = Some lastAdjustmentBlock
    /\ Z.abs (timestamp lastBlock - timestamp lastAdjustmentBlock - 100000) <= 25000.
Proof.
  unfold validateDifficultyAdjustment, DIFFICULTY_ADJUSTMENT_INTERVAL.
  intros Hv Hlen.
  destruct (Z.ltb_spec (Z.of_nat (length blocks)) 10) as [Hlt|_]; [lia|].
  replace (Z.to_nat (Z.of_nat (length blocks) - 1)) with (length blocks - 1)%nat in Hv by lia.
  replace (Z.to_nat (Z.of_nat (length blocks) - 10)) with (length blocks - 10)%nat in Hv by lia.
  destruct (blocks !! (length blocks - 1)%nat) as [lastBlock|] eqn:E1; [|discriminate].
  destruct (blocks !! (length blocks - 10)%nat) as [adj|] eqn:E2; [|discriminate].
  exists lastBlock, adj. repeat split. now apply withinDeviation_spec.
Qed.

(** [isValidChain] answers [true] exactly for a chain of one block that
    serialises to the same text as the genesis block built during the
    call. *)
Lemma isValidChain_true (random32 : string) (chain : list BlockData.t) :
  isValidChain random32 chain = Return true
  <-> exists first,
        chain = [first] /\ Block.json_eqb first (Block.genesis random32) = true.
Proof.
  unfold isValidChain. destruct chain as [|first rest].
  { split; [discriminate | intros (first & [=] & _)]. }
  destruct (Block.json_eqb first (Block.genesis random32)) eqn:Eg; cbn [negb].
  2:{ split; [discriminate | intros (f & [= <- _] & Ef); congruence]. }
  destruct (validLinks first rest) as [linked|e] eqn:El.
  2:{ split; [discriminate|]. intros (f & [= <- ->] & _). discriminate. }
  destruct linked; cbn [negb].
  - apply validLinks_true in El. subst rest. split; [|reflexivity].
    intros _. now exists first.
  - split; [discriminate|]. intros (f & [= <- ->] & _). discriminate.
Qed.


End WithCapabilities.

(** The drift test itself reads one window only: on a chain of eleven
    blocks whose first ten span 180000 ms and whose last ten span 90000 ms
    it answers [true].  [isValidChain] never gets that far on such a chain:
    validating the second block throws. *)
Lemma validateDifficultyAdjustment_last_window_only :
  validateDifficultyAdjustment Sample.driftChain = true
  /\ (exists first tenth,
        Sample.driftChain !! 0%nat = Some first
        /\ Sample.driftChain !! 9%nat = Some tenth
        /\ timestamp tenth - timestamp first = 180000
        /\ withinDeviation tenth first = false)
  /\ isValidChain (caps := Sample.caps) Sample.random1 Sample.driftChain
     = Throw "ReferenceError: Block is not defined".
Proof.
  split; [vm_compute; reflexivity|]. split; [|vm_compute; reflexivity].
  eexists; eexists.
  split; [reflexivity|]. split; [reflexivity|].
  split; vm_compute; reflexivity.
Qed.


(** Nothing bounds the difficulty of a block from below: the link test
    passes along the difficulties 4, 3, 2. *)
Example easyChain_links_valid :
  validateBlockChain Sample.easyBlock3 (Some Sample.genesis1) = true
  /\ validateBlockChain Sample.easyBlock (Some Sample.easyBlock3) = true
  /\ difficulty Sample.easyBlock = 2.
Proof. repeat split; vm_compute; reflexivity. Qed.

(** *** The genesis block *)

(** The hexadecimal encoding can be read back, so distinct buffers have
    distinct encodings. *)
Lemma hex_decode_encode (s : string) : Hex.decode (Hex.encode s) = s.
Proof.
  induction s as [|c s IH]; [reflexivity|].
  cbn [Hex.encode Hex.decode]. rewrite IH. f_equal.
  destruct c as [[] [] [] [] [] [] [] []]; vm_compute; reflexivity.
Qed.

Lemma hex_encode_inj (s1 s2 : string) : Hex.encode s1 = Hex.encode s2 -> s1 = s2.
Proof.
  intros E. rewrite <- (hex_decode_encode s1), <- (hex_decode_encode s2).
  now rewrite E.
Qed.

Section Genesis.
Context {caps : Capabilities}.

(** Two calls of [Block.genesis()] serialise to the same text only if they
    drew the same random bytes. *)
Lemma genesis_json_eqb_iff (r1 r2 : string) :
  Block.json_eqb (Block.genesis r1) (Block.genesis r2) = true <-> r1 = r2.
Proof.
  split.
  - intros E. apply json_eqb_genesis in E.
    destruct E as (_ & _ & _ & _ & _ & _ & Hq & _).
    cbn in Hq. injection Hq as Hq. now apply hex_encode_inj.
  - intros ->. unfold Block.json_eqb.
    repeat (apply andb_true_intro; split); try (apply bool_decide_eq_true; reflexivity).
    reflexivity.
Qed.

(** C9 (the code at two draws of the random bytes). The sentinel and the
    empty transaction list are fixed, but the block is not: its proof
    carries 32 fresh random bytes, so two runs that draw different bytes
    build blocks whose serialisations differ, and a chain holding one run's
    genesis block is rejected when the check draws other bytes. *)
Theorem genesis_not_reproducible :
  (forall random32 : string,
      lastHash (Block.genesis random32) = "-----"
      /\ transactions (Block.genesis random32) = [])
  /\ Block.genesis Sample.random1 <> Block.genesis Sample.random2
  /\ Block.json_eqb (Block.genesis Sample.random1) (Block.genesis Sample.random2) = false
  /\ isValidChain Sample.random2 [Block.genesis Sample.random1] = Return false.
Proof.
  assert (Hne : Block.json_eqb (Block.genesis Sample.random1)
                               (Block.genesis Sample.random2) = false).
  { apply not_true_is_false. intros E. apply genesis_json_eqb_iff in E. discriminate E. }
  split; [intros; split; reflexivity|].
  split; [|split].
  - intros E. rewrite E in Hne.
    assert (Ht : Block.json_eqb (Block.genesis Sample.random2)
                                (Block.genesis Sample.random2) = true)
      by now apply genesis_json_eqb_iff.
    congruence.
  - exact Hne.
  - unfold isValidChain. rewrite Hne. reflexivity.
Qed.

End Genesis.

(** *** Difficulty adjustment *)

(** C4 (as amended). For a previous block whose difficulty lies between
    MIN_DIFFICULTY and MAX_DIFFICULTY, [adjustDifficulty] lowers the
    difficulty by one (not below the minimum) when more than twice the block
    interval has elapsed, raises it by one (not above the maximum) when less
    than half the interval has elapsed, and leaves it unchanged otherwise;
    the result is then within one of the previous difficulty. *)
Theorem adjustDifficulty_spec (originalBlock : BlockData.t) (newTimestamp : Z) :
  MIN_DIFFICULTY <= difficulty originalBlock <= MAX_DIFFICULTY ->
  let elapsed := newTimestamp - timestamp originalBlock in
  let result := adjustDifficulty originalBlock newTimestamp in
  (BLOCK_GENERATION_INTERVAL * 2 < elapsed ->
     result = Z.max (difficulty originalBlock - 1) MIN_DIFFICULTY)
  /\ (elapsed < BLOCK_GENERATION_INTERVAL / 2 ->
     result = Z.min (difficulty originalBlock + 1) MAX_DIFFICULTY)
  /\ (BLOCK_GENERATION_INTERVAL / 2 <= elapsed <= BLOCK_GENERATION_INTERVAL * 2 ->
     result = difficulty originalBlock)
  /\ Z.abs (result - difficulty originalBlock) <= 1.
Proof.
  unfold adjustDifficulty, MIN_DIFFICULTY, MAX_DIFFICULTY, BLOCK_GENERATION_INTERVAL.
  intros Hrange. cbv zeta.
  change (10000 / 2) with 5000. change (10000 * 2) with 20000.
  destruct (Z.ltb_spec (difficulty originalBlock) 4); [lia|].
  destruct (Z.ltb_spec 24 (difficulty originalBlock)); [lia|].
  destruct (Z.ltb_spec 20000 (newTimestamp - timestamp originalBlock));
    [repeat split; intros; lia|].
  destruct (Z.ltb_spec (newTimestamp - timestamp originalBlock) 5000);
    repeat split; intros; lia.
Qed.

(** Outside that range the elapsed time is not looked at: the result is
    the bound that was crossed. *)
Lemma adjustDifficulty_clamps (originalBlock : BlockData.t) (newTimestamp : Z) :
  (difficulty originalBlock < MIN_DIFFICULTY ->
     adjustDifficulty originalBlock newTimestamp = MIN_DIFFICULTY)
  /\ (MAX_DIFFICULTY < difficulty originalBlock ->
     adjustDifficulty originalBlock newTimestamp = MAX_DIFFICULTY).
Proof.
  unfold adjustDifficulty, MIN_DIFFICULTY, MAX_DIFFICULTY.
  split; intros Hd.
  - destruct (Z.ltb_spec (difficulty originalBlock) 4); [reflexivity | lia].
  - destruct (Z.ltb_spec (difficulty originalBlock) 4); [lia|].
    destruct (Z.ltb_spec 24 (difficulty originalBlock)); [reflexivity | lia].
Qed.

(** C4 (as stated) fails on a block of difficulty 2: ten seconds later,
    neither too slow nor too fast, the result is 4, two away from 2. *)
Lemma adjustDifficulty_jumps_from_below :
  let newTimestamp := timestamp Sample.easyBlock + 10000 in
  difficulty Sample.easyBlock = 2
  /\ newTimestamp - timestamp Sample.easyBlock = BLOCK_GENERATION_INTERVAL
  /\ adjustDifficulty Sample.easyBlock newTimestamp = 4
  /\ adjustDifficulty Sample.easyBlock newTimestamp <> difficulty Sample.easyBlock
  /\ Z.abs (adjustDifficulty Sample.easyBlock newTimestamp
            - difficulty Sample.easyBlock) = 2.
Proof. vm_compute. repeat split; discriminate. Qed.

Lemma adjustDifficulty_spec_witness :
  MIN_DIFFICULTY <= difficulty Sample.genesis1 <= MAX_DIFFICULTY
  /\ adjustDifficulty Sample.genesis1 (timestamp Sample.genesis1 + 30000) = 4
  /\ adjustDifficulty Sample.genesis1 (timestamp Sample.genesis1 + 1000) = 5
  /\ adjustDifficulty Sample.genesis1 (timestamp Sample.genesis1 + 10000) = 4.
Proof.
  assert (Hr : MIN_DIFFICULTY <= difficulty Sample.genesis1 <= MAX_DIFFICULTY)
    by (vm_compute; split; discriminate).
  split; [exact Hr|].
  pose proof (adjustDifficulty_spec Sample.genesis1
                (timestamp Sample.genesis1 + 30000) Hr) as (Hslow & _).
  pose proof (adjustDifficulty_spec Sample.genesis1
                (timestamp Sample.genesis1 + 1000) Hr) as (_ & Hfast & _).
  pose proof (adjustDifficulty_spec Sample.genesis1
                (timestamp Sample.genesis1 + 10000) Hr) as (_ & _ & Hsame & _).
  split; [|split].
  - rewrite Hslow; [reflexivity | vm_compute; reflexivity].
  - rewrite Hfast; [reflexivity | vm_compute; reflexivity].
  - rewrite Hsame; [reflexivity | vm_compute; split; discriminate].
Defined.

(** *** Chain replacement and lookup by height *)

Section Store.
Context {caps : Capabilities} {store : Storage}.

(** C2. [replaceChain] throws the not-longer error when the candidate is not
    strictly longer, throws the invalid error when it is longer but
    [isValidChain] rejects it, and in both cases leaves the whole state as it
    was; whenever the call does not return [true] the chain is the one held
    before, and the chain is swapped only for a longer candidate that passed
    [isValidChain].  What [isValidChain] throws on a longer candidate,
    [replaceChain] throws too, the state untouched. *)
Theorem replaceChain_atomic (random32 : string) (newChain : list BlockData.t)
    (this : Blockchain.t) :
  let result := fst (replaceChain random32 newChain this) in
  let this' := snd (replaceChain random32 newChain this) in
  ((length newChain <= length (chain this))%nat ->
     result = Throw "Received chain is not longer than current chain"
     /\ this' = this)
  /\ ((length (chain this) < length newChain)%nat ->
      isValidChain random32 newChain = Return false ->
      result = Throw "Received chain is invalid" /\ this' = this)
  /\ (result <> Return true -> chain this' = chain this)
  /\ (result = Return true ->
      (length (chain this) < length newChain)%nat
      /\ isValidChain random32 newChain = Return true
      /\ chain this' = newChain)
  /\ (forall e,
        (length (chain this) < length newChain)%nat ->
        isValidChain random32 newChain = Throw e ->
        result = Throw e /\ this' = this).
Proof.
  cbv zeta. unfold replaceChain.
  destruct (Z.leb_spec (Z.of_nat (length newChain)) (Z.of_nat (length (chain this))))
    as [Hle|Hgt].
  - cbn [fst snd]. repeat split; intros; try lia; try discriminate.
  - destruct (isValidChain random32 newChain) as [[|]|e] eqn:Ev; cbn [negb].
    + destruct (saveChain (db this) newChain) as [db' saved].
      destruct saved; cbn [fst snd chain].
      * repeat split; intros; try lia; try discriminate; try congruence.
      * repeat split; intros; try lia; try discriminate.
    + cbn [fst snd]. repeat split; intros; try lia; try discriminate.
    + cbn [fst snd]. repeat split; intros; try lia; try discriminate; congruence.
Qed.

(** C10 (as amended). [getBlockByHeight] never throws.  For an integer
    height it answers [null] below 0 and from the chain length on, and the
    block stored at that index otherwise.  For NaN, and for a height strictly
    between two integers of that range, it answers [undefined]; such a height
    outside the range, and an infinite one, gets [null]. *)
Theorem getBlockByHeight_total (this : Blockchain.t) :
  (forall z : Z,
      z < 0 \/ Z.of_nat (length (chain this)) <= z ->
      getBlockByHeight (JsNum.Int z) this = Null)
  /\ (forall z : Z,
        0 <= z < Z.of_nat (length (chain this)) ->
        exists block,
          chain this !! Z.to_nat z = Some block
          /\ getBlockByHeight (JsNum.Int z) this = Found block)
  /\ getBlockByHeight JsNum.NaN this = Undefined
  /\ (forall below : Z,
        getBlockByHeight (JsNum.NonInt below) this
        = if (below <? 0) || (Z.of_nat (length (chain this)) <=? below)
          then Null else Undefined)
  /\ (forall negative : bool,
        getBlockByHeight (JsNum.Infinite negative) this = Null).
Proof.
  unfold getBlockByHeight. split; [|split; [|split; [|split]]].
  - intros z Hout. cbn [JsNum.ltZ JsNum.geZ].
    destruct (Z.ltb_spec z 0); [reflexivity|].
    destruct (Z.leb_spec (Z.of_nat (length (chain this))) z); [reflexivity | lia].
  - intros z Hin. cbn [JsNum.ltZ JsNum.geZ JsNum.index].
    destruct (Z.ltb_spec z 0); [lia|].
    destruct (Z.leb_spec (Z.of_nat (length (chain this))) z); [lia|]. cbn [orb].
    destruct (Z.leb_spec 0 z); [|lia].
    destruct (lookup_lt_is_Some_2 (chain this) (Z.to_nat z)) as [block Hb]; [lia|].
    rewrite Hb. now exists block.
  - reflexivity.
  - intros below. cbn [JsNum.ltZ JsNum.geZ JsNum.index].
    now destruct (_ || _).
  - intros []; reflexivity.
Qed.

End Store.

(** C10 (as stated) fails: NaN, which the API passes on for a height that
    does not parse, is neither below 0 nor at or above the chain length, and
    the answer is [undefined], not a block of the chain. *)
Lemma getBlockByHeight_NaN_undefined :
  let this := Blockchain.mk (store := Sample.store) [Sample.genesis1] [] in
  JsNum.ltZ JsNum.NaN 0 = false
  /\ JsNum.geZ JsNum.NaN (Z.of_nat (length (chain this))) = false
  /\ getBlockByHeight JsNum.NaN this = Undefined
  /\ getBlockByHeight JsNum.NaN this <> Null
  /\ forall block, getBlockByHeight JsNum.NaN this <> Found block.
Proof. cbv zeta. repeat split; discriminate. Qed.

(** The rejections and the swap, on the sample chains: a longer chain of
    several blocks makes [isValidChain] throw, and only a chain of the
    genesis block alone can replace an empty one. *)
Example replaceChain_runs :
  let this := Blockchain.mk (store := Sample.store) [Sample.genesis1] [] in
  let empty := Blockchain.mk (store := Sample.store) [] [] in
  replaceChain (caps := Sample.caps) Sample.random1 [Sample.genesis1] this
    = (Throw "Received chain is not longer than current chain", this)
  /\ replaceChain (caps := Sample.caps) Sample.random1 Sample.driftChain this
    = (Throw "ReferenceError: Block is not defined", this)
  /\ replaceChain (caps := Sample.caps) Sample.random2 [Sample.genesis1] empty
    = (Throw "Received chain is invalid", empty)
  /\ replaceChain (caps := Sample.caps) Sample.random1 [Sample.genesis1] empty
    = (Return true,
       Blockchain.mk (store := Sample.store) [Sample.genesis1] [Sample.genesis1])
  /\ getBlockByHeight (JsNum.Int 0) this = Found Sample.genesis1
  /\ getBlockByHeight (JsNum.Int 1) this = Null
  /\ getBlockByHeight (JsNum.Int (-1)) this = Null.
Proof. vm_compute. repeat split. Qed.

End ChainProperties.

(* ===================================================================== *)
(** ** Transactions *)
(* ===================================================================== *)

Module TransactionProperties.
Import TransactionData Transaction.

(** No number is [===] to NaN. *)
Lemma eqb_nan (x : float) : (x =? nan)%float = false.
Proof.
  rewrite FloatAxioms.eqb_spec. change (Prim2SF nan) with S754_nan.
  destruct (Prim2SF x) as [s| s| |s m e]; try destruct s; reflexivity.
Qed.

(** The reward halves every 210000 blocks; without a height it is NaN. *)
Example calculateBlockReward_values :
  calculateBlockReward (Some 0%float) = 50%float
  /\ calculateBlockReward (Some 209999%float) = 50%float
  /\ calculateBlockReward (Some 210000%float) = 25%float
  /\ calculateBlockReward (Some 420000%float) = 12.5%float
  /\ calculateBlockReward None = nan.
Proof. vm_compute. repeat split. Qed.

Section WithCapabilities.
Context {caps : Capabilities}.


(** X26. [createCoinbase] never sets [blockHeight], so the transaction it
    builds is compared with NaN and is not valid. *)
Lemma createCoinbase_not_valid (recipientAddress : string) (blockHeight now : Z) :
  fst (isValid (createCoinbase recipientAddress blockHeight now)) = false.
Proof.
  unfold isValid, createCoinbase, new, calculateHash.
  cbn [hash sender recipient amount timestamp data nonce TransactionData.blockHeight].
  rewrite bool_decide_eq_true_2 by reflexivity. cbn [negb].
  destruct (_ <=? 0)%float; [reflexivity|].
  destruct (bool_decide (COINBASE_SENDER = recipientAddress)); [reflexivity|].
  rewrite bool_decide_eq_true_2 by reflexivity. cbn [fst].
  change (calculateBlockReward None) with nan. apply eqb_nan.
Qed.

End WithCapabilities.

(** A signed transfer and a coinbase transaction whose height was attached
    are valid; zero amounts and self-transfers are not. *)
Example isValid_runs :
  let transfer (amount : float) (recipient : string) (sig : option Proof) :=
    Transaction.new (caps := Sample.caps) "alice" recipient amount 1 ""
                    (Some "alice-key") sig 0 in
  let coinbase (height : option float) :=
    TransactionData.mk COINBASE_SENDER "alice" 12.5 1 "" (Some COINBASE_SENDER)
      None 0 (COINBASE_SENDER +:+ ">alice") height in
  fst (isValid (caps := Sample.caps) (transfer 5%float "bob" (Some (mkProof "alice-key" "")))) = true
  /\ fst (isValid (caps := Sample.caps) (transfer 5%float "bob" (Some (mkProof "mallory" "")))) = false
  /\ isValid (caps := Sample.caps) (transfer 0%float "bob" (Some (mkProof "alice-key" ""))) = (false, [])
  /\ fst (isValid (caps := Sample.caps) (transfer 5%float "alice" (Some (mkProof "alice-key" "")))) = false
  /\ fst (isValid (caps := Sample.caps) (coinbase (Some 420000%float))) = true
  /\ fst (isValid (caps := Sample.caps) (coinbase (Some 0%float))) = false
  /\ fst (isValid (caps := Sample.caps) (coinbase None)) = false.
Proof. vm_compute. repeat split. Qed.

End TransactionProperties.

(* ===================================================================== *)
(** ** Insertion-ordered maps *)
(* ===================================================================== *)

Module JsMapFacts.
Section Facts.
Context {K V : Type} `{EqDecision K}.
Implicit Types (k : K) (v : V) (m : JsMap.t K V).

Lemma get_set_eq k v m : JsMap.get k (JsMap.set k v m) = Some v.
Proof.
  induction m as [|[k' v'] m IH]; cbn.
  - destruct (decide (k = k)); [reflexivity | contradiction].
  - destruct (decide (k = k')) as [->|Hne]; cbn.
    + destruct (decide (k' = k')); [reflexivity | contradiction].
    + destruct (decide (k = k')); [contradiction | exact IH].
Qed.

Lemma get_set_ne k k' v m : k <> k' -> JsMap.get k' (JsMap.set k v m) = JsMap.get k' m.
Proof.
  intros Hne. induction m as [|[k0 v0] m IH]; cbn.
  - destruct (decide (k' = k)); [congruence | reflexivity].
  - destruct (decide (k = k0)) as [->|Hk]; cbn.
    + destruct (decide (k' = k0)); [congruence | reflexivity].
    + destruct (decide (k' = k0)); [reflexivity | exact IH].
Qed.

Lemma get_None_not_in k m : JsMap.get k m = None <-> ~ In k (JsMap.keys m).
Proof.
  induction m as [|[k' v'] m IH]; cbn.
  - split; [intros _ [] | reflexivity].
  - destruct (decide (k = k')) as [->|Hne].
    + split; [discriminate | intros Hn; exfalso; apply Hn; now left].
    + rewrite IH. split.
      * intros Hn [E|Hin]; [congruence | contradiction].
      * intros Hn Hin. apply Hn. now right.
Qed.

Lemma get_Some_in k v m : JsMap.get k m = Some v -> In (k, v) m.
Proof.
  induction m as [|[k' v'] m IH]; cbn; [discriminate|].
  destruct (decide (k = k')) as [->|Hne].
  - intros [= ->]. now left.
  - intros Hg. right. now apply IH.
Qed.

Lemma in_get k v m : JsMap.wf m -> In (k, v) m -> JsMap.get k m = Some v.
Proof.
  unfold JsMap.wf. induction m as [|[k' v'] m IH]; cbn; [intros _ []|].
  intros Hnd [E|Hin].
  - injection E as -> ->. destruct (decide (k = k)); [reflexivity | contradiction].
  - apply NoDup_cons in Hnd as [Hnotin Hnd].
    destruct (decide (k = k')) as [->|Hne].
    + exfalso. apply Hnotin. apply list_elem_of_In.
      change k' with (fst (k', v)). now apply in_map.
    + now apply IH.
Qed.

(** A key already present keeps its place: the order of the keys does not
    change. *)
Lemma keys_set_present k v m :
  JsMap.get k m <> None -> JsMap.keys (JsMap.set k v m) = JsMap.keys m.
Proof.
  induction m as [|[k' v'] m IH]; cbn; [congruence|].
  destruct (decide (k = k')) as [->|Hne]; cbn; [reflexivity|].
  intros Hg. f_equal. now apply IH.
Qed.

(** A new key goes to the end. *)
Lemma set_absent k v m : JsMap.get k m = None -> JsMap.set k v m = (m ++ [(k, v)])%list.
Proof.
  induction m as [|[k' v'] m IH]; cbn; [reflexivity|].
  destruct (decide (k = k')) as [->|Hne]; [discriminate|].
  intros Hg. f_equal. now apply IH.
Qed.

Lemma values_set_in k v v0 m :
  In v0 (JsMap.values (JsMap.set k v m)) -> v0 = v \/ In v0 (JsMap.values m).
Proof.
  induction m as [|[k' v'] m IH]; cbn.
  - intros [E|[]]. now left.
  - destruct (decide (k = k')) as [->|Hne]; cbn.
    + intros [E|Hin]; [now left | right; now right].
    + intros [E|Hin]; [right; now left|].
      destruct (IH Hin) as [E|Hin']; [now left | right; now right].
Qed.

Lemma get_delete_ne k k' m : k <> k' -> JsMap.get k' (JsMap.delete k m) = JsMap.get k' m.
Proof.
  intros Hne. induction m as [|[k0 v0] m IH]; cbn; [reflexivity|].
  destruct (decide (k = k0)) as [->|Hk]; cbn.
  - destruct (decide (k' = k0)); [congruence | reflexivity].
  - destruct (decide (k' = k0)); [reflexivity | exact IH].
Qed.

Lemma keys_delete_incl k k' m : In k' (JsMap.keys (JsMap.delete k m)) -> In k' (JsMap.keys m).
Proof.
  induction m as [|[k0 v0] m IH]; cbn; [intros []|].
  destruct (decide (k = k0)) as [->|Hk]; cbn.
  - intros Hin. now right.
  - intros [E|Hin]; [now left | right; now apply IH].
Qed.

Lemma get_delete_eq k m : JsMap.wf m -> JsMap.get k (JsMap.delete k m) = None.
Proof.
  unfold JsMap.wf. induction m as [|[k0 v0] m IH]; cbn; [reflexivity|].
  intros Hnd. apply NoDup_cons in Hnd as [Hnotin Hnd].
  destruct (decide (k = k0)) as [->|Hk]; cbn.
  - apply get_None_not_in. intros Hin. apply Hnotin. now apply list_elem_of_In.
  - destruct (decide (k = k0)); [contradiction | now apply IH].
Qed.

Lemma wf_delete k m : JsMap.wf m -> JsMap.wf (JsMap.delete k m).
Proof.
  unfold JsMap.wf. induction m as [|[k0 v0] m IH]; cbn; [intros; constructor|].
  intros Hnd. apply NoDup_cons in Hnd as [Hnotin Hnd].
  destruct (decide (k = k0)) as [->|Hk]; cbn; [assumption|].
  apply NoDup_cons. split; [|now apply IH].
  intros Hin. apply Hnotin. apply list_elem_of_In. apply list_elem_of_In in Hin.
  now apply keys_delete_incl in Hin.
Qed.

Lemma wf_set k v m : JsMap.wf m -> JsMap.wf (JsMap.set k v m).
Proof.
  intros Hwf. destruct (JsMap.get k m) as [v0|] eqn:Hg.
  - unfold JsMap.wf. rewrite keys_set_present; [assumption | congruence].
  - rewrite set_absent by assumption. unfold JsMap.wf, JsMap.keys.
    rewrite map_app. cbn. apply NoDup_app. split; [exact Hwf|]. split.
    + intros x Hx Hx'. apply list_elem_of_In in Hx, Hx'. destruct Hx' as [<-|[]].
      now apply get_None_not_in in Hg.
    + apply NoDup_singleton.
Qed.

End Facts.
End JsMapFacts.

(* ===================================================================== *)
(** ** Consensus manager *)
(* ===================================================================== *)

Module ConsensusProperties.
Import ConsensusManager.

Lemma walk_In (activeValidators : list Validator) :
  forall (randomValue cumulativeStake : Z) (validator : Validator),
    walk randomValue cumulativeStake activeValidators = Some validator ->
    In validator activeValidators.
Proof.
  induction activeValidators as [|v rest IH]; intros r c validator; cbn; [discriminate|].
  destruct (r <=? c + stake v).
  - intros [= ->]. now left.
  - intros Hw. right. exact (IH _ _ _ Hw).
Qed.

Lemma Forall_values_set {V} (P : V -> Prop) (k : string) (v : V) (m : JsMap.t string V) :
  Forall P (JsMap.values m) -> P v -> Forall P (JsMap.values (JsMap.set k v m)).
Proof.
  intros Hall Hv. apply List.Forall_forall. intros v0 Hin.
  apply JsMapFacts.values_set_in in Hin as [->|Hin]; [assumption|].
  revert v0 Hin. now apply List.Forall_forall.
Qed.

Lemma get_In_values {V} (k : string) (v : V) (m : JsMap.t string V) :
  JsMap.get k m = Some v -> In v (JsMap.values m).
Proof.
  intros Hg. apply JsMapFacts.get_Some_in in Hg.
  change v with (snd (k, v)). now apply in_map.
Qed.

Section WithCapabilities.
Context {caps : Capabilities} {collaborator : Collaborator}.

Lemma assessBlockQuality_bounds (now : Z) (block : BlockData.t) :
  0 <= assessBlockQuality now block <= 15.
Proof.
  unfold assessBlockQuality.
  destruct (_ <=? config.blockchain.maxBlockSize);
    destruct (_ <=? config.blockchain.maxTransactionsPerBlock);
    destruct (_ <=? 1000); lia.
Qed.

Lemma updateValidatorStats_values (P : Validator -> Prop) (address : string)
    (block : BlockData.t) (now : Z) (this : t) :
  (forall v reputation',
      P v -> 0 <= reputation' <= 100 ->
      P (mkValidator (ConsensusManager.address v) (stake v) (publicKey v)
                     (blocksMined v + 1) now reputation' (quantumProof v))) ->
  Forall P (JsMap.values (validators this)) ->
  Forall P (JsMap.values (validators (updateValidatorStats address block now this))).
Proof.
  intros Hstep Hall. unfold updateValidatorStats.
  destruct (JsMap.get address (validators this)) as [v|] eqn:Hg; [|assumption].
  cbn [validators]. apply Forall_values_set; [assumption|].
  apply Hstep; [|lia].
  apply get_In_values in Hg. revert v Hg. now apply List.Forall_forall.
Qed.

(** A registration never writes: it throws one of its two errors, or the
    [TypeError] of the missing proof generator. *)
Lemma registerValidator_throws (address : string) (stake : Z) (publicKey : string)
    (now : Z) (this : t) :
  snd (registerValidator address stake publicKey now this) = this
  /\ exists message,
       fst (registerValidator address stake publicKey now this) = Throw message.
Proof.
  unfold registerValidator.
  destruct (_ <? _); [split; [reflexivity | eauto]|].
  destruct (JsMap.has _ _); split; try reflexivity; eauto.
Qed.

Lemma step_registryInvariant (this : t) (o : operation) :
  registryInvariant this -> registryInvariant (step this o).
Proof.
  intros [Hmin Hall].
  destruct o as [a s pk now| | b v now | a b now | | e l]; cbn [step].
  - rewrite (proj1 (registerValidator_throws a s pk now this)). split; assumption.
  - split; assumption.
  - unfold validateBlock.
    destruct (negb _); [split; assumption|].
    destruct (negb _); [split; assumption|].
    cbn [snd]. split.
    + unfold updateValidatorStats. destruct (JsMap.get _ _); assumption.
    + apply updateValidatorStats_values; [|assumption]. cbn. intros; lia.
  - split.
    + unfold updateValidatorStats. destruct (JsMap.get _ _); assumption.
    + apply updateValidatorStats_values; [|assumption]. cbn. intros; lia.
  - split; assumption.
  - unfold distributeRewards.
    destruct (creditAll _ l) as [[[u|e'] credited] l']; split; assumption.
Qed.

Lemma run_registryInvariant (ops : list operation) (this : t) :
  registryInvariant this -> registryInvariant (run ops this).
Proof.
  unfold run. revert this.
  induction ops as [|o ops IH]; intros this Hinv; cbn [fold_left]; [assumption|].
  apply IH. now apply step_registryInvariant.
Qed.

Lemma new_registryInvariant : registryInvariant new.
Proof. split; [reflexivity | constructor]. Qed.



(** C8. On every registry the manager's methods can build from the empty
    one, each validator's reputation is an integer between 0 and 100:
    registration stores 100 (the record it builds carries 100, whatever
    proof completes it), and an update of the statistics adds a quality
    between 0 and 15 and clamps the sum to [0, 100] whatever the previous
    value was; every method preserves the bound, on any registry. *)
Theorem reputation_in_range :
  (forall ops : list operation, reputationBounded (run ops new))
  /\ (forall address stake publicKey now this validator this',
        registerValidator address stake publicKey now this = (Return validator, this') ->
        reputation validator = 100
        /\ JsMap.get address (validators this') = Some validator)
  /\ (forall address stake publicKey now proof,
        reputation (validatorInfo address stake publicKey now proof) = 100)
  /\ (forall address block now this,
        0 <= assessBlockQuality now block <= 15
        /\ forall validator',
             JsMap.get address (validators (updateValidatorStats address block now this))
             = Some validator' ->
             0 <= reputation validator' <= 100)
  /\ (forall this o, reputationBounded this -> reputationBounded (step this o)).
Proof.
  split; [|split; [|split; [reflexivity|split]]].
  - intros ops.
    destruct (run_registryInvariant ops new new_registryInvariant) as [_ Hall].
    unfold reputationBounded. eapply Forall_impl; [exact Hall|]. cbn. tauto.
  - intros address stake publicKey now this validator this' Hr.
    destruct (registerValidator_throws address stake publicKey now this)
      as (_ & message & Hthrow).
    rewrite Hr in Hthrow. discriminate.
  - intros address block now this. split; [apply assessBlockQuality_bounds|].
    intros validator'. unfold updateValidatorStats.
    destruct (JsMap.get address (validators this)) as [v|] eqn:Hg.
    + cbn [validators]. rewrite JsMapFacts.get_set_eq. intros [= <-]. cbn. lia.
    + rewrite Hg. discriminate.
  - intros this o Hb. unfold reputationBounded in *.
    destruct o as [a s pk now| | b v now | a b now | | e l]; cbn [step];
      try assumption.
    + now rewrite (proj1 (registerValidator_throws a s pk now this)).
    + unfold validateBlock.
      destruct (negb _); [assumption|]. destruct (negb _); [assumption|].
      cbn [snd]. apply updateValidatorStats_values; [|assumption]. cbn. intros; lia.
    + apply updateValidatorStats_values; [|assumption]. cbn. intros; lia.
    + unfold distributeRewards.
      now destruct (creditAll _ l) as [[[u|e'] credited] l'].
Qed.

End WithCapabilities.

(** On a registry that holds the five validators of the test suite, all
    active an hour later, the selection stops at the random draw; a day later
    none is active, and a validator whose reputation is 40 is refused. *)
Example selectNextValidator_runs :
  selectNextValidator (1700000000000 + 3600000) Sample.registry
  = Throw "TypeError: KyberUtils.generateRandomBytes is not a function"
  /\ selectNextValidator (1700000000000 + 86400000) Sample.registry
     = Throw "Not enough active validators"
  /\ fst (validateBlock (caps := Sample.caps) Sample.genesis1
            (mkValidator "validator-9" 1000000 "key-9" 0 1700000000000 40
                         (mkProof "key-9" ""))
            1700000000001 Sample.registry) = false.
Proof. repeat split; vm_compute; reflexivity. Qed.

(** *** Rewards *)

(** The map built by [calculateValidatorRewards] lists the entries of the
    epoch's bookkeeping in order. *)
Lemma rewards_fold (this : t) (entries : JsMap.t string (list BlockData.t)) :
  forall acc : JsMap.t string float,
    NoDup (JsMap.keys acc ++ JsMap.keys entries) ->
    fold_left
      (fun rewards '(address, blocks) =>
         match JsMap.get address (validators this) with
         | None => rewards
         | Some validator =>
             JsMap.set address
               (totalReward (minStake this) validator (Z.of_nat (length blocks)))
               rewards
         end)
      entries acc
    = (acc ++ omap (rewardEntry this) entries)%list.
Proof.
  induction entries as [|[address blocks] entries IH]; intros acc Hnd; cbn [fold_left].
  - cbn. now rewrite app_nil_r.
  - cbn [JsMap.keys map fst] in Hnd.
    assert (Hnotin : JsMap.get address acc = None).
    { apply JsMapFacts.get_None_not_in. intros Hin.
      apply NoDup_app in Hnd as (_ & Hdisj & _).
      apply (Hdisj address); [now apply list_elem_of_In | left]. }
    assert (Hrest : NoDup (JsMap.keys acc ++ JsMap.keys entries)).
    { apply NoDup_app in Hnd as (Ha & Hdisj & He).
      apply NoDup_cons in He as [_ He].
      apply NoDup_app. split; [assumption|]. split; [|assumption].
      intros x Hx Hx'. apply (Hdisj x Hx). now right. }
    cbn [omap list_omap]. unfold rewardEntry at 1. cbn [fst snd].
    destruct (JsMap.get address (validators this)) as [validator|].
    + rewrite JsMapFacts.set_absent by assumption.
      rewrite IH.
      * now rewrite <- app_assoc.
      * unfold JsMap.keys in *. rewrite map_app. cbn [map fst].
        rewrite <- app_assoc. exact Hnd.
    + now apply IH.
Qed.

Lemma calculateValidatorRewards_entries (epoch : Z) (this : t) :
  JsMap.wf (default [] (JsMap.get epoch (epochBlocks this))) ->
  calculateValidatorRewards epoch this
  = omap (rewardEntry this) (default [] (JsMap.get epoch (epochBlocks this))).
Proof.
  intros Hwf. unfold calculateValidatorRewards.
  now rewrite rewards_fold.
Qed.

(** Whatever the bookkeeping holds, no address is paid twice. *)
Lemma calculateValidatorRewards_wf (epoch : Z) (this : t) :
  JsMap.wf (calculateValidatorRewards epoch this).
Proof.
  unfold calculateValidatorRewards.
  generalize (default [] (JsMap.get epoch (epochBlocks this))).
  intros entries.
  assert (Hacc : JsMap.wf (@nil (string * float))) by constructor.
  revert Hacc. generalize (@nil (string * float)).
  induction entries as [|[address blocks] entries IH]; intros acc Hacc; cbn [fold_left];
    [assumption|].
  apply IH. destruct (JsMap.get address (validators this)); [|assumption].
  now apply JsMapFacts.wf_set.
Qed.

Section Epochs.
Context {caps : Capabilities} {collaborator : Collaborator}.

(** The loop credits the rewards in order: all of them when it ends
    normally, those before the failing call otherwise. *)
Lemma creditAll_Return (rewards credited : list (string * float))
    (ledger ledger' : Ledger) (u : unit) :
  creditAll rewards ledger = (Return u, credited, ledger') -> credited = rewards.
Proof.
  revert ledger credited. induction rewards as [|[address amount] rewards IH];
    intros ledger credited; cbn [creditAll].
  - intros H. now inversion H.
  - destruct (distributeValidatorReward address amount ledger) as [[u'|e] l1];
      [|discriminate].
    destruct (creditAll rewards l1) as [[result credited1] l2] eqn:Hrest.
    intros H. inversion H. subst. f_equal. now apply (IH l1).
Qed.

Lemma creditAll_Throw (rewards credited : list (string * float))
    (ledger ledger' : Ledger) (e : string) :
  creditAll rewards ledger = (Throw e, credited, ledger') ->
  exists failing rest, rewards = (credited ++ failing :: rest)%list.
Proof.
  revert ledger credited. induction rewards as [|[address amount] rewards IH];
    intros ledger credited; cbn [creditAll]; [discriminate|].
  destruct (distributeValidatorReward address amount ledger) as [[u'|e'] l1].
  - destruct (creditAll rewards l1) as [[result credited1] l2] eqn:Hrest.
    intros H. inversion H. subst.
    destruct (IH l1 credited1 Hrest) as (failing & rest & ->).
    now exists failing, rest.
  - intros H. inversion H. subst. now exists (address, amount), rewards.
Qed.

Lemma creditAll_resolves (rewards : list (string * float)) :
  (forall address amount ledger,
      fst (distributeValidatorReward address amount ledger) = Return tt) ->
  forall ledger, fst (fst (creditAll rewards ledger)) = Return tt.
Proof.
  intros Hresolves. induction rewards as [|[address amount] rewards IH]; intros ledger;
    cbn [creditAll]; [reflexivity|].
  specialize (Hresolves address amount ledger).
  destruct (distributeValidatorReward address amount ledger) as [[u'|e'] l1];
    [|discriminate].
  specialize (IH l1). now destruct (creditAll rewards l1) as [[result credited1] l2].
Qed.

(** No method of the manager writes an entry into the epoch bookkeeping. *)
Lemma step_epoch_absent (epoch : Z) (this : t) (o : operation) :
  JsMap.get epoch (epochBlocks this) = None ->
  JsMap.get epoch (epochBlocks (step this o)) = None.
Proof.
  intros Hg. destruct o as [a s pk now| | b v now | a b now | | e l]; cbn [step];
    try assumption.
  - now rewrite (proj1 (registerValidator_throws a s pk now this)).
  - unfold validateBlock, updateValidatorStats.
    destruct (negb _); [assumption|]. destruct (negb _); [assumption|].
    cbn [snd]. destruct (JsMap.get _ (validators this)); assumption.
  - unfold updateValidatorStats. destruct (JsMap.get _ (validators this)); assumption.
  - unfold distributeRewards.
    destruct (creditAll _ l) as [[[u|e'] credited] l']; cbn [manager epochBlocks];
      [|assumption].
    apply JsMapFacts.get_None_not_in. intros Hin.
    apply JsMapFacts.keys_delete_incl in Hin.
    now apply JsMapFacts.get_None_not_in in Hg.
Qed.

Lemma run_epoch_absent (epoch : Z) (ops : list operation) (this : t) :
  JsMap.get epoch (epochBlocks this) = None ->
  JsMap.get epoch (epochBlocks (run ops this)) = None.
Proof.
  unfold run. revert this.
  induction ops as [|o ops IH]; intros this Hg; cbn [fold_left]; [assumption|].
  apply IH. now apply step_epoch_absent.
Qed.


End Epochs.



End ConsensusProperties.

(* ===================================================================== *)
(** ** Shard manager: the life cycle of a cross-shard transaction *)
(* ===================================================================== *)

Module ShardProperties.
Import ShardManager.

(** *** Reading a shard after a write *)

Lemma pendingOf_set_eq (shardId : string) (shard : Shard) (this : t) :
  pendingOf shardId (setShards (JsMap.set shardId shard) this) = pendingTransactions shard.
Proof. unfold pendingOf, setShards. cbn. now rewrite JsMapFacts.get_set_eq. Qed.

Lemma pendingOf_set_ne (shardId shardId' : string) (shard : Shard) (this : t) :
  shardId <> shardId' ->
  pendingOf shardId' (setShards (JsMap.set shardId shard) this) = pendingOf shardId' this.
Proof.
  intros Hne. unfold pendingOf, setShards. cbn. now rewrite JsMapFacts.get_set_ne.
Qed.

Lemma chainOf_set_eq (shardId : string) (shard : Shard) (this : t) :
  chainOf shardId (setShards (JsMap.set shardId shard) this) = chain shard.
Proof. unfold chainOf, setShards. cbn. now rewrite JsMapFacts.get_set_eq. Qed.

Lemma chainOf_set_ne (shardId shardId' : string) (shard : Shard) (this : t) :
  shardId <> shardId' ->
  chainOf shardId' (setShards (JsMap.set shardId shard) this) = chainOf shardId' this.
Proof.
  intros Hne. unfold chainOf, setShards. cbn. now rewrite JsMapFacts.get_set_ne.
Qed.

Lemma updateShard_inv (shardId : option string) (f : Shard -> Shard)
    (this this' : t) (r : outcome unit) :
  updateShard shardId f this = (r, this') ->
  (r = Throw "TypeError" /\ this' = this)
  \/ (exists id shard,
        shardId = Some id /\ JsMap.get id (shards this) = Some shard
        /\ r = Return tt /\ this' = setShards (JsMap.set id (f shard)) this).
Proof.
  unfold updateShard. destruct shardId as [id|]; [|intros [= <- <-]; now left].
  destruct (JsMap.get id (shards this)) as [shard|] eqn:Hg; intros [= <- <-].
  - right. exists id, shard. repeat split; assumption.
  - now left.
Qed.

(** *** Routing *)

Lemma keys_lookup_get {V} (m : JsMap.t string V) (i : nat) (k : string) :
  JsMap.keys m !! i = Some k -> JsMap.get k m <> None.
Proof.
  intros Hi Hg. apply JsMapFacts.get_None_not_in in Hg. apply Hg.
  apply list_elem_of_In. eapply list_elem_of_lookup_2. exact Hi.
Qed.

(** Writing the pending table of a shard. *)
Lemma updateShard_setPending_Return (shardId : option string)
    (g : gmap string TransactionData.t -> gmap string TransactionData.t)
    (this this' : t) :
  updateShard shardId (setPending g) this = (Return tt, this') ->
  exists id,
    shardId = Some id
    /\ JsMap.get id (shards this) <> None
    /\ JsMap.keys (shards this') = JsMap.keys (shards this)
    /\ crossShardTransactions this' = crossShardTransactions this
    /\ (forall id', chainOf id' this' = chainOf id' this)
    /\ (forall id', pendingOf id' this'
                    = if decide (id = id') then g (pendingOf id' this)
                      else pendingOf id' this).
Proof.
  intros Hu. apply updateShard_inv in Hu as [[[=] _]|(id & shard & -> & Hget & _ & ->)].
  exists id. split; [reflexivity|]. split; [congruence|]. split; [|split; [|split]].
  - cbn. apply JsMapFacts.keys_set_present. congruence.
  - reflexivity.
  - intros id'. destruct (decide (id = id')) as [<-|Hne].
    + rewrite chainOf_set_eq. cbn. unfold chainOf. now rewrite Hget.
    + now rewrite chainOf_set_ne.
  - intros id'. destruct (decide (id = id')) as [<-|Hne].
    + rewrite pendingOf_set_eq. cbn. unfold pendingOf. now rewrite Hget.
    + now rewrite pendingOf_set_ne.
Qed.

(** *** The life cycle of a tracked transaction *)

Lemma moved_refl (entry : CrossShardTx) : moved entry entry.
Proof. now left. Qed.

Lemma moved_trans (a b c : CrossShardTx) : moved a b -> moved b c -> moved a c.
Proof.
  intros [->|[Ha ->]] [->|[Hb ->]]; try (now left); try (now right).
Qed.

(** A moved entry is completed only if it was. *)
Lemma moved_completed (entry entry' : CrossShardTx) :
  moved entry entry' -> status entry' = completed -> status entry = completed.
Proof. intros [->|[_ ->]]; [trivial | discriminate]. Qed.

Lemma advanced_refl (this : t) : advanced this this.
Proof.
  repeat split. intros txHash.
  destruct (crossShardTransactions this !! txHash) as [entry|]; [|reflexivity].
  exists entry. split; [reflexivity | apply moved_refl].
Qed.

Lemma advanced_trans (a b c : t) : advanced a b -> advanced b c -> advanced a c.
Proof.
  intros (Hs1 & Hv1 & Hc1) (Hs2 & Hv2 & Hc2).
  split; [congruence|]. split; [congruence|]. intros txHash.
  specialize (Hc1 txHash). specialize (Hc2 txHash).
  destruct (crossShardTransactions a !! txHash) as [entry|].
  - destruct Hc1 as (entry1 & H1 & Hm1). rewrite H1 in Hc2.
    destruct Hc2 as (entry2 & H2 & Hm2). exists entry2.
    split; [assumption | now apply (moved_trans entry entry1)].
  - now rewrite Hc1 in Hc2.
Qed.

Section WithCapabilities.
Context {caps : Capabilities}.

(** A submission asks for its proof first, and the generator is missing. *)
Lemma processCrossShardTransaction_throws (tx : TransactionData.t) (now : Z) (this : t) :
  processCrossShardTransaction tx now this
  = (Throw "TypeError: KyberUtils.generateCrossShardProof is not a function", this).
Proof. reflexivity. Qed.

(** So does the completion of a tracked transaction. *)
Lemma finalizeCrossShardTransaction_throws (txHash : string) (now : Z) (this : t) :
  finalizeCrossShardTransaction txHash now this
  = match crossShardTransactions this !! txHash with
    | Some _ =>
        (Throw "TypeError: KyberUtils.generateFinalizationProof is not a function", this)
    | None => (Return tt, this)
    end.
Proof.
  unfold finalizeCrossShardTransaction, bind, read.
  now destruct (crossShardTransactions this !! txHash).
Qed.

(** One listing: nothing happens, a pending entry becomes processing, or
    the completion of a processing entry throws. *)
Lemma processCrossShardStep_cases (now : Z) (tx : TransactionData.t) (this : t) :
  match crossShardTransactions this !! TransactionData.hash tx with
  | None => processCrossShardStep now tx this = (Return tt, this)
  | Some entry =>
      match status entry with
      | pending =>
          processCrossShardStep now tx this
          = (Return tt,
             setCrossShardTransactions
               (insert (TransactionData.hash tx) (setStatus processing entry)) this)
      | processing =>
          processCrossShardStep now tx this
          = (Throw "TypeError: KyberUtils.generateFinalizationProof is not a function",
             this)
      | completed => processCrossShardStep now tx this = (Return tt, this)
      end
  end.
Proof.
  unfold processCrossShardStep, bind, read.
  destruct (crossShardTransactions this !! TransactionData.hash tx) as [entry|] eqn:He;
    [|reflexivity].
  destruct (status entry) eqn:Hs.
  - unfold updateCrossShardTransaction, bind, read, write. now rewrite He.
  - rewrite finalizeCrossShardTransaction_throws. now rewrite He.
  - reflexivity.
Qed.

Lemma processCrossShardStep_advanced (now : Z) (tx : TransactionData.t) (this : t) :
  advanced this (snd (processCrossShardStep now tx this)).
Proof.
  pose proof (processCrossShardStep_cases now tx this) as Hcases.
  destruct (crossShardTransactions this !! TransactionData.hash tx) as [entry|] eqn:He;
    [|rewrite Hcases; apply advanced_refl].
  destruct (status entry) eqn:Hs; rewrite Hcases; try apply advanced_refl.
  cbn [snd]. repeat split. intros txHash. cbn [crossShardTransactions
    setCrossShardTransactions].
  destruct (decide (txHash = TransactionData.hash tx)) as [->|Hne].
  - rewrite He, lookup_insert_eq. eexists. split; [reflexivity|]. now right.
  - rewrite lookup_insert_ne by congruence.
    destruct (crossShardTransactions this !! txHash) as [other|]; [|reflexivity].
    exists other. split; [reflexivity | apply moved_refl].
Qed.

Lemma forEach_advanced (now : Z) (l : list TransactionData.t) :
  forall this : t, advanced this (snd (forEach l (processCrossShardStep now) this)).
Proof.
  induction l as [|tx l IH]; intros this; cbn [forEach]; [apply advanced_refl|].
  unfold bind. pose proof (processCrossShardStep_advanced now tx this) as Hstep.
  destruct (processCrossShardStep now tx this) as [[u|e] this1]; cbn [snd] in *.
  - apply (advanced_trans this this1); [assumption | apply IH].
  - assumption.
Qed.

(** Where no listed transaction is tracked, the loop does nothing. *)
Lemma forEach_untracked (now : Z) (l : list TransactionData.t) (this : t) :
  (forall tx, In tx l -> crossShardTransactions this !! TransactionData.hash tx = None) ->
  forEach l (processCrossShardStep now) this = (Return tt, this).
Proof.
  induction l as [|tx l IH]; intros Hnone; cbn [forEach]; [reflexivity|].
  unfold bind. pose proof (processCrossShardStep_cases now tx this) as Hcases.
  rewrite (Hnone tx) in Hcases by now left. rewrite Hcases.
  apply IH. intros tx' Hin. apply Hnone. now right.
Qed.

(** What a call of [finalizeBlock] leaves, whether it returned or threw:
    every tracking entry is still there, moved or not, and the shards other
    than the one named are as they were. *)
Lemma finalizeBlock_advanced (shardId : string) (block : BlockData.t)
    (validatorSignatures : list (string * Proof)) (now : Z) (this : t) :
  let this' := snd (finalizeBlock shardId block validatorSignatures now this) in
  (forall txHash entry,
      crossShardTransactions this !! txHash = Some entry ->
      exists entry',
        crossShardTransactions this' !! txHash = Some entry' /\ moved entry entry')
  /\ (forall other,
        other <> shardId ->
        pendingOf other this' = pendingOf other this
        /\ chainOf other this' = chainOf other this).
Proof.
  cbv zeta.
  assert (Hgoal : forall this1,
             advanced this this1 ->
             (forall txHash entry,
                 crossShardTransactions this !! txHash = Some entry ->
                 exists entry',
                   crossShardTransactions this1 !! txHash = Some entry'
                   /\ moved entry entry')
             /\ (forall other,
                   pendingOf other this1 = pendingOf other this
                   /\ chainOf other this1 = chainOf other this)).
  { intros this1 (Hs & _ & Hc). split.
    - intros txHash entry He. specialize (Hc txHash). now rewrite He in Hc.
    - intros other. unfold pendingOf, chainOf. now rewrite Hs. }
  remember (finalizeBlock shardId block validatorSignatures now this) as result
    eqn:Hresult.
  revert Hresult. unfold finalizeBlock, bind at 1, read.
  destruct (JsMap.get shardId (shards this)) as [shard|] eqn:Hget.
  2:{ intros ->. cbn [throw snd]. destruct (Hgoal this (advanced_refl this)) as [Ht Ho].
      split; [exact Ht | intros other _; apply Ho]. }
  destruct (_ <? minValidatorsPerShard).
  { intros ->. cbn [throw snd]. destruct (Hgoal this (advanced_refl this)) as [Ht Ho].
    split; [exact Ht | intros other _; apply Ho]. }
  unfold processCrossShardTransactions, bind.
  pose proof (forEach_advanced now (BlockData.transactions block) this) as Hadv.
  destruct (forEach (BlockData.transactions block) (processCrossShardStep now) this)
    as [[u|e] this1]; cbn [snd] in Hadv; intros ->.
  - destruct (Hgoal this1 Hadv) as [Ht Ho]. destruct Hadv as (Hs & _ & _).
    unfold updateShard, bind, read. rewrite Hs, Hget. cbn [ret write snd]. split.
    + exact Ht.
    + intros other Hne. rewrite pendingOf_set_ne, chainOf_set_ne by congruence.
      apply Ho.
  - destruct (Hgoal this1 Hadv) as [Ht Ho].
    split; [exact Ht | intros other _; apply Ho].
Qed.

(** C3 (the code at a submission and at a completion).  The claim describes
    what the manager is written to do, and the code stops short of it twice:
    a submission asks KyberUtils for a cross-shard proof before it records
    anything, the completion of a processing entry asks for a finalization
    proof before it deletes anything, and KyberUtils defines neither
    generator.  So [processCrossShardTransaction] always throws and writes
    nothing, and so does [processTransaction] for a transaction routed to two
    shards; and whatever block a shard finalizes, a tracked transaction moves
    at most from pending to processing, is never completed unless it already
    was, and stays in the pending table of every other shard. *)
Theorem cross_shard_lifecycle_stalls :
  (forall tx now this,
      processCrossShardTransaction tx now this
      = (Throw "TypeError: KyberUtils.generateCrossShardProof is not a function", this))
  /\ (forall tx now this shardId,
        getTransactionShard tx this = Some shardId ->
        JsMap.get shardId (shards this) <> None ->
        isCrossShardTransaction tx this = true ->
        processTransaction tx now this
        = (Throw "TypeError: KyberUtils.generateCrossShardProof is not a function", this))
  /\ (forall txHash now this entry,
        crossShardTransactions this !! txHash = Some entry ->
        finalizeCrossShardTransaction txHash now this
        = (Throw "TypeError: KyberUtils.generateFinalizationProof is not a function",
           this))
  /\ (forall shardId block validatorSignatures now this txHash entry,
        crossShardTransactions this !! txHash = Some entry ->
        let this' := snd (finalizeBlock shardId block validatorSignatures now this) in
        exists entry',
          crossShardTransactions this' !! txHash = Some entry'
          /\ (status entry' = status entry
              \/ (status entry = pending /\ status entry' = processing))
          /\ (status entry' = completed -> status entry = completed)
          /\ forall other,
               other <> shardId ->
               pendingOf other this' !! txHash = pendingOf other this !! txHash).
Proof.
  split; [exact processCrossShardTransaction_throws|]. split; [|split].
  - intros tx now this shardId Hs Hget Hcross.
    unfold processTransaction, bind at 1, read. rewrite Hs.
    destruct (JsMap.get shardId (shards this)); [|contradiction].
    rewrite Hcross. unfold bind. now rewrite processCrossShardTransaction_throws.
  - intros txHash now this entry He.
    rewrite finalizeCrossShardTransaction_throws. now rewrite He.
  - intros shardId block validatorSignatures now this txHash entry He. cbv zeta.
    destruct (finalizeBlock_advanced shardId block validatorSignatures now this)
      as [Htracked Hothers].
    destruct (Htracked txHash entry He) as (entry' & He' & Hmoved).
    exists entry'. split; [assumption|]. split; [|split].
    + destruct Hmoved as [->|[Hp ->]]; [now left | now right].
    + now apply moved_completed.
    + intros other Hne. now rewrite (proj1 (Hothers other Hne)).
Qed.

End WithCapabilities.

(** The transfer from "alice" to "bob", routed to shards 5 and 3: its
    submission throws and leaves no trace.  On a manager that holds it as a
    submission is meant to leave it, shard 5 finalizes a block that lists it
    and it becomes processing; the block of shard 3 that should complete it
    is refused with the missing generator's error, the chain of shard 3 stays
    empty and the transfer stays in its pending table. *)
Example transfer_never_completes :
  let h := TransactionData.hash Sample.transfer in
  isCrossShardTransaction (caps := Sample.caps) Sample.transfer Sample.sharded = true
  /\ processTransaction (caps := Sample.caps) Sample.transfer 1700000000001 Sample.sharded
     = (Throw "TypeError: KyberUtils.generateCrossShardProof is not a function",
        Sample.sharded)
  /\ getCrossShardTransactionStatus h Sample.submitted = Some pending
  /\ fst (finalizeBlock (caps := Sample.caps) "shard-5"
            (Sample.shardBlock "block-a" [Sample.transfer]) Sample.quorum
            1700000000003 Sample.submitted)
     = Return (Sample.shardBlock "block-a" [Sample.transfer])
  /\ getCrossShardTransactionStatus h Sample.afterFirstBlock = Some processing
  /\ pendingOf "shard-5" Sample.afterFirstBlock !! h = None
  /\ pendingOf "shard-3" Sample.afterFirstBlock !! h = Some Sample.transfer
  /\ finalizeBlock (caps := Sample.caps) "shard-3"
       (Sample.shardBlock "block-c" [Sample.transfer]) Sample.quorum
       1700000000004 Sample.afterFirstBlock
     = (Throw "TypeError: KyberUtils.generateFinalizationProof is not a function",
        Sample.afterFirstBlock)
  /\ chainOf "shard-3" Sample.afterFirstBlock = [].
Proof. cbv zeta. repeat split; vm_compute; reflexivity. Qed.

End ShardProperties.
(* ===================================================================== *)
(** ** Block content and mining *)
(* ===================================================================== *)

Module MiningProperties.
Import BlockData BlockValidation BlockContent Mining.

Lemma everyFrom_spec {A} (test : nat -> A -> bool) (l : list A) :
  forall index : nat,
    everyFrom test index l = true
    <-> forall (i : nat) (x : A), l !! i = Some x -> test (index + i)%nat x = true.
Proof.
  induction l as [|y l IH]; intros index; cbn [everyFrom].
  - split; [intros _ i x Hi; destruct i; discriminate | reflexivity].
  - rewrite andb_true_iff, IH. split.
    + intros [Hy Hl] [|i] x Hi; cbn in Hi.
      * injection Hi as <-. now rewrite Nat.add_0_r.
      * rewrite Nat.add_succ_r. now apply Hl.
    + intros Hall. split.
      * rewrite <- (Nat.add_0_r index). now apply (Hall 0%nat).
      * intros i x Hi. replace (S index + i)%nat with (index + S i)%nat by lia.
        now apply (Hall (S i)).
Qed.

(** X1. [validateTransactionSequence] accepts a block exactly when every
    transaction after the first is stamped no later than the block and no
    earlier than the transaction before it; the first transaction's own
    timestamp is never compared with the block's. *)
Theorem validateTransactionSequence_spec (block : BlockData.t) :
  validateTransactionSequence block = true
  <-> (forall (i : nat) (tx : TransactionData.t),
         transactions block !! S i = Some tx ->
         TransactionData.timestamp tx <= timestamp block)
      /\ (forall (i : nat) (before tx : TransactionData.t),
            transactions block !! i = Some before ->
            transactions block !! S i = Some tx ->
            TransactionData.timestamp before <= TransactionData.timestamp tx).
Proof.
  unfold validateTransactionSequence. rewrite everyFrom_spec. split.
  - intros Hall. split.
    + intros i tx Hi. specialize (Hall (S i) tx Hi). cbn in Hall.
      apply andb_prop in Hall as [Hb _]. now apply Z.leb_le.
    + intros i before tx Hb Hi. specialize (Hall (S i) tx Hi). cbn in Hall.
      apply andb_prop in Hall as [_ Ho]. rewrite Hb in Ho. now apply Z.leb_le.
  - intros [Hblock Horder] [|i] tx Hi; cbn; [reflexivity|].
    apply andb_true_intro. split; [apply Z.leb_le; eauto|].
    destruct (lookup_lt_is_Some_2 (transactions block) i) as [before Hb].
    { apply lookup_lt_Some in Hi. lia. }
    rewrite Hb. apply Z.leb_le. eauto.
Qed.

(** X2. Whatever block and clock it is given, [adjustDifficulty] answers a
    difficulty between MIN_DIFFICULTY and MAX_DIFFICULTY. *)
Theorem adjustDifficulty_in_range (originalBlock : BlockData.t) (newTimestamp : Z) :
  MIN_DIFFICULTY <= adjustDifficulty originalBlock newTimestamp <= MAX_DIFFICULTY.
Proof.
  unfold adjustDifficulty, MIN_DIFFICULTY, MAX_DIFFICULTY.
  destruct (Z.ltb_spec (difficulty originalBlock) 4); [lia|].
  destruct (Z.ltb_spec 24 (difficulty originalBlock)); [lia|].
  destruct (_ <? _); [lia|]. destruct (_ <? _); lia.
Qed.

Section WithCapabilities.
Context {caps : Capabilities} {signer : Signer}.

Lemma mineLoop_sound (clock : nat -> Z) (lastHash : string)
    (transactions : list TransactionData.t) (difficulty : Z) (fuel : nat) :
  forall (start nonce : nat) (timestamp : Z) (hash : string),
    mineLoop fuel clock lastHash transactions difficulty start
    = Some (nonce, timestamp, hash) ->
    (start < nonce <= start + fuel)%nat
    /\ timestamp = clock nonce
    /\ hash = Block.hash timestamp lastHash transactions (Z.of_nat nonce) difficulty
    /\ meetsDifficulty hash difficulty = true
    /\ forall k : nat,
         (start < k < nonce)%nat ->
         meetsDifficulty
           (Block.hash (clock k) lastHash transactions (Z.of_nat k) difficulty)
           difficulty = false.
Proof.
  induction fuel as [|fuel IH]; intros start nonce timestamp hash; cbn [mineLoop];
    [discriminate|].
  destruct (meetsDifficulty (Block.hash (clock (S start)) _ _ _ _) difficulty) eqn:Hm.
  - intros [= <- <- <-]. repeat split; try lia; assumption.
  - intros Hrest. destruct (IH _ _ _ _ Hrest) as (Hn & Ht & Hh & Hmeets & Hleast).
    repeat split; try lia; try assumption.
    intros k Hk. destruct (decide (k = S start)) as [->|Hne]; [exact Hm|].
    apply Hleast. lia.
Qed.

Lemma mineLoop_finds (clock : nat -> Z) (lastHash : string)
    (transactions : list TransactionData.t) (difficulty : Z) (fuel : nat) :
  forall (start n : nat),
    (start < n <= start + fuel)%nat ->
    meetsDifficulty
      (Block.hash (clock n) lastHash transactions (Z.of_nat n) difficulty)
      difficulty = true ->
    exists result,
      mineLoop fuel clock lastHash transactions difficulty start = Some result.
Proof.
  induction fuel as [|fuel IH]; intros start n Hn Hm; [lia|]. cbn [mineLoop].
  destruct (meetsDifficulty (Block.hash (clock (S start)) _ _ _ _) difficulty)
    eqn:Hfirst; [eauto|].
  apply (IH (S start) n); [|assumption].
  destruct (decide (n = S start)) as [->|Hne]; [congruence | lia].
Qed.

(** X3. A block that [mineBlock] returns carries the hash of the predecessor
    and the transactions it was given, a difficulty computed by
    [adjustDifficulty] from the clock reading taken before the loop, the first
    nonce from 1 whose hash starts with that many zeros, the clock reading of
    that iteration, and the hash [Block.hash] gives for its own fields; it
    passes [validateBlockStructure] and [validateMerkleRoot].  The check
    [validateBlockHash], which would recompute that hash, throws instead: its
    module never binds the name Block. *)
Theorem mineBlock_sound (fuel : nat) (clock : nat -> Z) (random32 : string)
    (lastBlock block : BlockData.t) (txs : list TransactionData.t)
    (quantumKeyPair : KeyPair) :
  mineBlock fuel clock random32 lastBlock txs quantumKeyPair = Some block ->
  lastHash block = hash lastBlock
  /\ transactions block = txs
  /\ difficulty block = adjustDifficulty lastBlock (clock 0%nat)
  /\ (1 <= nonce block <= Z.of_nat fuel)
  /\ timestamp block = clock (Z.to_nat (nonce block))
  /\ meetsDifficulty (hash block) (difficulty block) = true
  /\ (forall k : nat,
        (0 < k)%nat -> Z.of_nat k < nonce block ->
        meetsDifficulty
          (Block.hash (clock k) (hash lastBlock) txs (Z.of_nat k) (difficulty block))
          (difficulty block) = false)
  /\ validateBlockStructure block = true
  /\ hash block
     = Block.hash (timestamp block) (lastHash block) (transactions block)
         (nonce block) (difficulty block)
  /\ validateBlockHash block = Throw "ReferenceError: Block is not defined"
  /\ validateMerkleRoot block = true.
Proof.
  unfold mineBlock.
  destruct (mineLoop fuel clock _ txs _ 0) as [[[n ts] h]|] eqn:Hloop; [|discriminate].
  intros [= <-].
  apply mineLoop_sound in Hloop as (Hn & Ht & Hh & Hmeets & Hleast).
  cbn [Block.new lastHash transactions difficulty nonce timestamp hash].
  rewrite Nat2Z.id.
  repeat split; try lia; try assumption.
  - intros k Hk Hlt. apply Hleast. lia.
  - unfold validateMerkleRoot. cbn [Block.new merkleRoot transactions].
    now apply bool_decide_eq_true.
Qed.

(** X4. Mining ends as soon as some nonce meets the difficulty: if the hash
    tried at nonce n (n at least 1) starts with the required zeros, then
    [mineBlock] returns a block within n iterations, and its nonce is n or
    less. *)
Theorem mineBlock_finds (fuel n : nat) (clock : nat -> Z) (random32 : string)
    (lastBlock : BlockData.t) (txs : list TransactionData.t)
    (quantumKeyPair : KeyPair) :
  (1 <= n <= fuel)%nat ->
  meetsDifficulty
    (Block.hash (clock n) (hash lastBlock) txs (Z.of_nat n)
                (adjustDifficulty lastBlock (clock 0%nat)))
    (adjustDifficulty lastBlock (clock 0%nat)) = true ->
  exists block,
    mineBlock fuel clock random32 lastBlock txs quantumKeyPair = Some block
    /\ 1 <= nonce block <= Z.of_nat n.
Proof.
  intros Hn Hm. unfold mineBlock.
  destruct (mineLoop_finds clock (hash lastBlock) txs
              (adjustDifficulty lastBlock (clock 0%nat)) fuel 0 n)
    as [[[m ts] h] Hloop]; [lia | exact Hm |].
  rewrite Hloop. eexists. split; [reflexivity|].
  apply mineLoop_sound in Hloop as (Hrange & _ & _ & _ & Hleast).
  cbn [Block.new nonce].
  destruct (le_lt_dec m n) as [Hle|Hlt]; [lia|].
  specialize (Hleast n ltac:(lia)). congruence.
Qed.

(** X5. A mined block is linked to its predecessor by hash, and it passes
    [validateBlockChain] exactly when its timestamp is later than the
    predecessor's and the predecessor's difficulty lies between
    MIN_DIFFICULTY - 1 and MAX_DIFFICULTY + 1: mining on a block of lower or
    higher difficulty jumps to the bound, more than one step away. *)
Theorem mined_block_links (fuel : nat) (clock : nat -> Z) (random32 : string)
    (lastBlock block : BlockData.t) (txs : list TransactionData.t)
    (quantumKeyPair : KeyPair) :
  mineBlock fuel clock random32 lastBlock txs quantumKeyPair = Some block ->
  (validateBlockChain block (Some lastBlock) = true
   <-> timestamp lastBlock < timestamp block
       /\ MIN_DIFFICULTY - 1 <= difficulty lastBlock <= MAX_DIFFICULTY + 1).
Proof.
  unfold mineBlock.
  destruct (mineLoop fuel clock _ txs _ 0) as [[[n ts] h]|]; [|discriminate].
  intros [= <-]. unfold validateBlockChain.
  cbn [Block.new lastHash difficulty timestamp].
  rewrite bool_decide_eq_true_2 by reflexivity. cbn [andb].
  rewrite andb_true_iff, Z.ltb_lt, Z.leb_le.
  unfold adjustDifficulty, MIN_DIFFICULTY, MAX_DIFFICULTY.
  destruct (Z.ltb_spec (difficulty lastBlock) 4); [lia|].
  destruct (Z.ltb_spec 24 (difficulty lastBlock)); [lia|].
  destruct (_ <? _); [lia|]. destruct (_ <? _); lia.
Qed.

End WithCapabilities.

Lemma mineBlock_sound_witness :
  exists block,
    mineBlock (caps := Scenario.miningCaps) (signer := Scenario.signer)
      10 Scenario.clock Sample.random1 Sample.genesis1 [] Scenario.keyPair = Some block
    /\ nonce block = 3 /\ difficulty block = 4
    /\ timestamp block = Scenario.clock 3.
Proof.
  eexists. split; [vm_compute; reflexivity|].
  pose proof (mineBlock_sound (caps := Scenario.miningCaps) (signer := Scenario.signer)
                10 Scenario.clock Sample.random1 Sample.genesis1 _ [] Scenario.keyPair
                eq_refl) as (_ & _ & Hd & _ & Ht & _).
  split; [vm_compute; reflexivity|]. split; [exact Hd | exact Ht].
Defined.

Lemma mineBlock_finds_witness :
  exists block,
    mineBlock (caps := Scenario.miningCaps) (signer := Scenario.signer)
      10 Scenario.clock Sample.random1 Sample.genesis1 [] Scenario.keyPair = Some block
    /\ 1 <= nonce block <= 3.
Proof.
  apply (mineBlock_finds (caps := Scenario.miningCaps) (signer := Scenario.signer)
           10 3 Scenario.clock Sample.random1 Sample.genesis1 [] Scenario.keyPair).
  - lia.
  - vm_compute. reflexivity.
Defined.

Lemma mined_block_links_witness :
  exists block,
    mineBlock (caps := Scenario.miningCaps) (signer := Scenario.signer)
      10 Scenario.clock Sample.random1 Sample.genesis1 [] Scenario.keyPair = Some block
    /\ validateBlockChain block (Some Sample.genesis1) = true.
Proof.
  eexists. split; [vm_compute; reflexivity|].
  apply (mined_block_links (caps := Scenario.miningCaps) (signer := Scenario.signer)
           10 Scenario.clock Sample.random1 Sample.genesis1 _ [] Scenario.keyPair eq_refl).
  vm_compute. repeat split; discriminate.
Defined.

End MiningProperties.

(* ===================================================================== *)
(** ** The transaction pools *)
(* ===================================================================== *)

Module PoolFacts.
Section Facts.
Context {K V : Type} `{EqDecision K}.
Implicit Types (k : K) (v : V) (m : JsMap.t K V).

Lemma delete_app_absent k v (before after : JsMap.t K V) :
  ~ In k (JsMap.keys before) ->
  JsMap.delete k (before ++ (k, v) :: after)%list = (before ++ after)%list.
Proof.
  induction before as [|[k' v'] before IH]; cbn; intros Hk.
  - destruct (decide (k = k)); [reflexivity | contradiction].
  - destruct (decide (k = k')) as [->|Hne]; [tauto|]. f_equal. apply IH. tauto.
Qed.

(** Deleting on the way, as [for (const [k, v] of map.entries())] does, keeps
    the entries that fail the test, in their order. *)
Lemma fold_delete_filter (old : V -> bool) (rest : JsMap.t K V) :
  forall kept : JsMap.t K V,
    JsMap.wf (kept ++ rest)%list ->
    fold_left
      (fun remaining '(k, v) => if old v then JsMap.delete k remaining else remaining)
      rest (kept ++ rest)%list
    = (kept ++ List.filter (fun '(_, v) => negb (old v)) rest)%list.
Proof.
  induction rest as [|[k v] rest IH]; intros kept Hwf; cbn [fold_left List.filter].
  - reflexivity.
  - destruct (old v); cbn [negb].
    + unfold JsMap.wf, JsMap.keys in Hwf. rewrite map_app in Hwf. cbn in Hwf.
      apply NoDup_app in Hwf as (Hkept & Hdisjoint & Hrest).
      apply NoDup_cons in Hrest as [Hk Hrest].
      rewrite delete_app_absent.
      * apply IH. unfold JsMap.wf, JsMap.keys. rewrite map_app.
        apply NoDup_app. split; [assumption|]. split; [|assumption].
        intros x Hx Hx'. apply (Hdisjoint x Hx). now right.
      * intros Hin. apply list_elem_of_In in Hin. apply (Hdisjoint k Hin). now left.
    + replace (kept ++ (k, v) :: rest)%list with ((kept ++ [(k, v)]) ++ rest)%list
        by now rewrite <- app_assoc.
      rewrite IH; [now rewrite <- app_assoc|].
      now rewrite <- app_assoc.
Qed.

Lemma get_fold_delete {A} (key : A -> K) (l : list A) :
  forall m k,
    JsMap.wf m ->
    JsMap.get k (fold_left (fun remaining x => JsMap.delete (key x) remaining) l m)
    = if bool_decide (k ∈ map key l) then None else JsMap.get k m.
Proof.
  induction l as [|x l IH]; intros m k Hwf; cbn [fold_left map].
  - now rewrite bool_decide_eq_false_2 by apply not_elem_of_nil.
  - rewrite IH by now apply JsMapFacts.wf_delete.
    destruct (decide (k ∈ map key l)) as [Hin|Hout].
    + rewrite !bool_decide_eq_true_2;
        [reflexivity | apply elem_of_cons; now right | assumption].
    + rewrite (bool_decide_eq_false_2 _ Hout).
      destruct (decide (key x = k)) as [<-|Hne].
      * rewrite bool_decide_eq_true_2 by (apply elem_of_cons; now left).
        now apply JsMapFacts.get_delete_eq.
      * rewrite bool_decide_eq_false_2
          by (rewrite elem_of_cons; intros [?|?]; [congruence | tauto]).
        now apply JsMapFacts.get_delete_ne.
Qed.

Lemma wf_fold_delete {A} (key : A -> K) (l : list A) :
  forall m,
    JsMap.wf m ->
    JsMap.wf (fold_left (fun remaining x => JsMap.delete (key x) remaining) l m).
Proof.
  induction l as [|x l IH]; intros m Hwf; cbn [fold_left]; [assumption|].
  now apply IH, JsMapFacts.wf_delete.
Qed.

Lemma in_delete k (entry : K * V) m : In entry (JsMap.delete k m) -> In entry m.
Proof.
  induction m as [|[k' v'] m IH]; cbn; [tauto|].
  destruct (decide (k = k')); cbn; tauto.
Qed.

Lemma in_fold_delete {A} (key : A -> K) (l : list A) (entry : K * V) :
  forall m,
    In entry (fold_left (fun remaining x => JsMap.delete (key x) remaining) l m) ->
    In entry m.
Proof.
  induction l as [|x l IH]; intros m; cbn [fold_left]; [tauto|].
  intros Hin. apply IH in Hin. now apply in_delete in Hin.
Qed.

Lemma in_set k v (entry : K * V) m :
  In entry (JsMap.set k v m) -> entry = (k, v) \/ In entry m.
Proof.
  induction m as [|[k' v'] m IH]; cbn.
  - intros [<-|[]]. now left.
  - destruct (decide (k = k')); cbn; intros [<-|Hin]; auto.
    destruct (IH Hin); auto.
Qed.

Lemma has_true k m : JsMap.has k m = true <-> JsMap.get k m <> None.
Proof. unfold JsMap.has. destruct (JsMap.get k m); split; congruence. Qed.

Lemma has_false k m : JsMap.has k m = false <-> JsMap.get k m = None.
Proof. unfold JsMap.has. destruct (JsMap.get k m); split; congruence. Qed.

Lemma wf_fold_cond_delete (old : V -> bool) (l : JsMap.t K V) :
  forall m : JsMap.t K V,
    JsMap.wf m ->
    JsMap.wf
      (fold_left
         (fun remaining '(k, v) => if old v then JsMap.delete k remaining else remaining)
         l m).
Proof.
  induction l as [|[k v] l IH]; intros m Hwf; cbn [fold_left]; [assumption|].
  apply IH. destruct (old v); [now apply JsMapFacts.wf_delete | assumption].
Qed.

Lemma in_fold_cond_delete (old : V -> bool) (l : JsMap.t K V) (entry : K * V) :
  forall m : JsMap.t K V,
    In entry
       (fold_left
          (fun remaining '(k, v) => if old v then JsMap.delete k remaining else remaining)
          l m) ->
    In entry m.
Proof.
  induction l as [|[k v] l IH]; intros m; cbn [fold_left]; [tauto|].
  intros Hin. apply IH in Hin.
  destruct (old v); [now apply in_delete in Hin | assumption].
Qed.

Lemma filter_all (test : K * V -> bool) (m : JsMap.t K V) :
  (forall entry, In entry m -> test entry = true) -> List.filter test m = m.
Proof.
  induction m as [|entry m IH]; cbn; intros Hall; [reflexivity|].
  rewrite (Hall entry) by now left. f_equal. apply IH. intros e He. apply Hall. now right.
Qed.

End Facts.
End PoolFacts.

Module MempoolProperties.
Import Mempool.

Lemma removeOldTransactions_filter (now : Z) (this : t) :
  JsMap.wf (transactions this) ->
  transactions (removeOldTransactions now this)
  = List.filter (fun '(_, entry) => negb (isOld this now entry)) (transactions this).
Proof.
  intros Hwf. unfold removeOldTransactions, setTransactions. cbn [transactions].
  exact (PoolFacts.fold_delete_filter (isOld this now) (transactions this) [] Hwf).
Qed.

Lemma removeOldTransactions_wf (now : Z) (this : t) :
  JsMap.wf (transactions this) -> JsMap.wf (transactions (removeOldTransactions now this)).
Proof. intros Hwf. now apply PoolFacts.wf_fold_cond_delete. Qed.

Lemma step_invariant (this : t) (o : operation) : invariant this -> invariant (step this o).
Proof.
  intros [Hwf Hkeyed]. destruct o as [tx now|h| |now|confirmed]; cbn [step].
  - unfold addTransaction.
    set (purged := if maxSize this <=? getSize this then _ else _).
    assert (Hp : invariant purged).
    { subst purged. destruct (_ <=? _); [|now split]. split.
      - now apply removeOldTransactions_wf.
      - intros h e Hin. apply PoolFacts.in_fold_cond_delete in Hin. now apply Hkeyed. }
    destruct Hp as [Hpwf Hpkeyed].
    destruct (negb _); cbn [snd]; [|now split]. split.
    + now apply JsMapFacts.wf_set.
    + intros h e Hin. apply PoolFacts.in_set in Hin as [[= -> ->]|Hin];
        [reflexivity | now apply Hpkeyed].
  - split; cbn.
    + now apply JsMapFacts.wf_delete.
    + intros h' e Hin. apply PoolFacts.in_delete in Hin. now apply Hkeyed.
  - split; [constructor | intros h e []].
  - split.
    + now apply removeOldTransactions_wf.
    + intros h e Hin. apply PoolFacts.in_fold_cond_delete in Hin. now apply Hkeyed.
  - split; cbn.
    + now apply PoolFacts.wf_fold_delete.
    + intros h e Hin. apply PoolFacts.in_fold_delete in Hin. now apply Hkeyed.
Qed.

Lemma run_invariant (ops : list operation) :
  forall this, invariant this -> invariant (run ops this).
Proof.
  induction ops as [|o ops IH]; intros this Hinv; [assumption|].
  apply IH. now apply step_invariant.
Qed.

Lemma new_invariant : invariant new.
Proof. split; [constructor | intros h e []]. Qed.

(** X6. [removeOldTransactions] keeps exactly the entries whose age at the
    clock reading is at most maxTransactionAge, in their order, and leaves
    the two limits alone. *)
Theorem removeOldTransactions_spec (now : Z) (this : t) :
  JsMap.wf (transactions this) ->
  transactions (removeOldTransactions now this)
  = List.filter (fun '(_, entry) => now - timestamp entry <=? maxTransactionAge this)
                (transactions this)
  /\ maxSize (removeOldTransactions now this) = maxSize this
  /\ maxTransactionAge (removeOldTransactions now this) = maxTransactionAge this.
Proof.
  intros Hwf. split; [|split; reflexivity].
  rewrite removeOldTransactions_filter by assumption.
  apply filter_ext. intros [h e]. unfold isOld. now rewrite Z.leb_antisym.
Qed.

(** X7. [addTransaction] answers false exactly when the pool already holds
    an entry under the transaction's hash that the purge of a full pool
    spares (the entry is not too old, or the pool is below maxSize); then
    that entry stays as it was.  When it answers true the transaction is
    what [getTransaction] finds under its hash. *)
Theorem addTransaction_spec (transaction : TransactionData.t) (now : Z) (this : t) :
  JsMap.wf (transactions this) ->
  (fst (addTransaction transaction now this) = false
   <-> exists entry,
         JsMap.get (TransactionData.hash transaction) (transactions this) = Some entry
         /\ (isOld this now entry = false \/ getSize this < maxSize this))
  /\ (forall entry,
        JsMap.get (TransactionData.hash transaction) (transactions this) = Some entry ->
        isOld this now entry = false \/ getSize this < maxSize this ->
        JsMap.get (TransactionData.hash transaction)
                  (transactions (snd (addTransaction transaction now this)))
        = Some entry)
  /\ (fst (addTransaction transaction now this) = true ->
      getTransaction (TransactionData.hash transaction)
                     (snd (addTransaction transaction now this))
      = Some transaction).
Proof.
  intros Hwf. unfold addTransaction.
  set (purged := if maxSize this <=? getSize this then _ else _).
  assert (Hkept : forall entry,
             JsMap.get (TransactionData.hash transaction) (transactions purged)
             = Some entry
             <-> JsMap.get (TransactionData.hash transaction) (transactions this)
                 = Some entry
                 /\ (isOld this now entry = false \/ getSize this < maxSize this)).
  { intros entry. subst purged. destruct (Z.leb_spec (maxSize this) (getSize this)).
    - pose proof (removeOldTransactions_wf now this Hwf) as Hwf'.
      pose proof (removeOldTransactions_filter now this Hwf) as Heq. split.
      + intros Hg. apply JsMapFacts.get_Some_in in Hg. rewrite Heq in Hg.
        apply filter_In in Hg as [Hin Hyoung]. apply negb_true_iff in Hyoung.
        split; [now apply JsMapFacts.in_get | now left].
      + intros [Hg [Hyoung|Hroom]]; [|lia].
        apply JsMapFacts.in_get; [assumption|]. rewrite Heq. apply filter_In.
        split; [now apply JsMapFacts.get_Some_in | now rewrite Hyoung].
    - split; [intros Hg; split; [assumption | now right] | now intros [Hg _]]. }
  unfold JsMap.has.
  destruct (JsMap.get (TransactionData.hash transaction) (transactions purged))
    as [found|] eqn:Hfound; cbn [negb fst snd].
  - split; [|split].
    + split; [intros _|reflexivity]. exists found. now apply Hkept.
    + intros entry Hg Hspared. rewrite Hfound.
      exact (proj2 (Hkept entry) (conj Hg Hspared)).
    + discriminate.
  - split; [|split].
    + split; [discriminate|]. intros (entry & Hg & Hspared).
      now pose proof (proj2 (Hkept entry) (conj Hg Hspared)).
    + intros entry Hg Hspared.
      now pose proof (proj2 (Hkept entry) (conj Hg Hspared)).
    + intros _. unfold getTransaction, setTransactions. cbn [transactions].
      now rewrite JsMapFacts.get_set_eq.
Qed.

(** X8. maxSize is no bound on the pool: when no entry is older than
    maxTransactionAge and the hash is new, [addTransaction] stores the
    transaction as the last entry and the pool grows by one, however many
    entries it holds. *)
Theorem addTransaction_grows_past_maxSize (transaction : TransactionData.t) (now : Z)
    (this : t) :
  JsMap.wf (transactions this) ->
  (forall hash entry, In (hash, entry) (transactions this) -> isOld this now entry = false) ->
  hasTransaction (TransactionData.hash transaction) this = false ->
  fst (addTransaction transaction now this) = true
  /\ getSize (snd (addTransaction transaction now this)) = getSize this + 1
  /\ getMempoolTransactions (snd (addTransaction transaction now this))
     = (getMempoolTransactions this ++ [transaction])%list.
Proof.
  intros Hwf Hyoung Hnew. unfold addTransaction.
  set (purged := if maxSize this <=? getSize this then _ else _).
  assert (Hsame : transactions purged = transactions this).
  { subst purged. destruct (_ <=? _); [|reflexivity].
    rewrite removeOldTransactions_filter by assumption.
    apply PoolFacts.filter_all. intros [h e] Hin. now rewrite (Hyoung h e Hin). }
  unfold hasTransaction in Hnew. rewrite Hsame, Hnew. cbn [negb fst snd].
  apply PoolFacts.has_false in Hnew.
  unfold getSize, getMempoolTransactions, setTransactions. cbn [transactions].
  rewrite Hsame, JsMapFacts.set_absent by assumption.
  unfold JsMap.values. rewrite length_app, !map_app. cbn. split; [reflexivity|].
  split; [lia | reflexivity].
Qed.

(** X9. [removeTransaction] answers whether the hash was in the pool;
    afterwards the hash is absent and every other hash is found as
    before. *)
Theorem removeTransaction_spec (transactionHash : string) (this : t) :
  JsMap.wf (transactions this) ->
  fst (removeTransaction transactionHash this) = hasTransaction transactionHash this
  /\ hasTransaction transactionHash (snd (removeTransaction transactionHash this)) = false
  /\ forall other,
       other <> transactionHash ->
       getTransaction other (snd (removeTransaction transactionHash this))
       = getTransaction other this.
Proof.
  intros Hwf. unfold removeTransaction, hasTransaction, getTransaction, setTransactions.
  cbn [fst snd transactions]. split; [reflexivity|]. split.
  - apply PoolFacts.has_false. now apply JsMapFacts.get_delete_eq.
  - intros other Hne. now rewrite JsMapFacts.get_delete_ne by congruence.
Qed.

(** X10. [removeConfirmedTransactions] removes the hashes of the confirmed
    transactions and nothing else. *)
Theorem removeConfirmedTransactions_spec (confirmed : list TransactionData.t)
    (transactionHash : string) (this : t) :
  JsMap.wf (transactions this) ->
  getTransaction transactionHash (removeConfirmedTransactions confirmed this)
  = if bool_decide (transactionHash ∈ map TransactionData.hash confirmed)
    then None else getTransaction transactionHash this.
Proof.
  intros Hwf. unfold getTransaction, removeConfirmedTransactions, setTransactions.
  cbn [transactions]. rewrite PoolFacts.get_fold_delete by assumption.
  now destruct (bool_decide _).
Qed.

(** X11. Whatever calls were made on a pool since its construction, it lists
    no two transactions with the same hash, and [getTransaction] finds every
    listed transaction under its hash. *)
Theorem pool_lists_each_hash_once (ops : list operation) :
  NoDup (map TransactionData.hash (getMempoolTransactions (run ops new)))
  /\ forall tx,
       In tx (getMempoolTransactions (run ops new)) ->
       getTransaction (TransactionData.hash tx) (run ops new) = Some tx.
Proof.
  destruct (run_invariant ops new new_invariant) as [Hwf Hkeyed].
  unfold getMempoolTransactions, getTransaction, keyed, JsMap.wf in *.
  set (m := transactions (run ops new)) in *. clearbody m. split.
  - replace (map TransactionData.hash (map transaction (JsMap.values m)))
      with (JsMap.keys m); [assumption|].
    clear Hwf. induction m as [|[h e] m IH]; [reflexivity|]. cbn.
    rewrite (Hkeyed h e) by now left. f_equal. apply IH.
    intros h' e' Hin. apply Hkeyed. now right.
  - intros tx Hin. apply in_map_iff in Hin as (e & <- & Hin).
    apply in_map_iff in Hin as ([h e'] & He & Hin). cbn in He. subst e'.
    rewrite (Hkeyed h e Hin). now rewrite (JsMapFacts.in_get h e m Hwf Hin).
Qed.

(** X27. Once [removeOldTransactions] has run, every transaction left in a
    pool that holds no entry stamped after the clock reading is in the time
    range from that reading minus maxTransactionAge to that reading:
    [getTransactionsByTimeRange] on that range lists the whole pool. *)
Theorem removeOldTransactions_leaves_time_range (now : Z) (this : t) :
  JsMap.wf (transactions this) ->
  (forall hash entry, In (hash, entry) (transactions this) -> timestamp entry <= now) ->
  getTransactionsByTimeRange (now - maxTransactionAge this) now
                             (removeOldTransactions now this)
  = getMempoolTransactions (removeOldTransactions now this).
Proof.
  intros Hwf Hpast. unfold getTransactionsByTimeRange, getMempoolTransactions.
  rewrite removeOldTransactions_filter by assumption. f_equal.
  unfold JsMap.values.
  induction (transactions this) as [|[h e] m IH]; [reflexivity|].
  assert (Hrest : forall hash entry, In (hash, entry) m -> timestamp entry <= now)
    by (intros h' e' Hin; apply (Hpast h' e'); now right).
  apply NoDup_cons in Hwf as [_ Hwf]. specialize (IH Hwf Hrest).
  cbn [List.filter]. destruct (isOld this now e) eqn:Hold; cbn [negb]; [exact IH|].
  unfold isOld in Hold. apply Z.ltb_ge in Hold.
  cbn [map snd List.filter].
  pose proof (Hpast h e ltac:(now left)) as Hle.
  rewrite (proj2 (Z.leb_le (now - maxTransactionAge this) (timestamp e))) by lia.
  rewrite (proj2 (Z.leb_le (timestamp e) now)) by lia. cbn [andb].
  now rewrite IH.
Qed.

Lemma pool_wf : JsMap.wf (transactions Scenario.pool).
Proof. exact (proj1 (run_invariant _ new new_invariant)). Qed.

Lemma removeOldTransactions_spec_witness :
  map fst (transactions (removeOldTransactions 1700003602000 Scenario.pool))
  = [TransactionData.hash Scenario.payment].
Proof.
  rewrite (proj1 (removeOldTransactions_spec 1700003602000 Scenario.pool pool_wf)).
  vm_compute. reflexivity.
Defined.

Lemma addTransaction_spec_witness :
  fst (addTransaction Sample.transfer 1700002500000 Scenario.pool) = false.
Proof.
  apply (proj1 (addTransaction_spec Sample.transfer 1700002500000 Scenario.pool pool_wf)).
  eexists. split; [vm_compute; reflexivity|]. left. vm_compute. reflexivity.
Defined.

Lemma addTransaction_grows_past_maxSize_witness :
  maxSize Scenario.smallPool <= getSize Scenario.smallPool
  /\ getSize (snd (addTransaction Scenario.deposit 1700002500000 Scenario.smallPool)) = 3.
Proof.
  split; [vm_compute; discriminate|].
  refine (proj1 (proj2 (addTransaction_grows_past_maxSize Scenario.deposit 1700002500000
                          Scenario.smallPool pool_wf _ _))).
  - intros h e Hin. vm_compute in Hin.
    destruct Hin as [[= <- <-]|[[= <- <-]|[]]]; vm_compute; reflexivity.
  - vm_compute. reflexivity.
Defined.

Lemma removeTransaction_spec_witness :
  hasTransaction (TransactionData.hash Sample.transfer)
    (snd (removeTransaction (TransactionData.hash Sample.transfer) Scenario.pool)) = false.
Proof.
  exact (proj1 (proj2 (removeTransaction_spec (TransactionData.hash Sample.transfer)
                         Scenario.pool pool_wf))).
Defined.

Lemma removeConfirmedTransactions_spec_witness :
  getTransaction (TransactionData.hash Scenario.payment)
                 (removeConfirmedTransactions [Sample.transfer] Scenario.pool)
  = Some Scenario.payment.
Proof.
  rewrite (removeConfirmedTransactions_spec [Sample.transfer]
             (TransactionData.hash Scenario.payment) Scenario.pool pool_wf).
  vm_compute. reflexivity.
Defined.

Lemma removeOldTransactions_leaves_time_range_witness :
  getTransactionsByTimeRange (1700003602000 - maxTransactionAge Scenario.pool)
                             1700003602000
                             (removeOldTransactions 1700003602000 Scenario.pool)
  = [Scenario.payment].
Proof.
  rewrite (removeOldTransactions_leaves_time_range 1700003602000 Scenario.pool pool_wf).
  - vm_compute. reflexivity.
  - intros h e Hin. vm_compute in Hin.
    destruct Hin as [[= <- <-]|[[= <- <-]|[]]]; vm_compute; discriminate.
Defined.

End MempoolProperties.

Module NodeProperties.
Import Node.

Lemma isInChain_true (hash : string) (chain : list BlockData.t) :
  isInChain hash chain = true
  <-> exists block tx,
        In block chain /\ In tx (BlockData.transactions block)
        /\ TransactionData.hash tx = hash.
Proof.
  unfold isInChain. rewrite existsb_exists. split.
  - intros (block & Hb & Htx). apply existsb_exists in Htx as (tx & Htx & Hh).
    exists block, tx. repeat split; try assumption. now apply bool_decide_eq_true in Hh.
  - intros (block & tx & Hb & Htx & Hh). exists block. split; [assumption|].
    apply existsb_exists. exists tx. split; [assumption|].
    now apply bool_decide_eq_true.
Qed.

Section WithVerifier.
Context {verifier : StringVerifier}.

Lemma isValidTransaction_chain (transaction : TransactionData.t) (this this' : t) :
  chain this' = chain this ->
  isValidTransaction transaction this' = isValidTransaction transaction this.
Proof. intros Hc. unfold isValidTransaction. now rewrite Hc. Qed.

Lemma isValidTransaction_true (transaction : TransactionData.t) (this : t) :
  isValidTransaction transaction this = true ->
  TransactionData.hash transaction <> ""
  /\ TransactionData.signature transaction <> None
  /\ isInChain (TransactionData.hash transaction) (chain this) = false.
Proof.
  unfold isValidTransaction.
  destruct (bool_decide_reflect (TransactionData.hash transaction = ""));
    [discriminate|].
  destruct (TransactionData.signature transaction); [|discriminate].
  destruct (isInChain _ _); [discriminate|]. intros _. repeat split; congruence.
Qed.

Lemma step_pooled (this : t) (o : operation) :
  pooled this -> pooled (step this o) /\ chain (step this o) = chain this.
Proof.
  intros [Hwf Hall]. destruct o as [tx|confirmed]; cbn [step].
  - unfold addToMempool.
    destruct (JsMap.has _ _); cbn [negb andb snd];
      [split; [now split | reflexivity]|].
    destruct (isValidTransaction tx this) eqn:Hv; cbn [snd];
      [|split; [now split | reflexivity]].
    split; [|reflexivity]. split; cbn [mempool].
    + now apply JsMapFacts.wf_set.
    + intros h tx' Hin. apply PoolFacts.in_set in Hin as [[= -> ->]|Hin].
      * split; [reflexivity|]. now rewrite <- Hv.
      * destruct (Hall h tx' Hin) as [Hh Hv']. split; [assumption|].
        now rewrite <- Hv'.
  - split; [|reflexivity]. split; cbn [mempool clearMempool].
    + now apply PoolFacts.wf_fold_delete.
    + intros h tx' Hin. apply PoolFacts.in_fold_delete in Hin.
      destruct (Hall h tx' Hin) as [Hh Hv']. split; [assumption|].
      now rewrite <- Hv'.
Qed.

Lemma run_pooled (ops : list operation) :
  forall this, pooled this -> pooled (run ops this) /\ chain (run ops this) = chain this.
Proof.
  induction ops as [|o ops IH]; intros this Hp; [now split|].
  destruct (step_pooled this o Hp) as [Hp' Hc].
  destruct (IH _ Hp') as [Hp'' Hc']. split; [assumption|].
  unfold run in *. cbn [fold_left]. now rewrite Hc'.
Qed.

(** X12. Whatever calls of [addToMempool] and [clearMempool] a node has
    served since its pool was empty, its chain is untouched, its pool lists
    no two transactions with the same hash, and every listed transaction has
    a non-empty hash and a signature, occurs in no block of the chain, passed
    [isValidTransaction], and is filed under its hash. *)
Theorem node_pool_invariant (ops : list operation) (blocks : list BlockData.t) :
  let this := run ops {| chain := blocks; mempool := [] |} in
  chain this = blocks
  /\ NoDup (map TransactionData.hash (getMempoolTransactions this))
  /\ forall tx,
       In tx (getMempoolTransactions this) ->
       TransactionData.hash tx <> ""
       /\ TransactionData.signature tx <> None
       /\ isInChain (TransactionData.hash tx) blocks = false
       /\ isValidTransaction tx this = true
       /\ JsMap.get (TransactionData.hash tx) (mempool this) = Some tx.
Proof.
  cbv zeta.
  destruct (run_pooled ops {| chain := blocks; mempool := [] |}) as [[Hwf Hall] Hc].
  { split; [constructor | intros h tx []]. }
  cbn [chain] in Hc. split; [assumption|].
  unfold getMempoolTransactions, JsMap.wf in *.
  set (this := run ops _) in *. clearbody this. split.
  - replace (map TransactionData.hash (JsMap.values (mempool this)))
      with (JsMap.keys (mempool this)); [assumption|].
    assert (Hkeys : forall h tx, In (h, tx) (mempool this) -> TransactionData.hash tx = h)
      by (intros h tx Hin; now apply Hall).
    clear Hwf Hall. induction (mempool this) as [|[h tx] m IH]; [reflexivity|]. cbn.
    rewrite (Hkeys h tx) by now left. f_equal. apply IH.
    intros h' tx' Hin. apply Hkeys. now right.
  - intros tx Hin. apply in_map_iff in Hin as ([h tx'] & Htx & Hin). cbn in Htx.
    subst tx'. destruct (Hall h tx Hin) as [Hh Hv].
    destruct (isValidTransaction_true tx this Hv) as (Hne & Hsig & Hchain).
    rewrite Hc in Hchain. repeat split; try assumption.
    rewrite Hh. now apply JsMapFacts.in_get.
Qed.

(** X13. [addToMempool] answers false and changes nothing when the pool
    already holds the hash, when some block of the chain lists a transaction
    with that hash, when the hash is empty or when the signature is missing;
    whenever it answers false the node is unchanged, and when it answers true
    the transaction is the last one listed and the chain is unchanged. *)
Theorem addToMempool_spec (transaction : TransactionData.t) (this : t) :
  (JsMap.get (TransactionData.hash transaction) (mempool this) <> None
   \/ (exists block tx,
         In block (chain this) /\ In tx (BlockData.transactions block)
         /\ TransactionData.hash tx = TransactionData.hash transaction)
   \/ TransactionData.hash transaction = ""
   \/ TransactionData.signature transaction = None ->
   addToMempool transaction this = (false, this))
  /\ (fst (addToMempool transaction this) = false ->
      snd (addToMempool transaction this) = this)
  /\ (fst (addToMempool transaction this) = true ->
      getMempoolTransactions (snd (addToMempool transaction this))
      = (getMempoolTransactions this ++ [transaction])%list
      /\ chain (snd (addToMempool transaction this)) = chain this).
Proof.
  unfold addToMempool. split; [|split].
  - intros [Hheld|[Hchain|[Hempty|Hsig]]].
    + apply PoolFacts.has_true in Hheld. now rewrite Hheld.
    + apply isInChain_true in Hchain. unfold isValidTransaction. rewrite Hchain.
      destruct (bool_decide _), (TransactionData.signature transaction);
        now rewrite andb_false_r.
    + unfold isValidTransaction. rewrite bool_decide_eq_true_2 by assumption.
      now rewrite andb_false_r.
    + unfold isValidTransaction. rewrite Hsig.
      destruct (bool_decide _); now rewrite andb_false_r.
  - destruct (_ && _); [discriminate | reflexivity].
  - destruct (JsMap.has _ _) eqn:Hhas; cbn [negb andb]; [discriminate|].
    destruct (isValidTransaction _ _); [|discriminate]. intros _. cbn [snd].
    split; [|reflexivity]. unfold getMempoolTransactions. cbn [mempool].
    apply PoolFacts.has_false in Hhas. rewrite JsMapFacts.set_absent by assumption.
    unfold JsMap.values. now rewrite map_app.
Qed.

End WithVerifier.

(** X14. [clearMempool] removes the hashes of the confirmed transactions from
    the pool and nothing else, and leaves the chain alone. *)
Theorem clearMempool_spec (confirmed : list TransactionData.t) (hash : string)
    (this : t) :
  JsMap.wf (mempool this) ->
  JsMap.get hash (mempool (clearMempool confirmed this))
  = (if bool_decide (hash ∈ map TransactionData.hash confirmed)
     then None else JsMap.get hash (mempool this))
  /\ chain (clearMempool confirmed this) = chain this.
Proof.
  intros Hwf. split; [|reflexivity]. unfold clearMempool. cbn [mempool].
  now apply PoolFacts.get_fold_delete.
Qed.

(** X15. An address that no transaction of the chain names as sender or
    recipient has balance 0. *)
Theorem getBalance_untouched (address : string) (this : t) :
  (forall block tx,
      In block (chain this) -> In tx (BlockData.transactions block) ->
      TransactionData.sender tx <> address /\ TransactionData.recipient tx <> address) ->
  getBalance address this = 0%float.
Proof.
  unfold getBalance. generalize 0%float as balance.
  induction (chain this) as [|block blocks IH]; intros balance Hno; [reflexivity|].
  cbn [fold_left]. rewrite IH by (intros b tx Hb; apply Hno; now right).
  assert (Hblock : forall tx, In tx (BlockData.transactions block) ->
                     TransactionData.sender tx <> address
                     /\ TransactionData.recipient tx <> address)
    by (intros tx; apply Hno; now left).
  clear IH Hno. revert balance.
  induction (BlockData.transactions block) as [|tx txs IHt]; intros balance;
    [reflexivity|].
  cbn [fold_left]. destruct (Hblock tx) as [Hs Hr]; [now left|].
  rewrite !bool_decide_eq_false_2 by assumption.
  apply IHt. intros tx' Hin. apply Hblock. now right.
Qed.

Section WithStorage.
Context {store : Storage}.

(** X16. [getBlockByHeight] at the height that [getBlockHeight] reports finds
    the last block of the chain (null on an empty chain, whose height is -1),
    and finds nothing one above. *)
Theorem getBlockByHeight_at_height (this : Blockchain.t)
    (pool : JsMap.t string TransactionData.t) :
  let height := getBlockHeight {| chain := Blockchain.chain this; mempool := pool |} in
  Blockchain.getBlockByHeight (JsNum.Int height) this
  = match last (Blockchain.chain this) with
    | Some block => Blockchain.Found block
    | None => Blockchain.Null
    end
  /\ Blockchain.getBlockByHeight (JsNum.Int (height + 1)) this = Blockchain.Null.
Proof.
  cbv zeta. unfold getBlockHeight, Blockchain.getBlockByHeight. cbn [chain].
  cbn [JsNum.ltZ JsNum.geZ JsNum.index].
  set (blocks := Blockchain.chain this). split.
  - destruct (Z.ltb_spec (Z.of_nat (length blocks) - 1) 0) as [Hempty|Hsome].
    + destruct blocks; [reflexivity | cbn in Hempty; lia].
    + cbn [orb]. rewrite (proj2 (Z.leb_gt _ _)) by lia.
      rewrite (proj2 (Z.leb_le _ _)) by lia.
      replace (Z.to_nat (Z.of_nat (length blocks) - 1)) with (Nat.pred (length blocks))
        by lia.
      rewrite <- last_lookup. destruct (last blocks) eqn:Hlast; [reflexivity|].
      apply last_None in Hlast. rewrite Hlast in Hsome. cbn in Hsome. lia.
  - rewrite (proj2 (Z.leb_le _ _)) by lia. now rewrite orb_true_r.
Qed.

End WithStorage.

Lemma node_wf : JsMap.wf (mempool Scenario.node).
Proof.
  apply (run_pooled (verifier := Scenario.verifier)).
  split; [constructor | intros h tx []].
Qed.

Lemma clearMempool_spec_witness :
  JsMap.get (TransactionData.hash Scenario.payment)
            (mempool (clearMempool [Scenario.payment] Scenario.node)) = None.
Proof.
  rewrite (proj1 (clearMempool_spec [Scenario.payment]
                    (TransactionData.hash Scenario.payment) Scenario.node node_wf)).
  vm_compute. reflexivity.
Defined.

Lemma getBalance_untouched_witness : getBalance "dave" Scenario.node = 0%float.
Proof.
  apply getBalance_untouched. intros block tx Hb Htx. vm_compute in Hb.
  destruct Hb as [<-|[<-|[]]]; vm_compute in Htx; [destruct Htx|].
  destruct Htx as [<-|[]]. split; discriminate.
Defined.

End NodeProperties.

(* ===================================================================== *)
(** ** ConsensusManager: registration, selection and block validation *)
(* ===================================================================== *)

Module RegistryProperties.
Import ConsensusManager.

Section WithCapabilities.
Context {caps : Capabilities} {collaborator : Collaborator}.

(** No method fills an empty registry. *)
Lemma step_registry_empty (this : t) (o : operation) :
  validators this = [] -> validators (step this o) = [].
Proof.
  intros Hempty.
  destruct o as [a s pk now| | b v now | a b now | | e l]; cbn [step];
    try assumption.
  - now rewrite (proj1 (ConsensusProperties.registerValidator_throws a s pk now this)).
  - unfold validateBlock.
    destruct (negb _); [assumption|]. destruct (negb _); [assumption|].
    cbn [snd]. unfold updateValidatorStats. rewrite Hempty. cbn. assumption.
  - unfold updateValidatorStats. rewrite Hempty. cbn. assumption.
  - unfold distributeRewards.
    now destruct (creditAll _ l) as [[[u|e'] credited] l'].
Qed.

Lemma run_registry_empty (ops : list operation) :
  forall this, validators this = [] -> validators (run ops this) = [].
Proof.
  induction ops as [|o ops IH]; intros this Hempty; [assumption|].
  apply IH. now apply step_registry_empty.
Qed.

(** X17. [registerValidator] never registers.  It throws for a stake below
    the minimum, then for an address already registered, and otherwise at
    the proof it asks KyberUtils for, which KyberUtils cannot generate: the
    call ends with that TypeError before the registry is written.  The
    manager is left as it was in all three cases, so the registry of a
    manager driven from its constructor through its methods stays empty. *)
Theorem registerValidator_never_registers (address : string) (stake : Z)
    (publicKey : string) (now : Z) (this : t) :
  registerValidator address stake publicKey now this
  = (Throw
       (if stake <? minStake this
        then "Minimum stake requirement not met. Required: " +:+ pretty (minStake this)
        else if JsMap.has address (validators this)
             then "Validator already registered"
             else "TypeError: KyberUtils.generateValidatorProof is not a function"),
     this)
  /\ forall ops : list operation, validators (run ops new) = [].
Proof.
  split.
  - unfold registerValidator. destruct (_ <? _); [reflexivity|].
    now destruct (JsMap.has _ _).
  - intros ops. now apply run_registry_empty.
Qed.

(** X18. [selectNextValidator] never returns a validator.  With fewer than
    minValidators active validators it throws the not-enough-validators
    error; with enough of them it asks KyberUtils for random bytes, which
    KyberUtils cannot generate, and ends with that TypeError before any
    validator is weighed.  On a manager driven from its constructor through
    its methods it is always the first error, the registry being empty. *)
Theorem selectNextValidator_never_returns (now : Z) (this : t) :
  let activeValidators :=
    List.filter (isValidatorActive now) (JsMap.values (validators this)) in
  selectNextValidator now this
  = Throw (if Z.of_nat (length activeValidators) <? config.consensus.minValidators
           then "Not enough active validators"
           else "TypeError: KyberUtils.generateRandomBytes is not a function")
  /\ forall ops : list operation,
       selectNextValidator now (run ops new) = Throw "Not enough active validators".
Proof.
  cbv zeta. split.
  - unfold selectNextValidator. now destruct (_ <? _).
  - intros ops. unfold selectNextValidator.
    now rewrite (run_registry_empty ops new eq_refl).
Qed.

(** X19. [validateBlock] answers true exactly when the block's proof verifies
    under the key of the validator object it is given and that object is
    active; whether the validator is registered plays no part.  A call that
    answers false changes nothing; one that answers true changes at most the
    registry entry under the validator's address, and nothing at all when
    that address is not registered.  The epoch bookkeeping is never
    written. *)
Theorem validateBlock_spec (block : BlockData.t) (validator : Validator) (now : Z)
    (this : t) :
  let result := validateBlock block validator now this in
  fst result
  = KyberUtils.verifyBlockProof (BlockData.hash block) (BlockData.quantumProof block)
      (Some (publicKey validator))
    && isValidatorActive now validator
  /\ (fst result = false -> snd result = this)
  /\ (JsMap.get (address validator) (validators this) = None -> snd result = this)
  /\ (forall other,
        other <> address validator ->
        JsMap.get other (validators (snd result)) = JsMap.get other (validators this))
  /\ epochBlocks (snd result) = epochBlocks this
  /\ currentEpoch (snd result) = currentEpoch this
  /\ minStake (snd result) = minStake this.
Proof.
  cbv zeta. unfold validateBlock.
  destruct (KyberUtils.verifyBlockProof _ _ _); cbn [negb andb fst snd];
    [|repeat split; auto].
  destruct (isValidatorActive now validator); cbn [negb fst snd];
    [|repeat split; auto].
  unfold updateValidatorStats.
  destruct (JsMap.get (address validator) (validators this)) as [entry|] eqn:Hentry;
    [|repeat split; auto].
  cbn [validators epochBlocks currentEpoch minStake].
  repeat split; try discriminate.
  intros other Hne. now rewrite JsMapFacts.get_set_ne by congruence.
Qed.

End WithCapabilities.

(** The registration of the unit test, and a selection among the five
    validators its set-up means to register. *)
Example registration_of_the_test :
  registerValidator "validator-address" 1000000 "key" 1700000000000 new
  = (Throw "TypeError: KyberUtils.generateValidatorProof is not a function", new)
  /\ length (List.filter (isValidatorActive 1700000000001)
               (JsMap.values (validators Sample.registry))) = 5%nat
  /\ selectNextValidator 1700000000001 Sample.registry
     = Throw "TypeError: KyberUtils.generateRandomBytes is not a function".
Proof. repeat split; vm_compute; reflexivity. Qed.

End RegistryProperties.

(* ===================================================================== *)
(** ** ShardManager: initialization, routing, validators and quorum *)
(* ===================================================================== *)

Module ShardManagerProperties.
Import ShardManager ShardAssignment.

Lemma fold_fewer (entries : JsMap.t string Shard) :
  forall (target : string) (least : nat),
    exists id n,
      fold_left fewer entries (Some target, Some least) = (Some id, Some n)
      /\ ((id = target /\ n = least
           /\ Forall (fun entry => least <= size (validatorSet entry.2))%nat entries)
          \/ exists before shard after,
               entries = (before ++ (id, shard) :: after)%list
               /\ n = size (validatorSet shard) /\ (n < least)%nat
               /\ Forall (fun entry => n < size (validatorSet entry.2))%nat before
               /\ Forall (fun entry => n <= size (validatorSet entry.2))%nat after).
Proof.
  induction entries as [|[k sh] rest IH]; intros target least; cbn [fold_left].
  - exists target, least. split; [reflexivity|]. left. repeat split. constructor.
  - unfold fewer at 2.
    destruct (bool_decide_reflect (size (validatorSet sh) < least)%nat) as [Hlt|Hge].
    + destruct (IH k (size (validatorSet sh))) as (id & n & Hfold & Hcase).
      exists id, n. split; [exact Hfold|]. right.
      destruct Hcase as [(-> & -> & Hall)|(before & shard & after & -> & -> & Hn & Hb & Ha)].
      * exists [], sh, rest. repeat split; [assumption | constructor | assumption].
      * exists ((k, sh) :: before), shard, after.
        repeat split; [lia | constructor; assumption | assumption].
    + destruct (IH target least) as (id & n & Hfold & Hcase).
      exists id, n. split; [exact Hfold|].
      destruct Hcase as [(-> & -> & Hall)|(before & shard & after & -> & -> & Hn & Hb & Ha)].
      * left. repeat split. constructor; [cbn; lia | assumption].
      * right. exists ((k, sh) :: before), shard, after.
        repeat split; [assumption | constructor; [cbn; lia | assumption] | assumption].
Qed.

(** The search ends on the first shard, in insertion order, among those with
    the fewest validators. *)
Lemma fewest_spec (entries : JsMap.t string Shard) :
  entries <> [] ->
  exists id shard before after,
    fewest entries = (Some id, Some (size (validatorSet shard)))
    /\ entries = (before ++ (id, shard) :: after)%list
    /\ Forall (fun entry => size (validatorSet shard) < size (validatorSet entry.2))%nat
              before
    /\ Forall (fun entry => size (validatorSet shard) <= size (validatorSet entry.2))%nat
              after.
Proof.
  destruct entries as [|[k sh] rest]; [contradiction|]. intros _.
  unfold fewest. cbn [fold_left]. unfold fewer at 2.
  destruct (fold_fewer rest k (size (validatorSet sh))) as (id & n & Hfold & Hcase).
  destruct Hcase as [(-> & -> & Hall)|(before & shard & after & -> & -> & Hn & Hb & Ha)].
  - exists k, sh, [], rest. repeat split; [assumption | constructor | assumption].
  - exists id, shard, ((k, sh) :: before), after.
    repeat split; [assumption | constructor; assumption | assumption].
Qed.

Lemma size_add (validatorPublicKey : string) (validators : gset string) :
  (size validators <= size ({[validatorPublicKey]} ∪ validators) <= size validators + 1)%nat.
Proof.
  split; [apply subseteq_size; set_solver|].
  destruct (decide (validatorPublicKey ∈ validators)) as [Hin|Hout].
  - assert (Hsame : {[validatorPublicKey]} ∪ validators = validators)
      by (apply leibniz_equiv, subseteq_union_1, singleton_subseteq_l, Hin).
    rewrite Hsame. lia.
  - rewrite size_union by set_solver. rewrite size_singleton. lia.
Qed.

Section WithCapabilities.
Context {caps : Capabilities}.

(** What a call that returns did. *)
Lemma assignValidatorToShard_Return (validatorPublicKey : string) (signature : Proof)
    (this this' : t) (target : string) :
  JsMap.wf (shards this) ->
  assignValidatorToShard validatorPublicKey signature this = (Return target, this') ->
  exists before shard after,
    shards this = (before ++ (target, shard) :: after)%list
    /\ JsMap.get target (shards this) = Some shard
    /\ Forall (fun entry => size (validatorSet shard) < size (validatorSet entry.2))%nat
              before
    /\ Forall (fun entry => size (validatorSet shard) <= size (validatorSet entry.2))%nat
              after
    /\ this' = setShardValidators (insert validatorPublicKey target)
                 (setShards (JsMap.set target (addValidator validatorPublicKey shard))
                            this).
Proof.
  intros Hwf. unfold assignValidatorToShard.
  destruct (negb _); [discriminate|].
  destruct (decide (shards this = [])) as [Hnil|Hsome];
    [rewrite Hnil; discriminate|].
  destruct (fewest_spec (shards this) Hsome)
    as (id & shard & before & after & Hf & Hsplit & Hb & Ha).
  rewrite Hf. cbn [fst]. destruct (bool_decide (id = "")); [discriminate|].
  assert (Hget : JsMap.get id (shards this) = Some shard).
  { apply JsMapFacts.in_get; [assumption|]. rewrite Hsplit.
    apply in_or_app. right. now left. }
  unfold bind, updateShard. rewrite Hget. unfold ret. intros [= <- <-].
  exists before, shard, after. repeat split; assumption.
Qed.

(** X20. [assignValidatorToShard] throws without writing when the signature
    does not verify or there is no shard.  When it returns, the shard it names
    is the first one, in insertion order, among the shards with the fewest
    validators; the key has joined that shard's validator set, no other set
    changed, [getValidatorShard] answers that shard for the key, and no shard
    was added or removed. *)
Theorem assignValidatorToShard_spec (validatorPublicKey : string) (signature : Proof)
    (this : t) :
  JsMap.wf (shards this) ->
  let result := assignValidatorToShard validatorPublicKey signature this in
  (KyberUtils.verifySignature (Utf8Buffer validatorPublicKey) (Some signature)
     (Some validatorPublicKey) = false ->
   result = (Throw "Invalid validator signature", this))
  /\ (KyberUtils.verifySignature (Utf8Buffer validatorPublicKey) (Some signature)
        (Some validatorPublicKey) = true ->
      shards this = [] ->
      result = (Throw "No available shards", this))
  /\ (forall target,
        fst result = Return target ->
        (exists before shard after,
            shards this = (before ++ (target, shard) :: after)%list
            /\ Forall (fun entry =>
                         size (validatorSet shard) < size (validatorSet entry.2))%nat
                      before
            /\ Forall (fun entry =>
                         size (validatorSet shard) <= size (validatorSet entry.2))%nat
                      after)
        /\ validatorsOf target (snd result)
           = {[validatorPublicKey]} ∪ validatorsOf target this
        /\ (forall other,
              other <> target ->
              validatorsOf other (snd result) = validatorsOf other this)
        /\ getValidatorShard validatorPublicKey (snd result) = Some target
        /\ JsMap.keys (shards (snd result)) = JsMap.keys (shards this)).
Proof.
  intros Hwf. cbv zeta. split; [|split].
  - intros Hv. unfold assignValidatorToShard. now rewrite Hv.
  - intros Hv Hnone. unfold assignValidatorToShard. now rewrite Hv, Hnone.
  - intros target Hret.
    destruct (assignValidatorToShard validatorPublicKey signature this)
      as [outcome this'] eqn:Hrun.
    cbn [fst snd] in *. subst outcome.
    destruct (assignValidatorToShard_Return _ _ _ _ _ Hwf Hrun)
      as (before & shard & after & Hsplit & Hget & Hb & Ha & ->).
    split; [now exists before, shard, after|]. split; [|split; [|split]].
    + unfold validatorsOf at 1 2. cbn [shards setShardValidators setShards].
      now rewrite JsMapFacts.get_set_eq, Hget.
    + intros other Hne. unfold validatorsOf. cbn [shards setShardValidators setShards].
      now rewrite JsMapFacts.get_set_ne by congruence.
    + unfold getValidatorShard. cbn [shardValidators setShardValidators].
      apply lookup_insert_eq.
    + cbn [shards setShardValidators setShards].
      apply JsMapFacts.keys_set_present. congruence.
Qed.

(** X21. [assignValidatorToShard] keeps the shards balanced (the validator
    sets of any two shards differ in size by one at most) and keeps every
    validator a member of the shard recorded for it; it never removes a
    validator from a set, so a key assigned twice can sit in two shards while
    [getValidatorShard] names the later one. *)
Theorem assignValidatorToShard_keeps_balance (validatorPublicKey : string)
    (signature : Proof) (this : t) :
  JsMap.wf (shards this) ->
  balanced this ->
  recorded this ->
  let this' := snd (assignValidatorToShard validatorPublicKey signature this) in
  JsMap.wf (shards this')
  /\ balanced this'
  /\ recorded this'
  /\ forall shardId, validatorsOf shardId this ⊆ validatorsOf shardId this'.
Proof.
  intros Hwf Hbal Hrec. cbv zeta.
  destruct (assignValidatorToShard validatorPublicKey signature this)
    as [[target|message] this'] eqn:Hrun; cbn [snd].
  2:{ assert (this' = this) as ->; [|now repeat split].
      revert Hrun. unfold assignValidatorToShard.
      destruct (negb _); [now intros [= _ <-]|].
      destruct (fst (fewest (shards this))) as [id|]; [|now intros [= _ <-]].
      destruct (bool_decide (id = "")); [now intros [= _ <-]|].
      unfold bind, updateShard.
      destruct (JsMap.get id (shards this)); [discriminate | now intros [= _ <-]]. }
  destruct (assignValidatorToShard_Return _ _ _ _ _ Hwf Hrun)
    as (before & shard & after & Hsplit & Hget & Hb & Ha & ->).
  assert (Hleast : forall id sh,
             JsMap.get id (shards this) = Some sh ->
             (size (validatorSet shard) <= size (validatorSet sh))%nat).
  { intros id sh Hsh. apply JsMapFacts.get_Some_in in Hsh. rewrite Hsplit in Hsh.
    apply in_app_or in Hsh as [Hin|[[= <- <-]|Hin]]; [|lia|].
    - rewrite List.Forall_forall in Hb. specialize (Hb _ Hin). cbn in Hb. lia.
    - rewrite List.Forall_forall in Ha. now specialize (Ha _ Hin). }
  assert (Hafter : forall id,
             JsMap.get id (shards (setShardValidators (insert validatorPublicKey target)
               (setShards (JsMap.set target (addValidator validatorPublicKey shard)) this)))
             = if decide (id = target) then Some (addValidator validatorPublicKey shard)
               else JsMap.get id (shards this)).
  { intros id. cbn [shards setShardValidators setShards].
    destruct (decide (id = target)) as [->|Hne];
      [apply JsMapFacts.get_set_eq | now apply JsMapFacts.get_set_ne]. }
  pose proof (size_add validatorPublicKey (validatorSet shard)) as Hsize.
  split; [|split; [|split]].
  - cbn [shards setShardValidators setShards]. now apply JsMapFacts.wf_set.
  - intros id1 id2 shard1 shard2. rewrite !Hafter. intros H1 H2.
    destruct (decide (id1 = target)) as [->|Hne1];
      destruct (decide (id2 = target)) as [->|Hne2];
      try (injection H1 as <-); try (injection H2 as <-);
      cbn [validatorSet addValidator].
    + lia.
    + pose proof (Hleast _ _ H2). lia.
    + pose proof (Hbal id1 target shard1 shard H1 Hget). lia.
    + now apply (Hbal id1 id2).
  - intros key shardId. unfold getValidatorShard, validatorsOf.
    cbn [shardValidators setShardValidators setShards]. rewrite Hafter.
    destruct (decide (key = validatorPublicKey)) as [->|Hkey].
    + rewrite lookup_insert_eq. intros [= <-].
      destruct (decide (target = target)); [|contradiction].
      cbn [validatorSet addValidator]. apply elem_of_union. left.
      now apply elem_of_singleton.
    + rewrite lookup_insert_ne by congruence. intros Hold.
      specialize (Hrec key shardId Hold). unfold validatorsOf in Hrec.
      destruct (decide (shardId = target)) as [->|Hne]; [|assumption].
      rewrite Hget in Hrec. cbn [validatorSet addValidator].
      apply elem_of_union. now right.
  - intros shardId. unfold validatorsOf. rewrite Hafter.
    destruct (decide (shardId = target)) as [->|Hne]; [|reflexivity].
    rewrite Hget. cbn [validatorSet addValidator]. apply union_subseteq_r.
Qed.

(** With all the shards there, every address is routed to one of them. *)
Lemma getAddressShard_routes (address : string) (this : t) :
  (Z.to_nat totalShards <= length (JsMap.keys (shards this)))%nat ->
  exists shardId shard,
    getAddressShard address this = Some shardId
    /\ JsMap.get shardId (shards this) = Some shard.
Proof.
  intros Hall. unfold getAddressShard.
  set (index := N.to_nat (addressDigest address mod Z.to_N totalShards)).
  assert (Hindex : (index < Z.to_nat totalShards)%nat).
  { subst index. pose proof (N.mod_lt (addressDigest address) (Z.to_N totalShards)) as Hlt.
    unfold totalShards, config.sharding.totalShards in *. lia. }
  destruct (lookup_lt_is_Some_2 (JsMap.keys (shards this)) index) as [shardId Hid];
    [lia|].
  exists shardId. pose proof (ShardProperties.keys_lookup_get _ _ _ Hid) as Hget.
  destruct (JsMap.get shardId (shards this)) as [shard|]; [|contradiction].
  now exists shard.
Qed.

(** A manager whose shards are all empty, with no validator recorded, is
    balanced and recorded. *)
Lemma fresh_state (this : t) :
  Forall (fun entry : string * Shard => validatorSet entry.2 = ∅) (shards this) ->
  shardValidators this = ∅ ->
  balanced this /\ recorded this.
Proof.
  intros Hfresh Hv. rewrite List.Forall_forall in Hfresh. split.
  - intros id1 id2 shard1 shard2 H1 H2.
    apply JsMapFacts.get_Some_in in H1. pose proof (Hfresh _ H1) as Hempty.
    cbn in Hempty. rewrite Hempty, size_empty. lia.
  - intros key shardId. unfold getValidatorShard. rewrite Hv. now rewrite lookup_empty.
Qed.

(** The first iteration of the loop of [initializeShards] throws. *)
Lemma initializeShards_throws (now : Z) (this : t) :
  initializeShards now this
  = (Throw "TypeError: KyberUtils.generateShardIdProof is not a function", this).
Proof. reflexivity. Qed.

(** A manager without shards stays as it is, whatever is called. *)
Lemma step_without_shards (this : t) (o : operation) :
  shards this = [] -> step this o = this.
Proof.
  intros Hnone. destruct o as [now | key signature | tx now | shardId block sigs now];
    cbn [step].
  - now rewrite initializeShards_throws.
  - unfold assignValidatorToShard. destruct (negb _); [reflexivity|].
    now rewrite Hnone.
  - unfold processTransaction, bind, read, getTransactionShard, getAddressShard.
    now rewrite Hnone.
  - unfold finalizeBlock, bind, read. now rewrite Hnone.
Qed.

(** X22. [initializeShards] creates no shard: its first iteration asks
    KyberUtils for a shard-id proof, which KyberUtils cannot generate, and
    the call ends with that TypeError before any shard is set.  A manager
    driven from its constructor through its writing methods therefore never
    holds a shard and never changes: every assignment of a validator finds no
    shard, and every transaction and every block names an invalid one. *)
Theorem initializeShards_creates_no_shard (now : Z) (this : t) :
  initializeShards now this
  = (Throw "TypeError: KyberUtils.generateShardIdProof is not a function", this)
  /\ (forall ops : list operation, run ops new = new)
  /\ (forall validatorPublicKey signature,
        fst (assignValidatorToShard validatorPublicKey signature new)
        = Throw (if KyberUtils.verifySignature (Utf8Buffer validatorPublicKey)
                      (Some signature) (Some validatorPublicKey)
                 then "No available shards" else "Invalid validator signature"))
  /\ (forall transaction now',
        processTransaction transaction now' new = (Throw "Invalid shard", new))
  /\ (forall shardId block validatorSignatures now',
        finalizeBlock shardId block validatorSignatures now' new
        = (Throw "Invalid shard", new)).
Proof.
  split; [apply initializeShards_throws|]. split; [|split; [|split]].
  - intros ops. unfold run.
    induction ops as [|o ops IH]; [reflexivity|]. cbn [fold_left].
    now rewrite step_without_shards.
  - intros key signature. unfold assignValidatorToShard.
    now destruct (KyberUtils.verifySignature _ _ _).
  - reflexivity.
  - reflexivity.
Qed.

(** X23. [processTransaction] throws "Invalid shard", writing nothing, when
    the array of shard ids has no element at the index of the sender, as on a
    manager whose shards were not initialized.  With all the shards there,
    it returns the shard id, after filing the transaction in that shard's
    pending table and nowhere else, when sender and recipient are routed to
    the same shard; when they are routed to two shards it ends, writing
    nothing, with the TypeError of [processCrossShardTransaction], whose
    proof KyberUtils cannot generate. *)
Theorem processTransaction_spec (transaction : TransactionData.t) (now : Z) (this : t) :
  let result := processTransaction transaction now this in
  (getTransactionShard transaction this = None ->
   result = (Throw "Invalid shard", this))
  /\ ((Z.to_nat totalShards <= length (JsMap.keys (shards this)))%nat ->
      exists s g,
        getTransactionShard transaction this = Some s
        /\ getAddressShard (TransactionData.recipient transaction) this = Some g
        /\ (s = g ->
            fst result = Return (inl s)
            /\ crossShardTransactions (snd result) = crossShardTransactions this
            /\ pendingOf s (snd result)
               = <[TransactionData.hash transaction := transaction]> (pendingOf s this)
            /\ (forall other, other <> s ->
                  pendingOf other (snd result) = pendingOf other this)
            /\ (forall other, chainOf other (snd result) = chainOf other this))
        /\ (s <> g ->
            result
            = (Throw "TypeError: KyberUtils.generateCrossShardProof is not a function",
               this))).
Proof.
  cbv zeta. split.
  - intros Hnone. unfold processTransaction, bind, read. now rewrite Hnone.
  - intros Hall.
    destruct (getAddressShard_routes (TransactionData.sender transaction) this Hall)
      as (s & shard & Hs & Hget).
    destruct (getAddressShard_routes (TransactionData.recipient transaction) this Hall)
      as (g & shardg & Hg & Hgetg).
    exists s, g. fold (getTransactionShard transaction this) in Hs.
    split; [assumption|]. split; [assumption|].
    split.
    + intros <-.
      destruct (updateShard (Some s)
                  (setPending (insert (TransactionData.hash transaction) transaction))
                  this) as [[[]|message] this'] eqn:Hupdate.
      2:{ unfold updateShard in Hupdate. rewrite Hget in Hupdate. discriminate. }
      assert (Hres : processTransaction transaction now this = (Return (inl s), this')).
      { unfold processTransaction, bind, read. rewrite Hs, Hget.
        unfold isCrossShardTransaction. rewrite Hs, Hg.
        rewrite bool_decide_eq_true_2 by reflexivity. cbn [negb].
        now rewrite Hupdate. }
      rewrite Hres. cbn [fst snd].
      destruct (ShardProperties.updateShard_setPending_Return _ _ _ _ Hupdate)
        as (id & [= <-] & _ & _ & Hc & Hchains & Hpending).
      repeat split; try assumption.
      * rewrite Hpending. destruct (decide (s = s)); [reflexivity | contradiction].
      * intros other Hne. rewrite Hpending.
        destruct (decide (s = other)); [congruence | reflexivity].
    + intros Hne. unfold processTransaction, bind at 1, read. rewrite Hs, Hget.
      unfold isCrossShardTransaction. rewrite Hs, Hg.
      rewrite bool_decide_eq_false_2 by congruence. cbn [negb].
      unfold bind. now rewrite ShardProperties.processCrossShardTransaction_throws.
Qed.

Lemma verifyValidatorSignatures_elem (block : BlockData.t)
    (signatures : list (string * Proof)) (validatorKey : string) :
  validatorKey ∈ verifyValidatorSignatures block signatures
  <-> exists signature,
        In (validatorKey, signature) signatures
        /\ KyberUtils.verifySignature (Utf8Buffer (BlockData.hash block))
             (Some signature) (Some validatorKey) = true.
Proof.
  unfold verifyValidatorSignatures. rewrite elem_of_list_to_set, list_elem_of_In.
  rewrite in_map_iff. split.
  - intros ([key signature] & Hkey & Hin). cbn in Hkey. subst key.
    apply filter_In in Hin as [Hin Hv]. now exists signature.
  - intros (signature & Hin & Hv). exists (validatorKey, signature).
    split; [reflexivity|]. apply filter_In. now split.
Qed.

(** X24. [finalizeBlock] throws "Invalid shard" for an unknown shard id and
    "Insufficient validator signatures" when fewer than minValidatorsPerShard
    distinct validator keys come with the block, however many signatures are
    passed; in both cases nothing is written.  The keys that count are those
    for which some signature passed with them verifies over the block
    hash. *)
Theorem finalizeBlock_rejects (shardId : string) (block : BlockData.t)
    (validatorSignatures : list (string * Proof)) (now : Z) (this : t) :
  (JsMap.get shardId (shards this) = None ->
   finalizeBlock shardId block validatorSignatures now this
   = (Throw "Invalid shard", this))
  /\ (JsMap.get shardId (shards this) <> None ->
      Z.of_nat (size (list_to_set (map fst validatorSignatures) : gset string))
      < minValidatorsPerShard ->
      finalizeBlock shardId block validatorSignatures now this
      = (Throw "Insufficient validator signatures", this))
  /\ (forall validatorKey,
        validatorKey ∈ verifyValidatorSignatures block validatorSignatures
        <-> exists signature,
              In (validatorKey, signature) validatorSignatures
              /\ KyberUtils.verifySignature (Utf8Buffer (BlockData.hash block))
                   (Some signature) (Some validatorKey) = true).
Proof.
  split; [|split].
  - intros Hnone. unfold finalizeBlock, bind, read. now rewrite Hnone.
  - intros Hsome Hfew. unfold finalizeBlock, bind at 1, read.
    destruct (JsMap.get shardId (shards this)); [|contradiction].
    assert (Hsub : verifyValidatorSignatures block validatorSignatures
                   ⊆ list_to_set (map fst validatorSignatures)).
    { intros key Hkey. apply verifyValidatorSignatures_elem in Hkey as (sig & Hin & _).
      apply elem_of_list_to_set, list_elem_of_In, in_map_iff.
      now exists (key, sig). }
    apply subseteq_size in Hsub.
    destruct (Z.ltb_spec
                (Z.of_nat (size (verifyValidatorSignatures block validatorSignatures)))
                minValidatorsPerShard); [reflexivity | lia].
  - apply verifyValidatorSignatures_elem.
Qed.

(** The loop of [processCrossShardTransactions] throws once a listed
    transaction is tracked as processing. *)
Lemma forEach_processing_throws (now : Z) (l : list TransactionData.t) :
  forall this : t,
    (exists tx entry,
        In tx l
        /\ crossShardTransactions this !! TransactionData.hash tx = Some entry
        /\ status entry = processing) ->
    exists this',
      forEach l (processCrossShardStep now) this
      = (Throw "TypeError: KyberUtils.generateFinalizationProof is not a function",
         this')
      /\ shards this' = shards this.
Proof.
  induction l as [|head l IH]; intros this (tx & entry & Hin & He & Hs);
    [destruct Hin|].
  cbn [forEach]. unfold bind.
  pose proof (ShardProperties.processCrossShardStep_cases now head this) as Hcases.
  destruct (crossShardTransactions this !! TransactionData.hash head)
    as [first|] eqn:Hfirst.
  - destruct (status first) eqn:Hstatus; rewrite Hcases.
    + destruct (IH (setCrossShardTransactions
                      (insert (TransactionData.hash head) (setStatus processing first))
                      this)) as (this' & Hrun & Hshards).
      { destruct (decide (TransactionData.hash tx = TransactionData.hash head))
          as [Hsame|Hother].
        - destruct Hin as [->|Hin]; [congruence|].
          exists tx, (setStatus processing first). split; [assumption|].
          cbn [crossShardTransactions setCrossShardTransactions].
          rewrite Hsame, lookup_insert_eq. now split.
        - destruct Hin as [->|Hin]; [congruence|].
          exists tx, entry. split; [assumption|].
          cbn [crossShardTransactions setCrossShardTransactions].
          rewrite lookup_insert_ne by congruence. now split. }
      exists this'. split; [assumption | now rewrite Hshards].
    + exists this. now split.
    + destruct Hin as [->|Hin]; [congruence|].
      apply IH. now exists tx, entry.
  - rewrite Hcases. destruct Hin as [->|Hin]; [congruence|].
    apply IH. now exists tx, entry.
Qed.

(** X25. With a known shard and a quorum of signatures, what [finalizeBlock]
    does turns on the tracking table.  When no transaction of the block is
    tracked it returns the block, after appending it to the chain of the
    shard, recording it as the last processed one and deleting its
    transactions from the shard's pending table, and writes nothing else.
    When some transaction of the block is tracked as processing it ends with
    the TypeError of the finalization proof that KyberUtils cannot generate,
    and the block is not appended. *)
Theorem finalizeBlock_returns (shardId : string) (block : BlockData.t)
    (validatorSignatures : list (string * Proof)) (now : Z) (this : t)
    (shard : Shard) :
  JsMap.get shardId (shards this) = Some shard ->
  minValidatorsPerShard
    <= Z.of_nat (size (verifyValidatorSignatures block validatorSignatures)) ->
  ((forall tx,
       In tx (BlockData.transactions block) ->
       crossShardTransactions this !! TransactionData.hash tx = None) ->
   finalizeBlock shardId block validatorSignatures now this
   = (Return block, setShards (JsMap.set shardId (acceptBlock block shard)) this))
  /\ ((exists tx entry,
         In tx (BlockData.transactions block)
         /\ crossShardTransactions this !! TransactionData.hash tx = Some entry
         /\ status entry = processing) ->
      fst (finalizeBlock shardId block validatorSignatures now this)
      = Throw "TypeError: KyberUtils.generateFinalizationProof is not a function"
      /\ shards (snd (finalizeBlock shardId block validatorSignatures now this))
         = shards this).
Proof.
  intros Hget Hq.
  assert (Hstart : finalizeBlock shardId block validatorSignatures now this
                   = (processCrossShardTransactions block now ;;;
                      updateShard (Some shardId) (acceptBlock block) ;;;
                      ret block) this).
  { unfold finalizeBlock, bind at 1, read. rewrite Hget.
    destruct (Z.ltb_spec
                (Z.of_nat (size (verifyValidatorSignatures block validatorSignatures)))
                minValidatorsPerShard); [lia | reflexivity]. }
  rewrite Hstart. unfold processCrossShardTransactions. split.
  - intros Hnone. unfold bind at 1.
    rewrite (ShardProperties.forEach_untracked now _ this Hnone).
    unfold bind, updateShard. now rewrite Hget.
  - intros Hprocessing.
    destruct (forEach_processing_throws now _ this Hprocessing)
      as (this' & Hrun & Hshards).
    unfold bind. rewrite Hrun. cbn [fst snd]. split; [reflexivity | exact Hshards].
Qed.

End WithCapabilities.

Lemma sharded_state :
  JsMap.wf (shards Sample.sharded) /\ balanced Sample.sharded
  /\ recorded Sample.sharded.
Proof.
  split; [apply (bool_decide_unpack _); vm_compute; exact I|].
  apply fresh_state; [|reflexivity].
  unfold Sample.sharded. cbn [shards]. apply Forall_map, Forall_true.
  intros i. reflexivity.
Qed.

Lemma assignValidatorToShard_spec_witness :
  getValidatorShard "v1"
    (snd (assignValidatorToShard (caps := Sample.caps) "v1" (mkProof "v1" "")
                                 Sample.sharded))
  = Some "shard-0".
Proof.
  destruct (assignValidatorToShard_spec (caps := Sample.caps) "v1" (mkProof "v1" "")
              Sample.sharded (proj1 sharded_state)) as (_ & _ & Hreturn).
  destruct (Hreturn "shard-0") as (_ & _ & _ & Hshard & _);
    [vm_compute; reflexivity | exact Hshard].
Defined.

Lemma assignValidatorToShard_keeps_balance_witness :
  balanced (snd (assignValidatorToShard (caps := Sample.caps) "v1" (mkProof "v1" "")
                                        Sample.sharded)).
Proof.
  destruct sharded_state as (Hwf & Hbalanced & Hrecorded).
  exact (proj1 (proj2 (assignValidatorToShard_keeps_balance (caps := Sample.caps)
                         "v1" (mkProof "v1" "") Sample.sharded
                         Hwf Hbalanced Hrecorded))).
Defined.

Lemma processTransaction_spec_witness :
  processTransaction (caps := Sample.caps) Sample.transfer 1700000000001 Sample.sharded
  = (Throw "TypeError: KyberUtils.generateCrossShardProof is not a function",
     Sample.sharded).
Proof.
  destruct (processTransaction_spec (caps := Sample.caps) Sample.transfer
              1700000000001 Sample.sharded) as [_ Hrouted].
  destruct Hrouted as (s & g & Hs & Hg & _ & Hcross); [vm_compute; lia|].
  apply Hcross. intros <-.
  assert (Hdiffer : getTransactionShard (caps := Sample.caps) Sample.transfer
                      Sample.sharded
                    <> getAddressShard (caps := Sample.caps)
                         (TransactionData.recipient Sample.transfer) Sample.sharded)
    by (vm_compute; discriminate).
  congruence.
Defined.

Lemma finalizeBlock_returns_witness :
  fst (finalizeBlock (caps := Sample.caps) "shard-5"
         (Sample.shardBlock "block-a" [Sample.transfer]) Sample.quorum
         1700000000003 Sample.sharded)
  = Return (Sample.shardBlock "block-a" [Sample.transfer])
  /\ fst (finalizeBlock (caps := Sample.caps) "shard-3"
            (Sample.shardBlock "block-c" [Sample.transfer]) Sample.quorum
            1700000000004 Sample.afterFirstBlock)
     = Throw "TypeError: KyberUtils.generateFinalizationProof is not a function".
Proof.
  split.
  - destruct (JsMap.get "shard-5" (shards Sample.sharded)) as [shard|] eqn:Hget;
      [|vm_compute in Hget; discriminate].
    rewrite (proj1 (finalizeBlock_returns (caps := Sample.caps) "shard-5"
                      (Sample.shardBlock "block-a" [Sample.transfer]) Sample.quorum
                      1700000000003 Sample.sharded shard Hget
                      ltac:(vm_compute; discriminate))).
    + reflexivity.
    + intros tx Hin. reflexivity.
  - destruct (JsMap.get "shard-3" (shards Sample.afterFirstBlock)) as [shard|] eqn:Hget;
      [|vm_compute in Hget; discriminate].
    apply (proj2 (finalizeBlock_returns (caps := Sample.caps) "shard-3"
                    (Sample.shardBlock "block-c" [Sample.transfer]) Sample.quorum
                    1700000000004 Sample.afterFirstBlock shard Hget
                    ltac:(vm_compute; discriminate))).
    exists Sample.transfer.
    destruct (crossShardTransactions Sample.afterFirstBlock
                !! TransactionData.hash Sample.transfer) as [entry|] eqn:Hentry;
      [|vm_compute in Hentry; discriminate].
    exists entry. split; [now left|]. split; [reflexivity|].
    assert (Hstatus : getCrossShardTransactionStatus
                        (TransactionData.hash Sample.transfer) Sample.afterFirstBlock
                      = Some processing) by (vm_compute; reflexivity).
    unfold getCrossShardTransactionStatus in Hstatus. rewrite Hentry in Hstatus.
    now injection Hstatus.
Defined.

End ShardManagerProperties.
